(** * Cross-chain swap orchestration: secret-reveal coordinator

    A shallow embedding of the TypeScript orchestration layer that drives
    hashed-timelock swaps through the cross-chain SDK:

    - [backend/src/utils/secret-manager.ts]   (module [SecretManager])
    - the EVM -> Solana command-line script   (module [EvmToSol])
    - [backend/src/sol-to-evm.ts]             (module [SolToEvm])
    - [backend/src/services/fusion-service.ts] (module [FusionService])
    - [backend/src/routes/fusion-routes.ts]   (module [FusionRoutes])

    The SDK itself is external.  Its hash-lock constructors are taken as
    arbitrary functions that return or throw (class [HashLockApi]; the
    refusals the SDK is known to make are the laws of [HashLockLaws]); its
    network operations are taken as arbitrary, possibly failing, state
    transformers over an abstract world (class [Relayer]).  Every network call the code makes is recorded in
    a chronological call log, so that statements about "which calls are made,
    with which arguments" are statements about that log. *)

From Stdlib Require Import ZArith List String Ascii Lia Bool.
From stdpp Require Import base gmap strings list pretty.

Local Open Scope string_scope.
Local Open Scope Z_scope.

(** ** JavaScript values and truthiness *)

(** A value as it arrives in a parsed JSON body, or [JsUndefined] for a
    property that is absent.  Numbers are kept as integers; a non-integral
    JSON number behaves like any non-zero one for the tests made here. *)
Inductive JsValue :=
| JsUndefined
| JsNull
| JsBool (b : bool)
| JsNumber (z : Z)
| JsString (s : string)
| JsObject.

(** [!!v] of JavaScript. *)
Definition truthy (v : JsValue) : bool :=
  match v with
  | JsUndefined | JsNull => false
  | JsBool b => b
  | JsNumber z => negb (z =? 0)
  | JsString s => negb (String.eqb s "")
  | JsObject => true
  end.

(** [!!x] for [x : string | undefined]. *)
Definition truthyStr (x : option string) : bool :=
  match x with
  | Some s => negb (String.eqb s "")
  | None => false
  end.

(** [arr[i]] for a JavaScript array and a numeric index: [undefined] outside
    [0 .. length-1]. *)
Definition jsIndex {A} (arr : list A) (i : Z) : option A :=
  if (i <? 0) then None else arr !! Z.to_nat i.

(** What a [throw] carries.  [err_isError] is [e instanceof Error];
    [err_responseData] is the JSON text of a truthy [e.response.data]. *)
Record ErrorObj := {
  err_isError : bool;
  err_message : string;
  err_responseData : option string
}.

Inductive Thrown :=
| ThrownNull                    (* [throw null] *)
| ThrownUndefined               (* [throw undefined] *)
| ThrownObj (e : ErrorObj).

(** A string-or-undefined read as a JavaScript value. *)
Definition ofOptStr (x : option string) : JsValue :=
  match x with
  | Some s => JsString s
  | None => JsUndefined
  end.

(** [new Error(msg)] *)
Definition newError (msg : string) : Thrown :=
  ThrownObj {| err_isError := true; err_message := msg; err_responseData := None |}.

(** [error instanceof Error ? error.message : dflt] *)
Definition messageOr (dflt : string) (e : Thrown) : string :=
  match e with
  | ThrownObj o => if err_isError o then err_message o else dflt
  | ThrownNull | ThrownUndefined => dflt
  end.

(** Result of a call into a library that may throw. *)
Inductive Outcome (A : Type) :=
| Ok (a : A)
| Err (e : Thrown).
Arguments Ok {A} a.
Arguments Err {A} e.

(** Two library calls in sequence: the second is made with the value of
    the first, and not at all when the first threw. *)
Definition andThen {A B} (o : Outcome A) (k : A -> Outcome B) : Outcome B :=
  match o with
  | Ok a => k a
  | Err e => Err e
  end.

(** ** Randomness, hex encoding *)

(** The entropy source behind [crypto.randomBytes]: an infinite tape of
    bytes and a cursor.  Each draw consumes the next [n] bytes, so two draws
    never see the same tape cell. *)
Record Rng := { tape : nat -> Byte.byte; cursor : nat }.

Definition randomBytes (n : nat) (g : Rng) : list Byte.byte * Rng :=
  (map (tape g) (seq (cursor g) n),
   {| tape := tape g; cursor := (cursor g + n)%nat |}).

Definition hexDigit (n : N) : ascii :=
  match n with
  | 0 => "0" | 1 => "1" | 2 => "2" | 3 => "3" | 4 => "4"
  | 5 => "5" | 6 => "6" | 7 => "7" | 8 => "8" | 9 => "9"
  | 10 => "a" | 11 => "b" | 12 => "c" | 13 => "d" | 14 => "e"
  | _ => "f"
  end%N%char.

(** [Buffer.prototype.toString('hex')]: two lowercase digits per byte. *)
Fixpoint toHex (bs : list Byte.byte) : string :=
  match bs with
  | [] => ""
  | b :: rest =>
      let n := Byte.to_N b in
      String (hexDigit (n / 16)) (String (hexDigit (n mod 16)) (toHex rest))
  end.

(** [String.prototype.includes] *)
Fixpoint includes (needle hay : string) : bool :=
  String.prefix needle hay ||
  match hay with
  | EmptyString => false
  | String _ rest => includes needle rest
  end.

(** [add0x] of the byte-utils package: prepend "0x" unless the text already
    carries one. *)
Definition add0x (data : string) : string :=
  if includes "0x" data then data else "0x" +:+ data.

(** The largest array length, [2^32 - 1]. *)
Definition maxArrayLength : Z := 4294967295.

(** [Array.from({ length: count })] for an integer [count]: [count] holes,
    none for a negative count, and a [RangeError] for a count beyond the
    largest array length. *)
Definition arrayFromLength (count : Z) : Outcome (list unit) :=
  if count <=? maxArrayLength then Ok (repeat tt (Z.to_nat count))
  else Err (newError "Invalid array length").

(** [arr.map(f)] for a callback that draws from the entropy source. *)
Fixpoint mapRng {A B} (f : A -> Rng -> B * Rng) (arr : list A) (g : Rng)
  : list B * Rng :=
  match arr with
  | [] => ([], g)
  | a :: rest =>
      let '(b, g1) := f a g in
      let '(bs, g2) := mapRng f rest g1 in
      (b :: bs, g2)
  end.

(** [Array.from({ length: count }).map(f)]: nothing is drawn when the array
    cannot be built. *)
Definition drawEach {B} (f : Rng -> B * Rng) (count : Z) (g : Rng)
  : Outcome (list B) * Rng :=
  match arrayFromLength count with
  | Ok holes => let '(bs, g') := mapRng (fun _ => f) holes g in (Ok bs, g')
  | Err e => (Err e, g)
  end.

(** ** The hash-lock part of the SDK *)

(** The three constructors check their argument and may throw; what they
    accept is the SDK's business and is not fixed here. *)
Class HashLockApi := {
  SecretHash : Type;
  MerkleLeaf : Type;
  HashLock : Type;
  (** [HashLock.hashSecret], applied by the code to generated secrets. *)
  hashSecret : string -> SecretHash;
  (** [HashLock.getMerkleLeaves] *)
  getMerkleLeaves : list string -> Outcome (list MerkleLeaf);
  (** [HashLock.forSingleFill]; the argument is [secrets[0]], which is
      [undefined] on an empty array. *)
  forSingleFill : option string -> Outcome HashLock;
  (** [HashLock.forMultipleFills] *)
  forMultipleFills : list MerkleLeaf -> Outcome HashLock
}.

(** What the SDK's constructors are seen to refuse: [forMultipleFills]
    wants more than two leaves, [forSingleFill] wants a secret, and
    [getMerkleLeaves] makes one leaf per secret. *)
Class HashLockLaws `{HashLockApi} : Prop := {
  multipleFills_refuses : forall leaves,
    (length leaves < 3)%nat -> exists e, forMultipleFills leaves = Err e;
  singleFill_refuses : exists e, forSingleFill None = Err e;
  merkleLeaves_length : forall secrets leaves,
    getMerkleLeaves secrets = Ok leaves -> length leaves = length secrets
}.

(** The term model: every value records the call that built it, and the
    constructors refuse what the SDK refuses. *)
Module Symbolic.

Inductive hash := HashSecret (s : string).

Inductive leaf := GetMerkleLeaves (secrets : list string) (k : nat).

Inductive lock :=
| ForSingleFill (secret : string)
| ForMultipleFills (ls : list leaf).

Definition api : HashLockApi := {|
  SecretHash := hash;
  MerkleLeaf := leaf;
  HashLock := lock;
  hashSecret := HashSecret;
  getMerkleLeaves := fun secrets =>
    Ok (map (GetMerkleLeaves secrets) (seq 0 (length secrets)));
  forSingleFill := fun secret =>
    match secret with
    | Some s => Ok (ForSingleFill s)
    | None => Err (newError "secret length must be 32 bytes hex encoded")
    end;
  forMultipleFills := fun leaves =>
    if (length leaves <? 3)%nat
    then Err (newError "leaves array must be greater than 2. Or use HashLock.forSingleFill")
    else Ok (ForMultipleFills leaves)
|}.

End Symbolic.

(** ** backend/src/utils/secret-manager.ts *)

Module SecretManager.

Definition generateSecret (g : Rng) : string * Rng :=
  let '(bytes, g') := randomBytes 32 g in
  (add0x (toHex bytes), g').

Definition generateSecrets (count : Z) (g : Rng) : Outcome (list string) * Rng :=
  drawEach generateSecret count g.

Section WithApi.
Context `{HashLockApi}.

(** The leaves are computed first, whichever constructor is then called. *)
Definition createHashLock (secrets : list string) : Outcome HashLock :=
  andThen (getMerkleLeaves secrets) (fun leaves =>
    if (1 <? Z.of_nat (length secrets))
    then forMultipleFills leaves
    else forSingleFill (jsIndex secrets 0)).

Record SecretData := {
  secrets : list string;
  secretHashes : list SecretHash;
  hashLock : HashLock
}.

Definition createSecretData (secretsCount : Z) (g : Rng)
  : Outcome SecretData * Rng :=
  let '(generated, g') := generateSecrets secretsCount g in
  (andThen generated (fun secrets =>
     let secretHashes := map hashSecret secrets in
     andThen (createHashLock secrets) (fun hashLock =>
       Ok {| secrets := secrets; secretHashes := secretHashes;
             hashLock := hashLock |})),
   g').

End WithApi.

End SecretManager.

(** ** Orders, quotes and the relayer *)

(** Order objects and chain addresses are opaque SDK values; the address
    parsers may reject their argument. *)
Class OrderApi := {
  Order : Type;
  Address : Type;
  (** [SolanaAddress.fromString] *)
  SolanaAddress_fromString : JsValue -> Outcome Address;
  (** [EvmAddress.fromString] *)
  EvmAddress_fromString : JsValue -> Outcome Address;
  (** [address.toString()] *)
  Address_toString : Address -> string;
  (** [NetworkEnum.ETHEREUM], [NetworkEnum.SOLANA] *)
  NetworkEnum_ETHEREUM : Z;
  NetworkEnum_SOLANA : Z
}.

Record QuoteParams := {
  qp_amount : JsValue;
  qp_srcChainId : JsValue;
  qp_dstChainId : JsValue;
  qp_srcTokenAddress : JsValue;
  qp_dstTokenAddress : JsValue;
  qp_enableEstimate : bool;
  qp_walletAddress : JsValue
}.

Record Preset := { secretsCount : Z }.

Record OrderStatus := { status : string }.

Record Fill := { idx : Z }.

(** The answer of the ready-to-accept-secret-fills endpoint; [fills] may be
    absent. *)
Record ReadyToAcceptSecretFills := { fills : option (list Fill) }.

(** The fill indices an answer reports: none when [fills] is absent. *)
Definition reportedReady (a : ReadyToAcceptSecretFills) : list Z :=
  match fills a with
  | Some fs => map idx fs
  | None => []
  end.

Section SdkObjects.
Context `{HashLockApi} `{OrderApi}.

Record OrderParams := {
  op_hashLock : HashLock;
  op_receiver : Address;
  op_preset : string
}.

(** A quote as returned by [sdk.getQuote]: the fields the code reads and the
    methods it calls ([getPreset], [createEvmOrder], [createSolanaOrder]),
    each of which may throw.  [presets] is [Object.keys(quote.presets)],
    absent when [quote.presets] is. *)
Record Quote := {
  presets : option (list string);
  recommendedPreset : string;
  quoteId : option string;
  dstTokenAmount : option string;
  getPreset : string -> Outcome Preset;
  createEvmOrder : OrderParams -> Outcome Order;
  createSolanaOrder : OrderParams -> Outcome Order
}.

(** A call into the SDK.  In [CSubmitSecret] the index is the fill index
    the loop was serving when it made the call.  In
    [CGetReadyToAcceptSecretFills] the list holds the fill indices of the
    answer, in the order of the answer; it is empty when the call threw. *)
Inductive Call :=
| CImport
| CConnect (chainId : JsValue)
| CGetQuote (p : QuoteParams)
| CSubmitOrder (srcChainId : JsValue) (order : Order)
               (qid : option string) (hashes : list SecretHash)
| CAnnounceOrder (order : Order) (qid : option string) (hashes : list SecretHash)
| CSendTransaction (order : Order)
| CGetOrderStatus (orderHash : string)
| CGetReadyToAcceptSecretFills (orderHash : string) (reported : list Z)
| CSubmitSecret (orderHash : string) (i : Z) (secret : option string).

(** One entry of the call log: the call and whether it returned (rather
    than threw). *)
Record Entry := { call : Call; returned : bool }.

(** The network side of the SDK over a world [W]: every operation may
    change the world and may throw.  [clock_now] is [Date.now()];
    [setTimeout] is the awaited timer. *)
Class Relayer (W : Type) := {
  sdk_import : W -> Outcome unit * W;
  sdk_connect : JsValue -> W -> Outcome unit * W;
  sdk_getQuote : QuoteParams -> W -> Outcome Quote * W;
  sdk_submitOrder :
    JsValue -> Order -> option string -> list SecretHash -> W -> Outcome string * W;
  sdk_announceOrder :
    Order -> option string -> list SecretHash -> W -> Outcome string * W;
  solana_sendTransaction : Order -> W -> Outcome string * W;
  sdk_getOrderStatus : string -> W -> Outcome OrderStatus * W;
  sdk_getReadyToAcceptSecretFills :
    string -> W -> Outcome ReadyToAcceptSecretFills * W;
  sdk_submitSecret : string -> option string -> W -> Outcome unit * W;
  clock_now : W -> Z;
  setTimeout : Z -> W -> W
}.

End SdkObjects.

(** ** The monad of the embedding *)

(** How a computation ends: with a value, with a thrown value, by
    [process.exit], or by exhausting the loop budget of the model. *)
Inductive Res (A : Type) :=
| Ret (a : A)
| Throw (e : Thrown)
| Exit (code : Z)
| OutOfFuel.

Arguments Ret {A} a.
Arguments Throw {A} e.
Arguments Exit {A} code.
Arguments OutOfFuel {A}.

Section Monad.
Context `{HashLockApi} `{OrderApi} {W : Type} `{!Relayer W}.

(** Program state: the world behind the SDK, the entropy source,
    [process.env], the call log, and the two mutable locals of the
    monitoring loops (the set of indices already shared and the attempt
    counter). *)
Record St := {
  world : W;
  rng : Rng;
  env : gmap string string;
  calls : list Entry;
  alreadyShared : gset Z;
  attempts : Z
}.

Definition M (A : Type) : Type := St -> Res A * St.

Definition ret {A} (a : A) : M A := fun s => (Ret a, s).

Definition throw {A} (e : Thrown) : M A := fun s => (Throw e, s).

Definition processExit {A} (code : Z) : M A := fun s => (Exit code, s).

Definition outOfFuel {A} : M A := fun s => (OutOfFuel, s).

Definition bind {A B} (m : M A) (k : A -> M B) : M B :=
  fun s =>
    match m s with
    | (Ret a, s') => k a s'
    | (Throw e, s') => (Throw e, s')
    | (Exit c, s') => (Exit c, s')
    | (OutOfFuel, s') => (OutOfFuel, s')
    end.

(** [try { body } catch (e) { handler e }] *)
Definition tryCatch {A} (body : M A) (handler : Thrown -> M A) : M A :=
  fun s =>
    match body s with
    | (Throw e, s') => handler e s'
    | r => r
    end.

Definition ofOutcome {A} (o : Outcome A) : M A :=
  match o with
  | Ok a => ret a
  | Err e => throw e
  end.

Definition setWorld (w : W) (s : St) : St :=
  {| world := w; rng := rng s; env := env s; calls := calls s;
     alreadyShared := alreadyShared s; attempts := attempts s |}.

Definition logCall (c : Entry) (s : St) : St :=
  {| world := world s; rng := rng s; env := env s; calls := calls s ++ [c];
     alreadyShared := alreadyShared s; attempts := attempts s |}.

Definition setRng (g : Rng) (s : St) : St :=
  {| world := world s; rng := g; env := env s; calls := calls s;
     alreadyShared := alreadyShared s; attempts := attempts s |}.

Definition setShared (x : gset Z) (s : St) : St :=
  {| world := world s; rng := rng s; env := env s; calls := calls s;
     alreadyShared := x; attempts := attempts s |}.

Definition setAttempts (n : Z) (s : St) : St :=
  {| world := world s; rng := rng s; env := env s; calls := calls s;
     alreadyShared := alreadyShared s; attempts := n |}.

(** A logged call into the relayer. *)
Definition callSdk {A} (c : Call) (op : W -> Outcome A * W) : M A :=
  fun s =>
    let '(o, w') := op (world s) in
    match o with
    | Ok a => (Ret a, logCall {| call := c; returned := true |} (setWorld w' s))
    | Err e => (Throw e, logCall {| call := c; returned := false |} (setWorld w' s))
    end.

(** [sdk.submitSecret(orderHash, secret)], issued while serving fill index
    [i]. *)
Definition submitSecret (orderHash : string) (i : Z) (secret : option string)
  : M unit :=
  callSdk (CSubmitSecret orderHash i secret) (sdk_submitSecret orderHash secret).

Definition getOrderStatus (orderHash : string) : M OrderStatus :=
  callSdk (CGetOrderStatus orderHash) (sdk_getOrderStatus orderHash).

(** [sdk.getReadyToAcceptSecretFills(orderHash)]; the log entry keeps the
    indices the answer reported. *)
Definition getReadyToAcceptSecretFills (orderHash : string)
  : M ReadyToAcceptSecretFills :=
  fun s =>
    let '(o, w') := sdk_getReadyToAcceptSecretFills orderHash (world s) in
    match o with
    | Ok a =>
        (Ret a, logCall {| call := CGetReadyToAcceptSecretFills orderHash
                                     (reportedReady a);
                           returned := true |} (setWorld w' s))
    | Err e =>
        (Throw e, logCall {| call := CGetReadyToAcceptSecretFills orderHash [];
                             returned := false |} (setWorld w' s))
    end.

Definition sdkGetQuote (p : QuoteParams) : M Quote :=
  callSdk (CGetQuote p) (sdk_getQuote p).

Definition submitOrder (srcChainId : JsValue) (order : Order)
    (qid : option string) (hashes : list SecretHash) : M string :=
  callSdk (CSubmitOrder srcChainId order qid hashes)
          (sdk_submitOrder srcChainId order qid hashes).

Definition announceOrder (order : Order) (qid : option string)
    (hashes : list SecretHash) : M string :=
  callSdk (CAnnounceOrder order qid hashes) (sdk_announceOrder order qid hashes).

Definition sendTransaction (order : Order) : M string :=
  callSdk (CSendTransaction order) (solana_sendTransaction order).

Definition importSdk : M unit := callSdk CImport sdk_import.

Definition connect (chainId : JsValue) : M unit :=
  callSdk (CConnect chainId) (sdk_connect chainId).

(** [await setTimeout(ms)] *)
Definition sleep (ms : Z) : M unit :=
  fun s => (Ret tt, setWorld (setTimeout ms (world s)) s).

(** [Date.now()] *)
Definition dateNow : M Z := fun s => (Ret (clock_now (world s)), s).

Definition getEnv (key : string) : M (option string) :=
  fun s => (Ret (env s !! key), s).

(** A computation on the entropy source that may throw. *)
Definition withRng {A} (f : Rng -> Outcome A * Rng) : M A :=
  fun s =>
    let '(o, g) := f (rng s) in
    match o with
    | Ok a => (Ret a, setRng g s)
    | Err e => (Throw e, setRng g s)
    end.

Definition getShared : M (gset Z) := fun s => (Ret (alreadyShared s), s).

Definition putShared (x : gset Z) : M unit := fun s => (Ret tt, setShared x s).

(** [alreadyShared.add(i)] *)
Definition addShared (i : Z) : M unit :=
  fun s => (Ret tt, setShared ({[i]} ∪ alreadyShared s) s).

Definition getAttempts : M Z := fun s => (Ret (attempts s), s).

Definition putAttempts (n : Z) : M unit := fun s => (Ret tt, setAttempts n s).

(** [for (const x of xs) body x] *)
Fixpoint forOf {A} (xs : list A) (body : A -> M unit) : M unit :=
  match xs with
  | [] => ret tt
  | x :: rest => bind (body x) (fun _ => forOf rest body)
  end.

End Monad.

Notation "'let*' x ':=' c 'in' k" := (bind c (fun x => k))
  (at level 10, x name, c at level 100, k at level 200).

(** ** The EVM -> Solana command-line script *)

Module EvmToSol.

Definition requiredEnvVars : list string :=
  ["PRIVATE_KEY"; "MAKER_ADDRESS"; "RECEIVER_ADDRESS"; "DEV_PORTAL_API_KEY"].

Record Config := {
  signerPrivateKey : option string;
  maker : option string;
  receiver : option string;
  devPortalApiKey : option string;
  usdtEvm : string;
  usdtSolana : string;
  amount : string;
  pollInterval : Z;
  srcChainId : Z;
  dstChainId : Z
}.

Definition getSecret (g : Rng) : string * Rng :=
  let '(bytes, g') := randomBytes 32 g in
  (add0x (toHex bytes), g').

Definition generateSecrets (count : Z) (g : Rng) : Outcome (list string) * Rng :=
  drawEach getSecret count g.

Section Script.
Context `{HashLockApi} `{OrderApi} {W : Type} `{!Relayer W}.
Local Abbreviation M := (@M _ _ W).

Definition createHashLock (secrets : list string) : Outcome HashLock :=
  andThen (getMerkleLeaves secrets) (fun leaves =>
    if (1 <? Z.of_nat (length secrets))
    then forMultipleFills leaves
    else forSingleFill (jsIndex secrets 0)).

(** The top-level loop over [requiredEnvVars]. *)
Definition checkEnv : M unit :=
  forOf requiredEnvVars (fun key =>
    let* v := getEnv key in
    if truthyStr v then ret tt else processExit 1).

(** [baseConfig] completed by [initializeSDK]; the amount is
    [parseUnits("5", 6).toString()]. *)
Definition config : M Config :=
  let* pk := getEnv "PRIVATE_KEY" in
  let* mk := getEnv "MAKER_ADDRESS" in
  let* rc := getEnv "RECEIVER_ADDRESS" in
  let* key := getEnv "DEV_PORTAL_API_KEY" in
  ret {| signerPrivateKey := pk; maker := mk; receiver := rc;
         devPortalApiKey := key;
         usdtEvm := "0xdac17f958d2ee523a2206206994597c13d831ec7";
         usdtSolana := "Es9vMFrzaCERmJfrF4H2FYD4KCoNkY11McCe8BenwNYB";
         amount := "5000000";
         pollInterval := 5000;
         srcChainId := NetworkEnum_ETHEREUM;
         dstChainId := NetworkEnum_SOLANA |}.

Definition initializeSDK : M unit :=
  tryCatch importSdk (fun _ => processExit 1).

Definition getQuote (cfg : Config) : M Quote :=
  sdkGetQuote {|
    qp_amount := JsString (amount cfg);
    qp_srcChainId := JsNumber (srcChainId cfg);
    qp_dstChainId := JsNumber (dstChainId cfg);
    qp_srcTokenAddress := JsString (usdtEvm cfg);
    qp_dstTokenAddress := JsString (usdtSolana cfg);
    qp_enableEstimate := true;
    qp_walletAddress := ofOptStr (maker cfg) |}.

Definition createAndSubmitOrder (cfg : Config) (quote : Quote)
  : M (string * list string) :=
  let* preset := ofOutcome (getPreset quote (recommendedPreset quote)) in
  let* secrets := withRng (generateSecrets (secretsCount preset)) in
  let secretHashes := map (fun s => hashSecret s) secrets in
  let* hashLock := ofOutcome (createHashLock secrets) in
  let* receiver := ofOutcome (SolanaAddress_fromString (ofOptStr (receiver cfg))) in
  let* order := ofOutcome (createEvmOrder quote
      {| op_hashLock := hashLock; op_receiver := receiver;
         op_preset := recommendedPreset quote |}) in
  let* orderHash :=
    submitOrder (JsNumber (srcChainId cfg)) order (quoteId quote) secretHashes in
  ret (orderHash, secrets).

(** The body of [for (const idx of idxes)]. *)
Definition shareSecret (orderHash : string) (secrets : list string) (i : Z)
  : M unit :=
  let* shared := getShared in
  if decide (i ∈ shared) then ret tt
  else
    tryCatch
      (let* _ := submitSecret orderHash i (jsIndex secrets i) in
       addShared i)
      (fun _ => ret tt).

(** One pass of [while (true)]; the result tells whether the function
    returned. *)
Definition monitorStep (cfg : Config) (orderHash : string)
    (secrets : list string) : M bool :=
  let* finished :=
    tryCatch
      (let* order := getOrderStatus orderHash in
       ret (String.eqb (status order) "executed"))
      (fun _ => ret false) in
  if finished then ret true
  else
    let* _ :=
      tryCatch
        (let* readyToAcceptSecrets := getReadyToAcceptSecretFills orderHash in
         let* idxes :=
           match fills readyToAcceptSecrets with
           | Some fs => ret (map idx fs)
           | None => throw (newError "Cannot read properties of undefined (reading 'map')")
           end in
         let* _ := forOf idxes (shareSecret orderHash secrets) in
         sleep (pollInterval cfg))
        (fun _ => sleep (pollInterval cfg)) in
    ret false.

Fixpoint monitorLoop (fuel : nat) (cfg : Config) (orderHash : string)
    (secrets : list string) : M unit :=
  match fuel with
  | O => outOfFuel
  | S fuel' =>
      let* finished := monitorStep cfg orderHash secrets in
      if finished then ret tt else monitorLoop fuel' cfg orderHash secrets
  end.

Definition monitorAndSubmitSecrets (fuel : nat) (cfg : Config)
    (orderHash : string) (secrets : list string) : M unit :=
  let* _ := putShared ∅ in
  monitorLoop fuel cfg orderHash secrets.

(** The provider, connector and SDK objects are built first ([connect]),
    which fails on a malformed key. *)
Definition performCrossChainSwap (fuel : nat) (cfg : Config) : M unit :=
  let* _ := connect (JsNumber (srcChainId cfg)) in
  let* quote := getQuote cfg in
  let* r := createAndSubmitOrder cfg quote in
  monitorAndSubmitSecrets fuel cfg (fst r) (snd r).

Definition main (fuel : nat) : M unit :=
  let* _ := initializeSDK in
  let* cfg := config in
  tryCatch (performCrossChainSwap fuel cfg) (fun _ => processExit 1).

(** The module as executed: the environment check, then [main()]. *)
Definition script (fuel : nat) : M unit :=
  let* _ := checkEnv in
  main fuel.

End Script.

End EvmToSol.

(** ** backend/src/sol-to-evm.ts *)

Module SolToEvm.

Definition requiredEnvVars : list string :=
  ["SOLANA_PRIVATE_KEY"; "SOLANA_MAKER_ADDRESS"; "ETH_RECEIVER_ADDRESS";
   "DEV_PORTAL_API_KEY"].

Record Config := {
  signerPrivateKey : option string;
  maker : option string;
  receiver : option string;
  devPortalApiKey : option string;
  solanaRpc : string;
  sdkUrl : string;
  usdtEvm : string;
  usdtSolana : string;
  amount : string;
  pollInterval : Z;
  srcChainId : Z;
  dstChainId : Z
}.

Definition getSecret (g : Rng) : string * Rng :=
  let '(bytes, g') := randomBytes 32 g in
  (add0x (toHex bytes), g').

Definition generateSecrets (count : Z) (g : Rng) : Outcome (list string) * Rng :=
  drawEach getSecret count g.

Definition maxAttempts : Z := 120.

Section Script.
Context `{HashLockApi} `{OrderApi} {W : Type} `{!Relayer W}.
Local Abbreviation M := (@M _ _ W).

Definition createHashLock (secrets : list string) : Outcome HashLock :=
  andThen (getMerkleLeaves secrets) (fun leaves =>
    if (1 <? Z.of_nat (length secrets))
    then forMultipleFills leaves
    else forSingleFill (jsIndex secrets 0)).

Definition checkEnv : M unit :=
  forOf requiredEnvVars (fun key =>
    let* v := getEnv key in
    if truthyStr v then ret tt else processExit 1).

Definition config : M Config :=
  let* pk := getEnv "SOLANA_PRIVATE_KEY" in
  let* mk := getEnv "SOLANA_MAKER_ADDRESS" in
  let* rc := getEnv "ETH_RECEIVER_ADDRESS" in
  let* key := getEnv "DEV_PORTAL_API_KEY" in
  ret {| signerPrivateKey := pk; maker := mk; receiver := rc;
         devPortalApiKey := key;
         solanaRpc := "https://api.mainnet-beta.solana.com";
         sdkUrl := "https://api.1inch.dev/fusion-plus";
         usdtEvm := "0xdac17f958d2ee523a2206206994597c13d831ec7";
         usdtSolana := "Es9vMFrzaCERmJfrF4H2FYD4KCoNkY11McCe8BenwNYB";
         amount := "5000000";
         pollInterval := 5000;
         srcChainId := NetworkEnum_SOLANA;
         dstChainId := NetworkEnum_ETHEREUM |}.

Definition initializeSDK : M unit :=
  tryCatch importSdk (fun _ => processExit 1).

Definition getQuote (cfg : Config) : M Quote :=
  let* srcToken := ofOutcome (SolanaAddress_fromString (JsString (usdtSolana cfg))) in
  let* dstToken := ofOutcome (EvmAddress_fromString (JsString (usdtEvm cfg))) in
  sdkGetQuote {|
    qp_amount := JsString (amount cfg);
    qp_srcChainId := JsNumber (srcChainId cfg);
    qp_dstChainId := JsNumber (dstChainId cfg);
    qp_srcTokenAddress := JsString (Address_toString srcToken);
    qp_dstTokenAddress := JsString (Address_toString dstToken);
    qp_enableEstimate := true;
    qp_walletAddress := ofOptStr (maker cfg) |}.

(** The escrow instruction, the key pair and the Solana connection are
    SDK and web3 objects; building and sending the transaction is the single
    logged operation [sendTransaction]. *)
Definition createAndSubmitOrder (cfg : Config) (quote : Quote)
  : M (string * list string) :=
  let* preset := ofOutcome (getPreset quote (recommendedPreset quote)) in
  let* secrets := withRng (generateSecrets (secretsCount preset)) in
  let secretHashes := map (fun s => hashSecret s) secrets in
  let* hashLock := ofOutcome (createHashLock secrets) in
  let* receiver := ofOutcome (EvmAddress_fromString (ofOptStr (receiver cfg))) in
  let* order := ofOutcome (createSolanaOrder quote
      {| op_hashLock := hashLock; op_receiver := receiver;
         op_preset := recommendedPreset quote |}) in
  let* orderHash := announceOrder order (quoteId quote) secretHashes in
  let* _ := sendTransaction order in
  ret (orderHash, secrets).

Definition shareSecret (orderHash : string) (secrets : list string) (i : Z)
  : M unit :=
  let* shared := getShared in
  if decide (i ∈ shared) then ret tt
  else
    tryCatch
      (let* _ := submitSecret orderHash i (jsIndex secrets i) in
       addShared i)
      (fun _ => ret tt).

(** [attempts++] *)
Definition incrAttempts : M unit :=
  let* n := getAttempts in putAttempts (n + 1).

(** One pass of [while (attempts < maxAttempts)]; the result tells whether
    the function returned. *)
Definition monitorStep (cfg : Config) (orderHash : string)
    (secrets : list string) : M bool :=
  let* finished :=
    tryCatch
      (let* order := getOrderStatus orderHash in
       if String.eqb (status order) "executed" then ret true
       else if String.eqb (status order) "expired"
               || String.eqb (status order) "cancelled" then ret true
       else ret false)
      (fun _ => ret false) in
  if finished then ret true
  else
    let* _ :=
      tryCatch
        (let* readyToAcceptSecrets := getReadyToAcceptSecretFills orderHash in
         let* _ :=
           match fills readyToAcceptSecrets with
           | Some (f :: fs) =>
               forOf (map idx (f :: fs)) (shareSecret orderHash secrets)
           | _ => ret tt
           end in
         let* _ := sleep (pollInterval cfg) in
         incrAttempts)
        (fun _ =>
           let* _ := sleep (pollInterval cfg) in
           incrAttempts) in
    ret false.

Fixpoint monitorLoop (fuel : nat) (cfg : Config) (orderHash : string)
    (secrets : list string) : M unit :=
  match fuel with
  | O => outOfFuel
  | S fuel' =>
      let* n := getAttempts in
      if n <? maxAttempts then
        let* finished := monitorStep cfg orderHash secrets in
        if finished then ret tt else monitorLoop fuel' cfg orderHash secrets
      else ret tt
  end.

Definition monitorAndSubmitSecrets (fuel : nat) (cfg : Config)
    (orderHash : string) (secrets : list string) : M unit :=
  let* _ := sleep (pollInterval cfg) in
  let* _ := putShared ∅ in
  let* _ := putAttempts 0 in
  monitorLoop fuel cfg orderHash secrets.

Definition performCrossChainSwap (fuel : nat) (cfg : Config) : M unit :=
  tryCatch
    (let* quote := getQuote cfg in
     let* r := createAndSubmitOrder cfg quote in
     monitorAndSubmitSecrets fuel cfg (fst r) (snd r))
    (fun error => throw error).

Definition main (fuel : nat) : M unit :=
  let* _ := initializeSDK in
  let* cfg := config in
  tryCatch (performCrossChainSwap fuel cfg) (fun _ => processExit 1).

Definition script (fuel : nat) : M unit :=
  let* _ := checkEnv in
  main fuel.

End Script.

End SolToEvm.

(** ** backend/src/services/fusion-service.ts *)

Module FusionService.

Record SwapRequest := {
  srcChainId : JsValue;
  dstChainId : JsValue;
  srcTokenAddress : JsValue;
  dstTokenAddress : JsValue;
  amount : JsValue;
  walletAddress : JsValue;
  receiverAddress : JsValue;
  preset : JsValue
}.

(** What [monitorAndCompleteSwap] returns: [{ status: 'completed', ... }]
    or [{ status: 'failed', ..., error }]. *)
Inductive MonitorResult :=
| MonitorCompleted (finalOrderStatus : OrderStatus)
| MonitorFailed (error : string).

(** What [executeSwap] returns.  The stack text of the failure object
    ([details]) is not kept. *)
Inductive SwapResult :=
| SwapExecuted (orderHash : string) (estimatedOutput : string)
               (usedPreset : string) (usedSecretsCount : Z)
               (finalStatus : MonitorResult)
| SwapFailed (error : string).

Definition success (r : SwapResult) : bool :=
  match r with
  | SwapExecuted _ _ _ _ _ => true
  | SwapFailed _ => false
  end.

(** What [getQuote] returns on success. *)
Record QuoteResult := {
  qr_estimatedOutput : string;
  qr_presets : list string;
  qr_recommendedPreset : string;
  qr_quoteId : option string
}.

Definition maxWaitTime : Z := 10 * 60 * 1000.

(** [x?.toString() || '0'] for an amount already in text form. *)
Definition orZero (x : option string) : string :=
  match x with
  | Some s => if String.eqb s "" then "0" else s
  | None => "0"
  end.

(** The table of [getChainRPC]. *)
Definition rpcUrls : gmap Z string :=
  {[ 1 := "https://api.1inch.dev/web3/1";
     8453 := "https://api.1inch.dev/web3/8453";
     42161 := "https://api.1inch.dev/web3/42161";
     137 := "https://api.1inch.dev/web3/137";
     10 := "https://api.1inch.dev/web3/10" ]}.

(** [Number.MAX_SAFE_INTEGER], [2^53 - 1]. *)
Definition maxSafeInteger : Z := 9007199254740991.

(** The text a template literal gives an integer.  Up to
    [Number.MAX_SAFE_INTEGER] in absolute value it is the decimal numeral.
    Beyond, a number is a rounded floating-point value, printed with the
    shortest digits that identify it and, from [10^21] on, with an exponent;
    the embedding has no floating point and gives no text there. *)
Definition numberToString (n : Z) : option string :=
  if Z.abs n <=? maxSafeInteger then Some (pretty n) else None.

(** [getChainRPC]: the table entry, or the URL built from the chain id. *)
Definition getChainRPC (chainId : Z) : option string :=
  match rpcUrls !! chainId with
  | Some url =>
      if String.eqb url ""
      then String.append "https://api.1inch.dev/web3/" <$> numberToString chainId
      else Some url
  | None => String.append "https://api.1inch.dev/web3/" <$> numberToString chainId
  end.

Record ChainInfo := {
  chain_name : string;
  chain_symbol : string;
  chain_rpc : option string
}.

(** [getSupportedChains]: the object, as its list of entries. *)
Definition getSupportedChains : list (Z * ChainInfo) :=
  [ (1, {| chain_name := "Ethereum"; chain_symbol := "ETH"; chain_rpc := getChainRPC 1 |});
    (137, {| chain_name := "Polygon"; chain_symbol := "MATIC"; chain_rpc := getChainRPC 137 |});
    (42161, {| chain_name := "Arbitrum"; chain_symbol := "ARB"; chain_rpc := getChainRPC 42161 |});
    (8453, {| chain_name := "Base"; chain_symbol := "BASE"; chain_rpc := getChainRPC 8453 |});
    (10, {| chain_name := "Optimism"; chain_symbol := "OP"; chain_rpc := getChainRPC 10 |});
    (900, {| chain_name := "Solana"; chain_symbol := "SOL";
             chain_rpc := Some "https://api.mainnet-beta.solana.com" |}) ].

Section Service.
Context `{HashLockApi} `{OrderApi} {W : Type} `{!Relayer W}.
Local Abbreviation M := (@M _ _ W).

(** A parameter with default value [d]: [undefined] selects the default. *)
Definition orDefault (d v : JsValue) : JsValue :=
  match v with
  | JsUndefined => d
  | _ => v
  end.

(** [getSDKWithSigner(chainId = 1)].  The provider, connector and SDK
    objects behind the signer are built by [connect], after the two
    environment variables were found. *)
Definition getSDKWithSigner (chainId : JsValue) : M unit :=
  let chainId := orDefault (JsNumber 1) chainId in
  let* privateKey := getEnv "TEST_PRIVATE_KEY" in
  let* apiKey := getEnv "INCH_API_KEY" in
  if negb (truthyStr privateKey) || negb (truthyStr apiKey) then
    throw (newError "TEST_PRIVATE_KEY and INCH_API_KEY required for order submission")
  else connect chainId.

Definition quoteParams (params : SwapRequest) : QuoteParams :=
  {| qp_amount := amount params;
     qp_srcChainId := srcChainId params;
     qp_dstChainId := dstChainId params;
     qp_srcTokenAddress := srcTokenAddress params;
     qp_dstTokenAddress := dstTokenAddress params;
     qp_enableEstimate := true;
     qp_walletAddress := walletAddress params |}.

(** [Object.keys(quote.presets)] *)
Definition presetKeys (quote : Quote) : M (list string) :=
  match presets quote with
  | Some ks => ret ks
  | None => throw (newError "Cannot convert undefined or null to object")
  end.

Definition getQuote (params : QuoteParams) : M QuoteResult :=
  tryCatch
    (let* quote := sdkGetQuote params in
     let* keys := presetKeys quote in
     ret {| qr_estimatedOutput := orZero (dstTokenAmount quote);
            qr_presets := keys;
            qr_recommendedPreset := recommendedPreset quote;
            qr_quoteId := quoteId quote |})
    (fun error =>
       throw (newError ("Quote failed: " +:+ messageOr "Unknown error" error))).

(** The body of [for (const fill of readyForSecrets.fills)]. *)
Definition submitFill (orderHash : string) (secrets : list string)
    (fill : Fill) : M unit :=
  let* submittedSecrets := getShared in
  if negb (bool_decide (idx fill ∈ submittedSecrets))
     && truthyStr (jsIndex secrets (idx fill)) then
    tryCatch
      (let* _ := submitSecret orderHash (idx fill) (jsIndex secrets (idx fill)) in
       addShared (idx fill))
      (fun _ => ret tt)
  else ret tt.

(** One pass of the [while] body; [Some r] when the function returned [r]. *)
Definition monitorStep (orderHash : string) (secrets : list string)
  : M (option MonitorResult) :=
  tryCatch
    (let* st := getOrderStatus orderHash in
     if String.eqb (status st) "executed" then ret (Some (MonitorCompleted st))
     else
       let* readyForSecrets := getReadyToAcceptSecretFills orderHash in
       let* _ :=
         match fills readyForSecrets with
         | Some (f :: fs) => forOf (f :: fs) (submitFill orderHash secrets)
         | _ => ret tt
         end in
       let* _ := sleep 5000 in
       ret None)
    (fun _ =>
       let* _ := sleep 5000 in
       ret None).

(** [while (Date.now() - startTime < maxWaitTime)]; [None] when the loop
    ran to its end. *)
Fixpoint monitorLoop (fuel : nat) (orderHash : string) (secrets : list string)
    (startTime : Z) : M (option MonitorResult) :=
  match fuel with
  | O => outOfFuel
  | S fuel' =>
      let* now := dateNow in
      if now - startTime <? maxWaitTime then
        let* r := monitorStep orderHash secrets in
        match r with
        | Some x => ret (Some x)
        | None => monitorLoop fuel' orderHash secrets startTime
        end
      else ret None
  end.

Definition monitorAndCompleteSwap (fuel : nat) (orderHash : string)
    (secrets : list string) (srcChainId : JsValue) : M MonitorResult :=
  tryCatch
    (let* _ := getSDKWithSigner srcChainId in
     let* startTime := dateNow in
     let* _ := putShared ∅ in
     let* r := monitorLoop fuel orderHash secrets startTime in
     match r with
     | Some x => ret x
     | None => throw (newError "Monitoring timed out after 10 minutes")
     end)
    (fun error => ret (MonitorFailed (messageOr "Unknown monitoring error" error))).

(** Step 4 of [executeSwap]: the secrets drawn in place. *)
Definition inlineSecrets (count : Z) (g : Rng) : Outcome (list string) * Rng :=
  drawEach (fun g0 => let '(bytes, g1) := randomBytes 32 g0 in
                      (add0x (toHex bytes), g1))
           count g.

(** The hash-lock expression of [executeSwap]. *)
Definition inlineHashLock (secrets : list string) : Outcome HashLock :=
  if (Z.of_nat (length secrets) =? 1)
  then forSingleFill (jsIndex secrets 0)
  else andThen (getMerkleLeaves secrets) forMultipleFills.

(** [params.dstChainId === 900] *)
Definition isSolana (v : JsValue) : bool :=
  match v with
  | JsNumber z => z =? 900
  | _ => false
  end.

(** The handler of the inner [catch (submitError)]: reading
    [submitError.message] fails on a nullish value. *)
Definition onSubmitError {A} (submitError : Thrown) : M A :=
  match submitError with
  | ThrownNull =>
      throw (newError "Cannot read properties of null (reading 'message')")
  | ThrownUndefined =>
      throw (newError "Cannot read properties of undefined (reading 'message')")
  | ThrownObj o =>
      match err_responseData o with
      | Some data => throw (newError ("API Error: " +:+ data))
      | None => throw submitError
      end
  end.

(** The inner [try] of [executeSwap]: the order is submitted and then
    monitored. *)
Definition submitAndMonitor (fuel : nat) (params : SwapRequest) (quote : Quote)
    (presetData : Preset) (secrets : list string) (order : Order)
  : M SwapResult :=
  tryCatch
    (let* orderHash :=
       submitOrder (srcChainId params) order (quoteId quote)
                   (map hashSecret secrets) in
     let* finalResult :=
       monitorAndCompleteSwap fuel orderHash secrets (srcChainId params) in
     ret (SwapExecuted orderHash (orZero (dstTokenAmount quote))
                       (recommendedPreset quote)
                       (secretsCount presetData) finalResult))
    onSubmitError.

(** The outer [catch] of [executeSwap]. *)
Definition onSwapError (error : Thrown) : M SwapResult :=
  ret (SwapFailed (messageOr "Unknown error" error)).

Definition executeSwap (fuel : nat) (params : SwapRequest) : M SwapResult :=
  tryCatch
    (let* quote := sdkGetQuote (quoteParams params) in
     let* _ := presetKeys quote in
     let* _ := getSDKWithSigner (srcChainId params) in
     let preset := recommendedPreset quote in
     let* presetData := ofOutcome (getPreset quote preset) in
     let* secrets := withRng (inlineSecrets (secretsCount presetData)) in
     let* hashLock := ofOutcome (inlineHashLock secrets) in
     let* receiver :=
       ofOutcome (if isSolana (dstChainId params)
                  then SolanaAddress_fromString (receiverAddress params)
                  else EvmAddress_fromString (receiverAddress params)) in
     let* order := ofOutcome (createEvmOrder quote
         {| op_hashLock := hashLock; op_receiver := receiver;
            op_preset := preset |}) in
     submitAndMonitor fuel params quote presetData secrets order)
    onSwapError.

(** [FusionService.getOrderStatus]: the answer of the SDK call of the same
    name, or its error thrown again unchanged. *)
Definition getOrderStatus (orderHash : string) : M OrderStatus :=
  tryCatch (getOrderStatus orderHash) (fun error => throw error).

End Service.

End FusionService.

(** ** backend/src/routes/fusion-routes.ts *)

Module FusionRoutes.

(** The destructured [req.body] of [POST /quote]. *)
Record QuoteBody := {
  srcChainId : JsValue;
  dstChainId : JsValue;
  srcTokenAddress : JsValue;
  dstTokenAddress : JsValue;
  amount : JsValue;
  walletAddress : JsValue
}.

Inductive ResponseBody :=
| QuoteJson (q : FusionService.QuoteResult)
| Failure (error : string).

(** The [success] field of the JSON body. *)
Definition body_success (b : ResponseBody) : bool :=
  match b with
  | QuoteJson _ => true
  | Failure _ => false
  end.

Record Response := { statusCode : Z; body : ResponseBody }.

(** [a || b] *)
Definition jsOr (a b : JsValue) : JsValue := if truthy a then a else b.

(** Bodies of the swap endpoints: the bare result of [executeSwap]
    ([res.json(result)]), the result wrapped as
    [{ success: true, data, message }], or [{ success: false, error }]. *)
Inductive SwapBody :=
| SwapJson (result : FusionService.SwapResult)
| SwapData (data : FusionService.SwapResult) (message : string)
| SwapFailure (error : string).

(** The [success] field of a swap endpoint's body. *)
Definition swap_success (b : SwapBody) : bool :=
  match b with
  | SwapJson result => FusionService.success result
  | SwapData _ _ => true
  | SwapFailure _ => false
  end.

Record SwapResponse := { swapStatus : Z; swapBody : SwapBody }.

(** The destructured [req.body] of [POST /swap/test-eth-to-solana]. *)
Record TestSwapBody := { ts_amount : JsValue; ts_solanaReceiver : JsValue }.

(** Bodies of [GET /order/:orderHash/status]. *)
Inductive StatusBody :=
| StatusData (data : OrderStatus)
| StatusFailure (error : string).

Record StatusResponse := { orderStatusCode : Z; orderStatusBody : StatusBody }.

(** Bodies of [POST /quote/test-eth-to-solana]. *)
Inductive QuoteDataBody :=
| QuoteData (data : FusionService.QuoteResult) (message route : string)
| QuoteDataFailure (error : string).

Record QuoteDataResponse := { quoteDataStatus : Z; quoteDataBody : QuoteDataBody }.

Section Routes.
Context `{HashLockApi} `{OrderApi} {W : Type} `{!Relayer W}.
Local Abbreviation M := (@M _ _ W).

Definition postQuote (b : QuoteBody) : M Response :=
  tryCatch
    (if negb (truthy (srcChainId b)) || negb (truthy (dstChainId b))
        || negb (truthy (srcTokenAddress b)) || negb (truthy (dstTokenAddress b))
        || negb (truthy (amount b)) || negb (truthy (walletAddress b))
     then
       ret {| statusCode := 400;
              body := Failure "Missing required parameters: srcChainId, dstChainId, srcTokenAddress, dstTokenAddress, amount, walletAddress" |}
     else
       let* quote := FusionService.getQuote
         {| qp_amount := amount b;
            qp_srcChainId := srcChainId b;
            qp_dstChainId := dstChainId b;
            qp_srcTokenAddress := srcTokenAddress b;
            qp_dstTokenAddress := dstTokenAddress b;
            qp_enableEstimate := true;
            qp_walletAddress := walletAddress b |} in
       ret {| statusCode := 200; body := QuoteJson quote |})
    (fun error =>
       ret {| statusCode := 500; body := Failure (messageOr "Quote failed" error) |}).

(** [POST /swap/execute] *)
Definition postSwapExecute (fuel : nat) (b : FusionService.SwapRequest)
  : M SwapResponse :=
  tryCatch
    (if negb (truthy (FusionService.srcChainId b))
        || negb (truthy (FusionService.dstChainId b))
        || negb (truthy (FusionService.srcTokenAddress b))
        || negb (truthy (FusionService.dstTokenAddress b))
        || negb (truthy (FusionService.amount b))
        || negb (truthy (FusionService.walletAddress b))
        || negb (truthy (FusionService.receiverAddress b))
     then
       ret {| swapStatus := 400; swapBody := SwapFailure "Missing required parameters" |}
     else
       let* result := FusionService.executeSwap fuel
         {| FusionService.srcChainId := FusionService.srcChainId b;
            FusionService.dstChainId := FusionService.dstChainId b;
            FusionService.srcTokenAddress := FusionService.srcTokenAddress b;
            FusionService.dstTokenAddress := FusionService.dstTokenAddress b;
            FusionService.amount := FusionService.amount b;
            FusionService.walletAddress := FusionService.walletAddress b;
            FusionService.receiverAddress := FusionService.receiverAddress b;
            FusionService.preset := jsOr (FusionService.preset b) (JsString "fast") |} in
       ret {| swapStatus := 200; swapBody := SwapJson result |})
    (fun error =>
       ret {| swapStatus := 500;
              swapBody := SwapFailure (messageOr "Swap execution failed" error) |}).

(** The request [POST /swap/test-eth-to-solana] builds. *)
Definition ethToSolanaRequest (amount solanaReceiver : JsValue)
    (maker : option string) : FusionService.SwapRequest :=
  {| FusionService.srcChainId := JsNumber 1;
     FusionService.dstChainId := JsNumber 900;
     FusionService.srcTokenAddress := JsString "0xdac17f958d2ee523a2206206994597c13d831ec7";
     FusionService.dstTokenAddress := JsString "Es9vMFrzaCERmJfrF4H2FYD4KCoNkY11McCe8BenwNYB";
     FusionService.amount := jsOr amount (JsString "5000000");
     FusionService.walletAddress := ofOptStr maker;
     FusionService.receiverAddress := solanaReceiver;
     FusionService.preset := JsString "fast" |}.

(** [POST /swap/test-eth-to-solana] *)
Definition postTestEthToSolana (fuel : nat) (b : TestSwapBody) : M SwapResponse :=
  tryCatch
    (if negb (truthy (ts_solanaReceiver b)) then
       ret {| swapStatus := 400;
              swapBody := SwapFailure "solanaReceiver (Solana wallet address) is required" |}
     else
       let* maker := getEnv "TEST_MAKER_ADDRESS" in
       let* result := FusionService.executeSwap fuel
         (ethToSolanaRequest (ts_amount b) (ts_solanaReceiver b) maker) in
       ret {| swapStatus := 200;
              swapBody := SwapData result
                "Ethereum USDT to Solana USDT swap executed (official documented route)" |})
    (fun error =>
       ret {| swapStatus := 500;
              swapBody := SwapFailure (messageOr "Official route test failed" error) |}).

(** The request [POST /swap/test-base-eth-to-polygon] builds. *)
Definition baseToPolygonRequest (amount : JsValue) (maker receiver : option string)
  : FusionService.SwapRequest :=
  {| FusionService.srcChainId := JsNumber 8453;
     FusionService.dstChainId := JsNumber 137;
     FusionService.srcTokenAddress := JsString "0xEeeeeEeeeEeEeeEeEeEeeEEEeeeeEeeeeeeeEEeE";
     FusionService.dstTokenAddress := JsString "0x2791Bca1f2de4661ED88A30C99A7a9449Aa84174";
     FusionService.amount := jsOr amount (JsString "5000000000000000");
     FusionService.walletAddress := ofOptStr maker;
     FusionService.receiverAddress := ofOptStr receiver;
     FusionService.preset := JsString "fast" |}.

(** [POST /swap/test-base-eth-to-polygon] *)
Definition postTestBaseEthToPolygon (fuel : nat) (amount : JsValue) : M SwapResponse :=
  tryCatch
    (let* maker := getEnv "TEST_MAKER_ADDRESS" in
     let* receiver := getEnv "TEST_RECEIVER_ADDRESS" in
     let* result := FusionService.executeSwap fuel
       (baseToPolygonRequest amount maker receiver) in
     ret {| swapStatus := 200;
            swapBody := SwapData result "Base ETH to Polygon USDC swap executed" |})
    (fun error =>
       ret {| swapStatus := 500;
              swapBody := SwapFailure (messageOr "Legacy route test failed" error) |}).

(** [POST /quote/test-eth-to-solana] *)
Definition postQuoteTestEthToSolana (amount : JsValue) : M QuoteDataResponse :=
  tryCatch
    (let* maker := getEnv "TEST_MAKER_ADDRESS" in
     let* quote := FusionService.getQuote
       {| qp_amount := jsOr amount (JsString "5000000");
          qp_srcChainId := JsNumber 1;
          qp_dstChainId := JsNumber 900;
          qp_srcTokenAddress := JsString "0xdac17f958d2ee523a2206206994597c13d831ec7";
          qp_dstTokenAddress := JsString "Es9vMFrzaCERmJfrF4H2FYD4KCoNkY11McCe8BenwNYB";
          qp_enableEstimate := true;
          qp_walletAddress := ofOptStr maker |} in
     ret {| quoteDataStatus := 200;
            quoteDataBody := QuoteData quote "Official documented route quote successful"
                                       "Ethereum USDT -> Solana USDT" |})
    (fun error =>
       ret {| quoteDataStatus := 500;
              quoteDataBody := QuoteDataFailure (messageOr "Official route quote failed" error) |}).

(** [GET /order/:orderHash/status] *)
Definition getOrderStatusRoute (orderHash : string) : M StatusResponse :=
  tryCatch
    (let* st := FusionService.getOrderStatus orderHash in
     ret {| orderStatusCode := 200; orderStatusBody := StatusData st |})
    (fun error =>
       ret {| orderStatusCode := 500;
              orderStatusBody := StatusFailure (messageOr "Failed to get order status" error) |}).

End Routes.

End FusionRoutes.

(** ** Assumptions on the clock *)

(** The monitoring loop of the service is bounded by wall-clock time.  Its
    termination rests on two facts about the world: no SDK call of the loop
    moves [Date.now()] backwards, and an awaited timer of [ms] milliseconds
    moves it forward by at least [ms]. *)
Class ClockLaws `{HashLockApi} `{OrderApi} (W : Type) `{!Relayer W} : Prop := {
  clock_getOrderStatus : forall h w,
    clock_now w <= clock_now (snd (sdk_getOrderStatus h w));
  clock_getReady : forall h w,
    clock_now w <= clock_now (snd (sdk_getReadyToAcceptSecretFills h w));
  clock_submitSecret : forall h x w,
    clock_now w <= clock_now (snd (sdk_submitSecret h x w));
  clock_setTimeout : forall ms w,
    clock_now w + ms <= clock_now (setTimeout ms w)
}.

(** ** A scripted relayer

    A concrete world used to run the embedding: the relayer answers from
    prepared feeds, and every call costs one millisecond. *)

Module Sim.

#[global] Instance orders : OrderApi := {|
  Order := string;
  Address := string;
  SolanaAddress_fromString := fun v =>
    match v with
    | JsString s => if String.eqb s "" then Err (newError "invalid address") else Ok s
    | _ => Err (newError "invalid address")
    end;
  EvmAddress_fromString := fun v =>
    match v with
    | JsString s => if String.eqb s "" then Err (newError "invalid address") else Ok s
    | _ => Err (newError "invalid address")
    end;
  Address_toString := fun a => a;
  NetworkEnum_ETHEREUM := 1;
  NetworkEnum_SOLANA := 501
|}.

#[global] Existing Instance Symbolic.api.

Record scripted := {
  now : Z;
  (** [Some n]: quotes ask for [n] secrets; [None]: [getQuote] throws *)
  quoteSecrets : option Z;
  (** does the relayer accept the order? *)
  acceptOrder : bool;
  (** successive answers of [getOrderStatus], then [restStatus] for ever *)
  statuses : list string;
  restStatus : string;
  (** successive answers of the ready-fills endpoint, then no fills *)
  ready : list (list Z);
  (** successive outcomes of [submitSecret] ([true]: rejected), then accepted *)
  rejects : list bool
}.

Definition tick (w : scripted) : scripted :=
  {| now := now w + 1; quoteSecrets := quoteSecrets w;
     acceptOrder := acceptOrder w; statuses := statuses w;
     restStatus := restStatus w; ready := ready w; rejects := rejects w |}.

Definition quoteFor (n : Z) : Quote := {|
  presets := Some ["fast"];
  recommendedPreset := "fast";
  quoteId := Some "quote-1";
  dstTokenAmount := Some "4990000";
  getPreset := fun p =>
    if String.eqb p "fast" then Ok {| secretsCount := n |}
    else Err (newError "unknown preset");
  createEvmOrder := fun p => Ok (op_preset p);
  createSolanaOrder := fun p => Ok (op_preset p)
|}.

#[global] Instance relayer : Relayer scripted := {|
  sdk_import := fun w => (Ok tt, tick w);
  sdk_connect := fun _ w => (Ok tt, tick w);
  sdk_getQuote := fun _ w =>
    match quoteSecrets w with
    | Some n => (Ok (quoteFor n), tick w)
    | None => (Err (newError "quote unavailable"), tick w)
    end;
  sdk_submitOrder := fun _ _ _ _ w =>
    if acceptOrder w then (Ok "0xorder", tick w)
    else (Err (newError "order rejected"), tick w);
  sdk_announceOrder := fun _ _ _ w =>
    if acceptOrder w then (Ok "0xorder", tick w)
    else (Err (newError "order rejected"), tick w);
  solana_sendTransaction := fun _ w => (Ok "signature", tick w);
  sdk_getOrderStatus := fun _ w =>
    match statuses w with
    | st :: rest =>
        (Ok {| status := st |},
         {| now := now w + 1; quoteSecrets := quoteSecrets w;
            acceptOrder := acceptOrder w; statuses := rest;
            restStatus := restStatus w; ready := ready w; rejects := rejects w |})
    | [] => (Ok {| status := restStatus w |}, tick w)
    end;
  sdk_getReadyToAcceptSecretFills := fun _ w =>
    match ready w with
    | r :: rest =>
        (Ok {| fills := Some (map (fun i => {| idx := i |}) r) |},
         {| now := now w + 1; quoteSecrets := quoteSecrets w;
            acceptOrder := acceptOrder w; statuses := statuses w;
            restStatus := restStatus w; ready := rest; rejects := rejects w |})
    | [] => (Ok {| fills := Some [] |}, tick w)
    end;
  sdk_submitSecret := fun _ _ w =>
    match rejects w with
    | r :: rest =>
        (if r then Err (newError "secret rejected") else Ok tt,
         {| now := now w + 1; quoteSecrets := quoteSecrets w;
            acceptOrder := acceptOrder w; statuses := statuses w;
            restStatus := restStatus w; ready := ready w; rejects := rest |})
    | [] => (Ok tt, tick w)
    end;
  clock_now := now;
  setTimeout := fun ms w =>
    {| now := now w + ms; quoteSecrets := quoteSecrets w;
       acceptOrder := acceptOrder w; statuses := statuses w;
       restStatus := restStatus w; ready := ready w; rejects := rejects w |}
|}.

(** An entropy tape: cell [k] holds the byte [k mod 256]. *)
Definition counterTape (k : nat) : Byte.byte :=
  match Byte.of_N (N.of_nat k mod 256) with
  | Some b => b
  | None => Byte.x00
  end.

Definition start (w : scripted) (e : gmap string string) : St :=
  {| world := w; rng := {| tape := counterTape; cursor := 0 |};
     env := e; calls := []; alreadyShared := ∅; attempts := 0 |}.

(** An order that is never executed: it stays "pending" for ever. *)
Definition pendingWorld : scripted :=
  {| now := 0; quoteSecrets := Some 3; acceptOrder := true;
     statuses := []; restStatus := "pending"; ready := []; rejects := [] |}.

(** An order with three fills: index 1 becomes ready first and its first
    submission is rejected; then indices 1 and 0, then 2 and an index with
    no secret; the order is executed afterwards. *)
Definition busyWorld : scripted :=
  {| now := 0; quoteSecrets := Some 3; acceptOrder := true;
     statuses := ["pending"; "pending"; "pending"; "pending"];
     restStatus := "executed";
     ready := [[1]; [1; 0]; [2; 7; 1]; []]; rejects := [true] |}.

Definition serviceEnv : gmap string string :=
  {[ "TEST_PRIVATE_KEY" := "0xkey"; "INCH_API_KEY" := "api-key" ]}.

Definition evmEnv : gmap string string :=
  {[ "PRIVATE_KEY" := "0xkey"; "MAKER_ADDRESS" := "0xmaker";
     "RECEIVER_ADDRESS" := "receiver"; "DEV_PORTAL_API_KEY" := "api-key" ]}.

Definition solEnv : gmap string string :=
  {[ "SOLANA_PRIVATE_KEY" := "key"; "SOLANA_MAKER_ADDRESS" := "maker";
     "ETH_RECEIVER_ADDRESS" := "0xreceiver"; "DEV_PORTAL_API_KEY" := "api-key" ]}.

End Sim.

(** * Specification vocabulary *)

(** ** Secrets and sample inputs *)

(** The bytes of the [i]-th 32-byte draw made from [g]. *)
Definition draw (g : Rng) (i : nat) : list Byte.byte :=
  map (tape g) (seq (cursor g + 32 * i) 32).

(** The secret built from the [i]-th draw. *)
Definition secretOfDraw (g : Rng) (i : nat) : string :=
  "0x" +:+ toHex (draw g i).

Definition isLowerHex (c : ascii) : bool :=
  existsb (Ascii.eqb c) (list_ascii_of_string "0123456789abcdef").

Fixpoint allChars (p : ascii -> bool) (s : string) : bool :=
  match s with
  | EmptyString => true
  | String c rest => p c && allChars p rest
  end.

Definition sampleRequest : FusionService.SwapRequest :=
  {| FusionService.srcChainId := JsNumber 1;
     FusionService.dstChainId := JsNumber 900;
     FusionService.srcTokenAddress := JsString "0xdac17f958d2ee523a2206206994597c13d831ec7";
     FusionService.dstTokenAddress := JsString "Es9vMFrzaCERmJfrF4H2FYD4KCoNkY11McCe8BenwNYB";
     FusionService.amount := JsString "5000000";
     FusionService.walletAddress := JsString "0xmaker";
     FusionService.receiverAddress := JsString "receiver";
     FusionService.preset := JsUndefined |}.

(** An order that has expired: every status poll answers "expired". *)
Definition expiredWorld : Sim.scripted :=
  {| Sim.now := 0; Sim.quoteSecrets := Some 1; Sim.acceptOrder := true;
     Sim.statuses := []; Sim.restStatus := "expired"; Sim.ready := [];
     Sim.rejects := [] |}.

(** The configuration the Solana -> EVM script builds from [Sim.solEnv]. *)
Definition sampleSolConfig : SolToEvm.Config :=
  {| SolToEvm.signerPrivateKey := Some "key"; SolToEvm.maker := Some "maker";
     SolToEvm.receiver := Some "0xreceiver";
     SolToEvm.devPortalApiKey := Some "api-key";
     SolToEvm.solanaRpc := "https://api.mainnet-beta.solana.com";
     SolToEvm.sdkUrl := "https://api.1inch.dev/fusion-plus";
     SolToEvm.usdtEvm := "0xdac17f958d2ee523a2206206994597c13d831ec7";
     SolToEvm.usdtSolana := "Es9vMFrzaCERmJfrF4H2FYD4KCoNkY11McCe8BenwNYB";
     SolToEvm.amount := "5000000";
     SolToEvm.pollInterval := 5000;
     SolToEvm.srcChainId := NetworkEnum_SOLANA;
     SolToEvm.dstChainId := NetworkEnum_ETHEREUM |}.

Definition staysExpired (w : Sim.scripted) : Prop :=
  Sim.statuses w = [] /\ Sim.restStatus w = "expired".

Definition bodyWithoutAmount : FusionRoutes.QuoteBody :=
  {| FusionRoutes.srcChainId := JsNumber 8453;
     FusionRoutes.dstChainId := JsNumber 137;
     FusionRoutes.srcTokenAddress := JsString "0xEeeeeEeeeEeEeeEeEeEeeEEEeeeeEeeeeeeeEEeE";
     FusionRoutes.dstTokenAddress := JsString "0x2791Bca1f2de4661ED88A30C99A7a9449Aa84174";
     FusionRoutes.amount := JsUndefined;
     FusionRoutes.walletAddress := JsString "0x0b07ab58f72d13150Fcd119700aae76d9D161138" |}.

Definition envWithoutMaker : gmap string string :=
  {[ "PRIVATE_KEY" := "0xkey"; "RECEIVER_ADDRESS" := "receiver";
     "DEV_PORTAL_API_KEY" := "api-key" ]}.

(** The value of a lowercase hex digit. *)
Definition hexValue (c : ascii) : N :=
  match c with
  | "0" => 0 | "1" => 1 | "2" => 2 | "3" => 3 | "4" => 4
  | "5" => 5 | "6" => 6 | "7" => 7 | "8" => 8 | "9" => 9
  | "a" => 10 | "b" => 11 | "c" => 12 | "d" => 13 | "e" => 14
  | _ => 15
  end%char%N.

(** Reading a hex text back, two digits per byte. *)
Fixpoint fromHex (s : string) : list (option Byte.byte) :=
  match s with
  | String hi (String lo rest) =>
      Byte.of_N (16 * hexValue hi + hexValue lo) :: fromHex rest
  | _ => []
  end.

(** ** Runs, call logs and endings *)

Section Vocabulary.
Context `{HashLockApi} `{OrderApi} {W : Type} `{!Relayer W}.
Local Abbreviation M := (@M _ _ W).
Local Abbreviation St := (@St _ _ W).

(** [m] keeps the state property [P], however it ends. *)
Definition preserves {A} (P : St -> Prop) (m : M A) : Prop :=
  forall s, P s -> P (snd (m s)).

(** [m] leads from a state with [P] to a state with [Q]. *)
Definition transforms {A} (P Q : St -> Prop) (m : M A) : Prop :=
  forall s, P s -> Q (snd (m s)).

(** A property that only looks at the call log and the shared set. *)
Definition onLog (Q : list Entry -> gset Z -> Prop) : St -> Prop :=
  fun s => Q (calls s) (alreadyShared s).

(** The fill index served by a [submitSecret] entry. *)
Definition submitted (e : Entry) : option Z :=
  match call e with
  | CSubmitSecret _ i _ => Some i
  | _ => None
  end.

(** The fill index of a [submitSecret] entry that returned. *)
Definition accepted (e : Entry) : option Z :=
  if returned e then submitted e else None.

(** A [submitSecret] entry passes [secrets[i]] for the index [i] it serves. *)
Definition carries (secrets : list string) (e : Entry) : Prop :=
  match call e with
  | CSubmitSecret _ i x => x = jsIndex secrets i
  | _ => True
  end.

(** A [submitSecret] entry passes a secret that exists: its index lies
    inside the list and the argument is that element. *)
Definition carriesDefined (secrets : list string) (e : Entry) : Prop :=
  match call e with
  | CSubmitSecret _ i x =>
      0 <= i < Z.of_nat (length secrets) /\
      exists secret, x = Some secret /\ jsIndex secrets i = Some secret
  | _ => True
  end.

(** After an entry that returned for index [i], no later entry serves [i]. *)
Fixpoint revealedOnce (log : list Entry) : Prop :=
  match log with
  | [] => True
  | e :: rest =>
      (forall i, accepted e = Some i ->
                 Forall (fun e' => submitted e' <> Some i) rest) /\
      revealedOnce rest
  end.

(** The invariant of a monitoring run that started with log [base]: the
    entries added since are [good], reveal each index once, and every index
    revealed is in the shared set. *)
Definition revealInv (good : Entry -> Prop) (base log : list Entry)
    (shared : gset Z) : Prop :=
  exists new,
    log = (base ++ new)%list /\
    Forall good new /\
    revealedOnce new /\
    forall e i, e ∈ new -> accepted e = Some i -> i ∈ shared.

(** Only entries that are not [submitSecret] calls were added to [base]. *)
Definition quietSince (base log : list Entry) (shared : gset Z) : Prop :=
  exists new, log = (base ++ new)%list /\ Forall (fun e => submitted e = None) new.

(** What a monitoring run adds to the call log. *)
Definition runAdds (P : list Entry -> Prop) (s s' : St) : Prop :=
  exists new, calls s' = (calls s ++ new)%list /\ P new.

(** The reveal discipline, spelled out on the entries a run added: every
    [submitSecret] call passes [secrets[i]] for the fill index [i] it
    serves, and after a call for index [i] that returned, no later call
    serves [i]. *)
Definition revealsEachOnce (secrets : list string) (new : list Entry) : Prop :=
  (forall h i x b,
     {| call := CSubmitSecret h i x; returned := b |} ∈ new ->
     x = jsIndex secrets i) /\
  (forall (j k : nat) h i x h' x' b,
     (j < k)%nat ->
     new !! j = Some {| call := CSubmitSecret h i x; returned := true |} ->
     new !! k <> Some {| call := CSubmitSecret h' i x'; returned := b |}).

(** [m] ends by returning or throwing, and relates its start and end states
    by [I]. *)
Definition safe {A} (I : St -> St -> Prop) (m : M A) : Prop :=
  forall s,
    match m s with
    | (Ret _, s') | (Throw _, s') => I s s'
    | _ => False
    end.

(** [m] ends by returning, and relates its start and end states by [I]. *)
Definition steady {A} (I : St -> St -> Prop) (m : M A) : Prop :=
  forall s, exists a s', m s = (Ret a, s') /\ I s s'.

Class StatePreorder (I : St -> St -> Prop) : Prop := {
  sp_refl : forall s, I s s;
  sp_trans : forall s1 s2 s3, I s1 s2 -> I s2 s3 -> I s1 s3
}.

(** The clock did not go back and [process.env] is unchanged. *)
Definition later (s s' : St) : Prop :=
  clock_now (world s) <= clock_now (world s') /\ env s' = env s.

(** The number of five-second waits that fit before the deadline. *)
Definition waitsLeft (startTime : Z) (s : St) : nat :=
  Z.to_nat ((startTime + FusionService.maxWaitTime - clock_now (world s) + 4999) / 5000).

(** No constraint between start and end state. *)
Definition anyState (s s' : St) : Prop := True.

(** The entry of a [submitOrder] call that returned. *)
Definition orderAccepted (e : Entry) : bool :=
  match call e with
  | CSubmitOrder _ _ _ _ => returned e
  | _ => false
  end.

(** The secret hashes passed by an order submission ([submitOrder] or
    [announceOrder]). *)
Definition orderHashes (e : Entry) : option (list SecretHash) :=
  match call e with
  | CSubmitOrder _ _ _ hs | CAnnounceOrder _ _ hs => Some hs
  | _ => None
  end.



(** The attempt counter is unchanged. *)
Definition sameAttempts (s s' : St) : Prop := attempts s' = attempts s.

(** The world keeps a property [J] through every operation of the loop. *)
Definition worldKeeps (J : W -> Prop) : Prop :=
  (forall h w, J w -> J (snd (sdk_getOrderStatus h w))) /\
  (forall h w, J w -> J (snd (sdk_getReadyToAcceptSecretFills h w))) /\
  (forall h x w, J w -> J (snd (sdk_submitSecret h x w))) /\
  (forall ms w, J w -> J (setTimeout ms w)).

(** In worlds with [J] the order is never reported as executed. *)
Definition neverExecuted (J : W -> Prop) : Prop :=
  forall h w st,
    J w -> fst (sdk_getOrderStatus h w) = Ok st ->
    String.eqb (status st) "executed" = false.

Definition keeps (J : W -> Prop) (s s' : St) : Prop :=
  J (world s) -> J (world s').

(** One of the six required fields of a quote request is falsy. *)
Definition quoteBodyIncomplete (b : FusionRoutes.QuoteBody) : bool :=
  existsb (fun v => negb (truthy v))
    [FusionRoutes.srcChainId b; FusionRoutes.dstChainId b;
     FusionRoutes.srcTokenAddress b; FusionRoutes.dstTokenAddress b;
     FusionRoutes.amount b; FusionRoutes.walletAddress b].

(** One of the seven required fields of a swap request is falsy. *)
Definition swapBodyIncomplete (b : FusionService.SwapRequest) : bool :=
  existsb (fun v => negb (truthy v))
    [FusionService.srcChainId b; FusionService.dstChainId b;
     FusionService.srcTokenAddress b; FusionService.dstTokenAddress b;
     FusionService.amount b; FusionService.walletAddress b;
     FusionService.receiverAddress b].

(** The swap request with its [preset] field replaced. *)
Definition withPreset (p : JsValue) (b : FusionService.SwapRequest)
  : FusionService.SwapRequest :=
  {| FusionService.srcChainId := FusionService.srcChainId b;
     FusionService.dstChainId := FusionService.dstChainId b;
     FusionService.srcTokenAddress := FusionService.srcTokenAddress b;
     FusionService.dstTokenAddress := FusionService.dstTokenAddress b;
     FusionService.amount := FusionService.amount b;
     FusionService.walletAddress := FusionService.walletAddress b;
     FusionService.receiverAddress := FusionService.receiverAddress b;
     FusionService.preset := p |}.

(** The quote parameters a complete quote body is forwarded as. *)
Definition forwardedQuote (b : FusionRoutes.QuoteBody) : QuoteParams :=
  {| qp_amount := FusionRoutes.amount b;
     qp_srcChainId := FusionRoutes.srcChainId b;
     qp_dstChainId := FusionRoutes.dstChainId b;
     qp_srcTokenAddress := FusionRoutes.srcTokenAddress b;
     qp_dstTokenAddress := FusionRoutes.dstTokenAddress b;
     qp_enableEstimate := true;
     qp_walletAddress := FusionRoutes.walletAddress b |}.

(** How a run may end: [thr] allows an uncaught exception, [ex] allows
    [process.exit] -- with code 1 only --, [fu] allows the run to go on
    beyond the loop budget. *)
Definition endsAs {A} (thr ex fu : bool) (r : Res A) : Prop :=
  match r with
  | Ret _ => True
  | Throw _ => thr = true
  | Exit c => ex = true /\ c = 1
  | OutOfFuel => fu = true
  end.

Definition ends {A} (thr ex fu : bool) (m : M A) : Prop :=
  forall s, endsAs thr ex fu (fst (m s)).

(** The number of log entries whose call satisfies [p]. *)
Definition countCalls (p : Call -> bool) (log : list Entry) : nat :=
  length (List.filter (fun e => p (call e)) log).

Definition isStatusPoll (c : Call) : bool :=
  match c with
  | CGetOrderStatus _ => true
  | _ => false
  end.

Definition isReadyPoll (c : Call) : bool :=
  match c with
  | CGetReadyToAcceptSecretFills _ _ => true
  | _ => false
  end.

(** The attempt counter is unchanged and no poll was logged. *)
Definition noPolls (s s' : St) : Prop :=
  attempts s' = attempts s /\
  exists extra, calls s' = (calls s ++ extra)%list /\
                countCalls isStatusPoll extra = 0%nat /\
                countCalls isReadyPoll extra = 0%nat.

(** Both relations hold between start and end state. *)
Definition both (I J : St -> St -> Prop) (s s' : St) : Prop := I s s' /\ J s s'.

(** What [SolToEvm.createAndSubmitOrder] may add to the call log, with the
    way it then ends: nothing (and it throws), a refused announcement (and
    it throws), or an accepted announcement followed by the transaction of
    the same order (and it returns exactly when the transaction was sent). *)
Definition announceThenSend {A} (new : list Entry) (r : Res A) : Prop :=
  (new = [] /\ exists e, r = Throw e) \/
  (exists order qid hs,
     new = [{| call := CAnnounceOrder order qid hs; returned := false |}] /\
     exists e, r = Throw e) \/
  (exists order qid hs b,
     new = [{| call := CAnnounceOrder order qid hs; returned := true |};
            {| call := CSendTransaction order; returned := b |}] /\
     if b then exists a, r = Ret a else exists e, r = Throw e).

(** *** Reported fills and reveals *)

(** The [submitSecret] entry for index [i]: it carries [secrets[i]]. *)
Definition revealOf (orderHash : string) (secrets : list string) (i : Z)
    (ok : bool) : Entry :=
  {| call := CSubmitSecret orderHash i (jsIndex secrets i); returned := ok |}.

(** An entry that is neither a [submitSecret] call nor a poll of the ready
    fills. *)
Definition plainEntry (e : Entry) : Prop :=
  submitted e = None /\ isReadyPoll (call e) = false.

(** What serving the fill [i] does between [s] and [s']: nothing, or one
    reveal for [i]; the index enters the shared set exactly when that
    reveal returned; a [wanted] fill is in the shared set afterwards, or its
    reveal threw. *)
Definition servesOne (orderHash : string) (secrets : list string)
    (wanted : Z -> Prop) (i : Z) (s s' : St) : Prop :=
  exists subs,
    calls s' = (calls s ++ subs)%list /\
    (subs = [] \/ exists ok, subs = [revealOf orderHash secrets i ok]) /\
    alreadyShared s ⊆ alreadyShared s' /\
    (forall j, j ∈ alreadyShared s' ->
       j ∈ alreadyShared s \/ revealOf orderHash secrets j true ∈ subs) /\
    (wanted i ->
       i ∈ alreadyShared s' \/ revealOf orderHash secrets i false ∈ subs).

(** The same for a loop over the fills [R]. *)
Definition servesEach (orderHash : string) (secrets : list string)
    (wanted : Z -> Prop) (R : list Z) (s s' : St) : Prop :=
  exists subs,
    calls s' = (calls s ++ subs)%list /\
    Forall (fun e => exists i ok, i ∈ R /\ e = revealOf orderHash secrets i ok) subs /\
    alreadyShared s ⊆ alreadyShared s' /\
    (forall j, j ∈ alreadyShared s' ->
       j ∈ alreadyShared s \/ revealOf orderHash secrets j true ∈ subs) /\
    (forall i, i ∈ R -> wanted i ->
       i ∈ alreadyShared s' \/ revealOf orderHash secrets i false ∈ subs).

(** What one pass of a monitoring loop adds to the log, between the shared
    sets [shared] before and [shared'] after it: plain entries, then at most
    one poll of the ready fills, then reveals, each for an index that poll
    reported.  An index enters the shared set only with a reveal that
    returned; every reported index that is [wanted] is in the shared set
    after the pass, or a reveal for it was made in the pass and threw. *)
Definition passShape (orderHash : string) (secrets : list string)
    (wanted : Z -> Prop) (shared : gset Z) (p : list Entry) (shared' : gset Z)
  : Prop :=
  exists pre rd subs,
    p = (pre ++ rd ++ subs)%list /\
    Forall plainEntry pre /\
    shared ⊆ shared' /\
    (forall i, i ∈ shared' -> i ∈ shared \/ revealOf orderHash secrets i true ∈ subs) /\
    ((rd = [] /\ subs = []) \/
     exists R ok,
       rd = [{| call := CGetReadyToAcceptSecretFills orderHash R; returned := ok |}] /\
       (ok = false -> R = []) /\
       Forall (fun e => exists i ok', i ∈ R /\ e = revealOf orderHash secrets i ok') subs /\
       forall i, i ∈ R -> wanted i ->
         i ∈ shared' \/ revealOf orderHash secrets i false ∈ subs).

(** A run of passes. *)
Inductive passes (orderHash : string) (secrets : list string)
    (wanted : Z -> Prop) : gset Z -> list Entry -> gset Z -> Prop :=
| passes_done shared : passes orderHash secrets wanted shared [] shared
| passes_more shared p shared1 rest shared2 :
    passShape orderHash secrets wanted shared p shared1 ->
    passes orderHash secrets wanted shared1 rest shared2 ->
    passes orderHash secrets wanted shared (p ++ rest) shared2.

(** Every [submitSecret] call serves a fill that is reported ready: the
    latest poll of the ready fills before the call returned, for the same
    order, a list that holds the index served, and only [submitSecret]
    calls lie between that poll and the call. *)
Definition servesReported (new : list Entry) : Prop :=
  forall (k : nat) h i x ok,
    new !! k = Some {| call := CSubmitSecret h i x; returned := ok |} ->
    exists (j : nat) R,
      (j < k)%nat /\
      new !! j = Some {| call := CGetReadyToAcceptSecretFills h R; returned := true |} /\
      i ∈ R /\
      forall m : nat, (j < m < k)%nat ->
        exists e i', new !! m = Some e /\ submitted e = Some i'.

(** Every fill a poll reported ready is served: its secret was accepted by
    some [submitSecret] call of the run, or a [submitSecret] call for it
    was made after that poll and threw (the fill is then tried again when
    it is next reported). *)
Definition servesAllReported (orderHash : string) (secrets : list string)
    (wanted : Z -> Prop) (new : list Entry) : Prop :=
  forall (j : nat) h R,
    new !! j = Some {| call := CGetReadyToAcceptSecretFills h R; returned := true |} ->
    h = orderHash /\
    forall i, i ∈ R -> wanted i ->
      (exists k : nat, new !! k = Some (revealOf orderHash secrets i true)) \/
      (exists k : nat, (j < k)%nat /\
                       new !! k = Some (revealOf orderHash secrets i false)).

(** The fills the service reveals a secret for: those whose secret exists
    and is not the empty string. *)
Definition hasSecret (secrets : list string) (i : Z) : Prop :=
  truthyStr (jsIndex secrets i) = true.

(** *** Order submission *)

(** The steps of [executeSwap] before the order goes out all succeed from
    state [s]: the quote comes back with presets, both signer keys are set
    and the signer is connected (leaving the world [w2]), the recommended
    preset is found, the secrets are drawn (leaving the entropy source
    [g1]), and hash-lock, receiver and order are built. *)
Definition swapPrepared (params : FusionService.SwapRequest) (s : St)
    (quote : Quote) (w2 : W) (presetData : Preset) (secrets : list string)
    (g1 : Rng) (order : Order) : Prop :=
  exists w1 keys hashLock receiver,
    sdk_getQuote (FusionService.quoteParams params) (world s) = (Ok quote, w1) /\
    presets quote = Some keys /\
    truthyStr (env s !! "TEST_PRIVATE_KEY") = true /\
    truthyStr (env s !! "INCH_API_KEY") = true /\
    sdk_connect (FusionService.orDefault (JsNumber 1) (FusionService.srcChainId params)) w1
    = (Ok tt, w2) /\
    getPreset quote (recommendedPreset quote) = Ok presetData /\
    FusionService.inlineSecrets (secretsCount presetData) (rng s) = (Ok secrets, g1) /\
    FusionService.inlineHashLock secrets = Ok hashLock /\
    (if FusionService.isSolana (FusionService.dstChainId params)
     then SolanaAddress_fromString (FusionService.receiverAddress params)
     else EvmAddress_fromString (FusionService.receiverAddress params)) = Ok receiver /\
    createEvmOrder quote {| op_hashLock := hashLock; op_receiver := receiver;
                            op_preset := recommendedPreset quote |} = Ok order.

(** The state in which [executeSwap] then submits the order: the quote and
    the connection are in the log. *)
Definition readyToSubmit (params : FusionService.SwapRequest) (s : St) (w2 : W)
    (g1 : Rng) : St :=
  {| world := w2; rng := g1; env := env s;
     calls := calls s ++
       [{| call := CGetQuote (FusionService.quoteParams params); returned := true |};
        {| call := CConnect (FusionService.orDefault (JsNumber 1)
                               (FusionService.srcChainId params));
           returned := true |}];
     alreadyShared := alreadyShared s; attempts := attempts s |}.

(** The log entry of the [submitOrder] call of [executeSwap]. *)
Definition swapSubmission (params : FusionService.SwapRequest) (quote : Quote)
    (secrets : list string) (order : Order) (ok : bool) : Entry :=
  {| call := CSubmitOrder (FusionService.srcChainId params) order (quoteId quote)
                          (map hashSecret secrets);
     returned := ok |}.


(** The same for the Solana -> EVM script. *)
Definition solOrderPrepared (cfg : SolToEvm.Config) (quote : Quote) (s : St)
    (secrets : list string) (g1 : Rng) (order : Order) : Prop :=
  exists preset hashLock receiver,
    getPreset quote (recommendedPreset quote) = Ok preset /\
    SolToEvm.generateSecrets (secretsCount preset) (rng s) = (Ok secrets, g1) /\
    SolToEvm.createHashLock secrets = Ok hashLock /\
    EvmAddress_fromString (ofOptStr (SolToEvm.receiver cfg)) = Ok receiver /\
    createSolanaOrder quote {| op_hashLock := hashLock; op_receiver := receiver;
                               op_preset := recommendedPreset quote |} = Ok order.

End Vocabulary.

(** * Properties *)

(** ** Secret generation *)

Lemma hexDigit_lower (n : N) : isLowerHex (hexDigit n) = true.
Proof.
  destruct n as [|p]; [reflexivity|].
  unfold hexDigit.
  repeat first [reflexivity | destruct p as [p|p|]].
Qed.

Lemma toHex_lower (bs : list Byte.byte) : allChars isLowerHex (toHex bs) = true.
Proof.
  induction bs as [|b bs IH]; [reflexivity|].
  cbn [toHex allChars]. rewrite !hexDigit_lower, IH. reflexivity.
Qed.


Lemma includes_0x_lower (s : string) :
  allChars isLowerHex s = true -> includes "0x" s = false.
Proof.
  induction s as [|c s IH]; [reflexivity|].
  cbn [allChars]. intros [Hc Hs]%andb_prop.
  cbn [includes]. rewrite (IH Hs), orb_false_r.
  destruct s as [|d s]; cbn -[ascii_dec].
  - destruct (ascii_dec "0" c); reflexivity.
  - destruct (ascii_dec "0" c); [|reflexivity].
    destruct (ascii_dec "x" d) as [<-|]; [|reflexivity].
    cbn in Hs. discriminate.
Qed.

Lemma add0x_toHex (bs : list Byte.byte) : add0x (toHex bs) = "0x" +:+ toHex bs.
Proof. unfold add0x. rewrite includes_0x_lower; [reflexivity|apply toHex_lower]. Qed.

Lemma generateSecret_draw (g : Rng) :
  SecretManager.generateSecret g =
  (secretOfDraw g 0, {| tape := tape g; cursor := (cursor g + 32)%nat |}).
Proof.
  unfold SecretManager.generateSecret, randomBytes, secretOfDraw, draw.
  rewrite add0x_toHex. repeat f_equal. lia.
Qed.

Lemma mapRng_repeat (n : nat) (g : Rng) :
  mapRng (fun _ : unit => SecretManager.generateSecret) (repeat tt n) g =
  (map (secretOfDraw g) (seq 0 n),
   {| tape := tape g; cursor := (cursor g + 32 * n)%nat |}).
Proof.
  revert g. induction n as [|n IH]; intros g.
  - cbn. destruct g as [t c]. cbn. repeat f_equal. lia.
  - cbn [repeat mapRng]. rewrite generateSecret_draw, IH. cbn [tape cursor].
    f_equal.
    + cbn [seq map]. f_equal. rewrite <- seq_shift, map_map.
      apply map_ext. intros i. unfold secretOfDraw, draw. cbn [tape cursor].
      replace (cursor g + 32 + 32 * i)%nat with (cursor g + 32 * S i)%nat by lia.
      reflexivity.
    + f_equal. lia.
Qed.


(** The three copies of the generator in the sources are the same function. *)
Lemma generateSecrets_copies (count : Z) (g : Rng) :
  EvmToSol.generateSecrets count g = SecretManager.generateSecrets count g /\
  SolToEvm.generateSecrets count g = SecretManager.generateSecrets count g /\
  FusionService.inlineSecrets count g = SecretManager.generateSecrets count g.
Proof. repeat split; reflexivity. Qed.

(** Up to the largest array length the generator returns, with one secret
    per draw. *)
Lemma generateSecrets_returns (count : Z) (g : Rng) :
  count <= maxArrayLength ->
  SecretManager.generateSecrets count g =
  (Ok (map (secretOfDraw g) (seq 0 (Z.to_nat count))),
   {| tape := tape g; cursor := (cursor g + 32 * Z.to_nat count)%nat |}).
Proof.
  intros Hmax. unfold SecretManager.generateSecrets, drawEach, arrayFromLength.
  destruct (Z.leb_spec count maxArrayLength); [|lia].
  rewrite mapRng_repeat. reflexivity.
Qed.

(** Beyond it [Array.from] throws, and nothing is drawn. *)
Lemma generateSecrets_throws (count : Z) (g : Rng) :
  maxArrayLength < count ->
  SecretManager.generateSecrets count g = (Err (newError "Invalid array length"), g).
Proof.
  intros Hmax. unfold SecretManager.generateSecrets, drawEach, arrayFromLength.
  destruct (Z.leb_spec count maxArrayLength); [lia|reflexivity].
Qed.




Example generateSecrets_run :
  fst (SecretManager.generateSecrets 2 {| tape := Sim.counterTape; cursor := 0 |}) =
  Ok ["0x000102030405060708090a0b0c0d0e0f101112131415161718191a1b1c1d1e1f";
      "0x202122232425262728292a2b2c2d2e2f303132333435363738393a3b3c3d3e3f"].
Proof. vm_compute. reflexivity. Qed.

(** ** Hash-lock selection *)

(** The term model refuses what the SDK refuses. *)
#[global] Instance symbolic_laws : HashLockLaws (H := Symbolic.api).
Proof.
  split.
  - intros leaves Hlen. cbn in *. destruct (_ <=? _)%nat eqn:Hleb; [eauto|].
    apply Nat.leb_gt in Hleb. lia.
  - cbn. eauto.
  - intros secrets leaves [= <-]. by rewrite length_map, length_seq.
Qed.

Section HashLockProps.
Context `{HashLockApi}.

Lemma createHashLock_copies (secrets : list string) :
  EvmToSol.createHashLock secrets = SecretManager.createHashLock secrets /\
  SolToEvm.createHashLock secrets = SecretManager.createHashLock secrets.
Proof. split; reflexivity. Qed.

Lemma createHashLock_many (secrets : list string) :
  (1 < length secrets)%nat ->
  SecretManager.createHashLock secrets = andThen (getMerkleLeaves secrets) forMultipleFills /\
  FusionService.inlineHashLock secrets = andThen (getMerkleLeaves secrets) forMultipleFills.
Proof.
  intros Hn. unfold SecretManager.createHashLock, FusionService.inlineHashLock.
  destruct (Z.ltb_spec 1 (Z.of_nat (length secrets))); [|lia].
  destruct (Z.eqb_spec (Z.of_nat (length secrets)) 1); [lia|].
  split; reflexivity.
Qed.


(** With two secrets both constructions throw: the SDK refuses two leaves. *)
Lemma createHashLock_two `{!HashLockLaws} (secrets : list string) :
  length secrets = 2%nat ->
  (exists e, SecretManager.createHashLock secrets = Err e) /\
  (exists e, FusionService.inlineHashLock secrets = Err e).
Proof.
  intros Hn.
  destruct (createHashLock_many secrets) as [-> ->]; [lia|].
  assert (Hthrows : exists e, andThen (getMerkleLeaves secrets) forMultipleFills = Err e).
  { destruct (getMerkleLeaves secrets) as [leaves|e] eqn:Hleaves; cbn; [|eauto].
    apply multipleFills_refuses. rewrite (merkleLeaves_length _ _ Hleaves). lia. }
  split; exact Hthrows.
Qed.



(** On the empty list the two constructions take different branches:
    [createHashLock] asks for a single-fill lock of an undefined secret, the
    expression in [executeSwap] for a multiple-fill lock of no leaves. *)
Lemma hashLock_constructions_empty :
  SecretManager.createHashLock []
  = andThen (getMerkleLeaves []) (fun _ => forSingleFill None) /\
  FusionService.inlineHashLock [] = andThen (getMerkleLeaves []) forMultipleFills.
Proof. split; reflexivity. Qed.

End HashLockProps.





(** ** Reasoning about runs *)

Section Logic.
Context `{HashLockApi} `{OrderApi} {W : Type} `{!Relayer W}.
Local Abbreviation M := (@M _ _ W).
Local Abbreviation St := (@St _ _ W).

Lemma preserves_ret {A} (P : St -> Prop) (a : A) : preserves P (ret a).
Proof. intros s Hs. exact Hs. Qed.

Lemma preserves_throw {A} (P : St -> Prop) e : preserves P (throw (A := A) e).
Proof. intros s Hs. exact Hs. Qed.

Lemma preserves_processExit {A} (P : St -> Prop) c : preserves P (processExit (A := A) c).
Proof. intros s Hs. exact Hs. Qed.

Lemma preserves_outOfFuel {A} (P : St -> Prop) : preserves P (outOfFuel (A := A)).
Proof. intros s Hs. exact Hs. Qed.

Lemma preserves_bind {A B} (P : St -> Prop) (m : M A) (k : A -> M B) :
  preserves P m -> (forall a, preserves P (k a)) -> preserves P (bind m k).
Proof.
  intros Hm Hk s Hs. unfold bind. specialize (Hm s Hs).
  destruct (m s) as [[a|e|c|] s1]; cbn in *; try exact Hm.
  apply Hk, Hm.
Qed.

Lemma preserves_tryCatch {A} (P : St -> Prop) (m : M A) (h : Thrown -> M A) :
  preserves P m -> (forall e, preserves P (h e)) -> preserves P (tryCatch m h).
Proof.
  intros Hm Hh s Hs. unfold tryCatch. specialize (Hm s Hs).
  destruct (m s) as [[a|e|c|] s1]; cbn in *; try exact Hm.
  apply Hh, Hm.
Qed.

Lemma preserves_ofOutcome {A} (P : St -> Prop) (o : Outcome A) : preserves P (ofOutcome o).
Proof. destruct o; intros s Hs; exact Hs. Qed.

Lemma preserves_forOf {A} (P : St -> Prop) (xs : list A) (body : A -> M unit) :
  (forall x, preserves P (body x)) -> preserves P (forOf xs body).
Proof.
  intros Hb. induction xs as [|x xs IH]; cbn [forOf].
  - apply preserves_ret.
  - apply preserves_bind; [apply Hb|]. intros _. exact IH.
Qed.

Lemma transforms_bind {A B} (P R Q : St -> Prop) (m : M A) (k : A -> M B) :
  transforms P R m -> (forall s, R s -> Q s) ->
  (forall a, transforms R Q (k a)) -> transforms P Q (bind m k).
Proof.
  intros Hm HRQ Hk s Hs. unfold bind. specialize (Hm s Hs).
  destruct (m s) as [[a|e|c|] s1]; cbn in *; try (apply HRQ, Hm).
  apply Hk, Hm.
Qed.

Lemma transforms_tryCatch {A} (P Q : St -> Prop) (m : M A) (h : Thrown -> M A) :
  transforms P Q m -> (forall e, preserves Q (h e)) -> transforms P Q (tryCatch m h).
Proof.
  intros Hm Hh s Hs. unfold tryCatch. specialize (Hm s Hs).
  destruct (m s) as [[a|e|c|] s1]; cbn in *; try exact Hm.
  apply Hh, Hm.
Qed.

Lemma preserves_callSdk {A} (Q : list Entry -> gset Z -> Prop) c
    (op : W -> Outcome A * W) :
  (forall log sh b, Q log sh -> Q (log ++ [{| call := c; returned := b |}])%list sh) ->
  preserves (W := W) (onLog Q) (callSdk c op).
Proof.
  intros HQ s Hs. unfold callSdk.
  destruct (op (world s)) as [[a|e] w']; cbn; apply HQ, Hs.
Qed.

Lemma preserves_sleep (Q : list Entry -> gset Z -> Prop) ms : preserves (W := W) (onLog Q) (sleep ms).
Proof. intros s Hs. exact Hs. Qed.

Lemma preserves_dateNow (Q : list Entry -> gset Z -> Prop) : preserves (W := W) (onLog Q) dateNow.
Proof. intros s Hs. exact Hs. Qed.

Lemma preserves_getEnv (Q : list Entry -> gset Z -> Prop) k : preserves (W := W) (onLog Q) (getEnv k).
Proof. intros s Hs. exact Hs. Qed.

Lemma preserves_getShared (Q : list Entry -> gset Z -> Prop) : preserves (W := W) (onLog Q) getShared.
Proof. intros s Hs. exact Hs. Qed.

Lemma preserves_getAttempts (Q : list Entry -> gset Z -> Prop) : preserves (W := W) (onLog Q) getAttempts.
Proof. intros s Hs. exact Hs. Qed.

Lemma preserves_putAttempts (Q : list Entry -> gset Z -> Prop) n : preserves (W := W) (onLog Q) (putAttempts n).
Proof. intros s Hs. exact Hs. Qed.

Lemma preserves_withRng {A} (Q : list Entry -> gset Z -> Prop)
    (f : Rng -> Outcome A * Rng) : preserves (W := W) (onLog Q) (withRng f).
Proof. intros s Hs. unfold withRng. destruct (f (rng s)) as [[a|e] g]; exact Hs. Qed.

Lemma preserves_getReady (Q : list Entry -> gset Z -> Prop) orderHash :
  (forall log sh R b,
     Q log sh ->
     Q (log ++ [{| call := CGetReadyToAcceptSecretFills orderHash R;
                   returned := b |}])%list sh) ->
  preserves (W := W) (onLog Q) (getReadyToAcceptSecretFills orderHash).
Proof.
  intros HQ s Hs. unfold getReadyToAcceptSecretFills.
  destruct (sdk_getReadyToAcceptSecretFills orderHash (world s)) as [[a|e] w'];
    cbn; apply HQ, Hs.
Qed.

End Logic.

(** ** The secret-reveal discipline on call logs *)

Section LogVocabulary.
Context `{HashLockApi} `{OrderApi}.

Lemma revealedOnce_snoc (log : list Entry) (e : Entry) :
  revealedOnce log ->
  (forall i, submitted e = Some i ->
             Forall (fun e' => accepted e' <> Some i) log) ->
  revealedOnce (log ++ [e]).
Proof.
  induction log as [|e0 log IH]; intros Hlog He; cbn.
  - split; [intros; constructor|exact I].
  - destruct Hlog as [H0' Hrest]. split.
    + intros i Hi. apply Forall_app. split; [exact (H0' i Hi)|].
      constructor; [|constructor].
      intros Hsub. specialize (He i Hsub).
      apply Forall_cons in He as [He _]. congruence.
    + apply IH; [exact Hrest|].
      intros i Hi. specialize (He i Hi). by apply Forall_cons in He as [_ He].
Qed.

Lemma revealInv_quiet good base log shared e :
  good e -> submitted e = None ->
  revealInv good base log shared ->
  revealInv good base (log ++ [e]) shared.
Proof.
  intros Hg Hq (new & -> & Hgood & Honce & Hsh).
  exists (new ++ [e])%list. split; [by rewrite app_assoc|].
  split; [apply Forall_app; split; [done|by constructor]|].
  split.
  - apply revealedOnce_snoc; [done|]. intros i Hi. congruence.
  - intros e' i [Hin| ->%list_elem_of_singleton]%elem_of_app Hacc.
    + eauto.
    + unfold accepted in Hacc. rewrite Hq in Hacc. by destruct (returned e).
Qed.

Lemma revealInv_submit good base log shared h i x b :
  good {| call := CSubmitSecret h i x; returned := b |} ->
  i ∉ shared ->
  revealInv good base log shared ->
  revealInv good base (log ++ [{| call := CSubmitSecret h i x; returned := b |}])
            (if b then {[i]} ∪ shared else shared).
Proof.
  intros Hg Hni (new & -> & Hgood & Honce & Hsh).
  exists (new ++ [{| call := CSubmitSecret h i x; returned := b |}])%list.
  split; [by rewrite app_assoc|].
  split; [apply Forall_app; split; [done|by constructor]|].
  split.
  - apply revealedOnce_snoc; [done|]. cbn. intros j [= <-].
    apply Forall_forall. intros e' Hin Hacc. apply Hni. eauto.
  - intros e' j [Hin| ->%list_elem_of_singleton]%elem_of_app Hacc.
    + specialize (Hsh e' j Hin Hacc). destruct b; set_solver.
    + unfold accepted in Hacc. cbn in Hacc. destruct b; [|done].
      injection Hacc as <-. set_solver.
Qed.

Lemma quietSince_snoc base log shared e :
  submitted e = None ->
  quietSince base log shared -> quietSince base (log ++ [e]) shared.
Proof.
  intros Hq (new & -> & Hnew). exists (new ++ [e])%list.
  split; [by rewrite app_assoc|]. apply Forall_app. split; [done|by constructor].
Qed.

Lemma quietSince_refl log shared : quietSince log log shared.
Proof. exists []. split; [by rewrite app_nil_r|constructor]. Qed.

Lemma quiet_revealedOnce (new : list Entry) :
  Forall (fun e => submitted e = None) new -> revealedOnce new.
Proof.
  induction 1 as [|e new He Hnew IH]; cbn; [exact I|]. split; [|exact IH].
  intros i Hi. unfold accepted in Hi. rewrite He in Hi. by destruct (returned e).
Qed.

(** A quiet prefix starts the invariant, whatever the shared set is. *)
Lemma quietSince_revealInv (good : Entry -> Prop) base log shared shared' :
  (forall e, submitted e = None -> good e) ->
  quietSince base log shared -> revealInv good base log shared'.
Proof.
  intros Hgood (new & -> & Hnew). exists new. split; [done|].
  split; [eapply Forall_impl; eauto|].
  split; [by apply quiet_revealedOnce|].
  intros e i Hin Hacc. rewrite Forall_forall in Hnew.
  unfold accepted in Hacc. rewrite (Hnew e Hin) in Hacc. by destruct (returned e).
Qed.

Lemma carries_quiet secrets e : submitted e = None -> carries secrets e.
Proof. unfold submitted, carries. by destruct (call e). Qed.

Lemma carriesDefined_quiet secrets e : submitted e = None -> carriesDefined secrets e.
Proof. unfold submitted, carriesDefined. by destruct (call e). Qed.

Lemma carriesDefined_carries secrets e : carriesDefined secrets e -> carries secrets e.
Proof.
  unfold carriesDefined, carries. destruct (call e); try done.
  intros (_ & sec & -> & ->). done.
Qed.

Lemma jsIndex_Some_range {A} (arr : list A) (i : Z) (a : A) :
  jsIndex arr i = Some a -> 0 <= i < Z.of_nat (length arr).
Proof.
  unfold jsIndex. destruct (Z.ltb_spec i 0); [done|].
  intros Hl%lookup_lt_Some. lia.
Qed.

End LogVocabulary.

(** ** The monitoring loops keep the reveal invariant *)

Section MonitorInvariants.
Context `{HashLockApi} `{OrderApi} {W : Type} `{!Relayer W}.
Local Abbreviation M := (@M _ _ W).
Local Abbreviation St := (@St _ _ W).

Lemma preserves_quiet_call {A} (good : Entry -> Prop) base c
    (op : W -> Outcome A * W) :
  (forall e, submitted e = None -> good e) ->
  (forall b, submitted {| call := c; returned := b |} = None) ->
  preserves (onLog (revealInv good base)) (callSdk c op).
Proof.
  intros Hgood Hc. apply preserves_callSdk. intros log sh b Hinv.
  apply revealInv_quiet; auto.
Qed.

Lemma preserves_quietSince_call {A} base c (op : W -> Outcome A * W) :
  (forall b, submitted {| call := c; returned := b |} = None) ->
  preserves (onLog (quietSince base)) (callSdk c op).
Proof.
  intros Hc. apply preserves_callSdk. intros log sh b Hq.
  apply quietSince_snoc; auto.
Qed.

Lemma preserves_quiet_ready (good : Entry -> Prop) base orderHash :
  (forall e, submitted e = None -> good e) ->
  preserves (onLog (revealInv good base)) (getReadyToAcceptSecretFills orderHash).
Proof.
  intros Hgood. apply preserves_getReady. intros log sh R b Hinv.
  apply revealInv_quiet; auto.
Qed.

Lemma preserves_quietSince_ready base orderHash :
  preserves (onLog (quietSince base)) (getReadyToAcceptSecretFills orderHash).
Proof.
  apply preserves_getReady. intros log sh R b Hq. apply quietSince_snoc; auto.
Qed.

Lemma shareSecret_inv base orderHash secrets i :
  preserves (onLog (revealInv (carries secrets) base))
            (EvmToSol.shareSecret orderHash secrets i).
Proof.
  intros s Hs. unfold EvmToSol.shareSecret, bind, getShared. cbn.
  destruct (decide (i ∈ alreadyShared s)) as [|Hni]; [exact Hs|].
  unfold tryCatch, bind, submitSecret, callSdk, addShared.
  destruct (sdk_submitSecret orderHash (jsIndex secrets i) (world s))
    as [[[]|e] w']; cbn; unfold onLog; cbn.
  - apply (revealInv_submit _ _ _ _ _ _ _ true); [reflexivity|done|exact Hs].
  - apply (revealInv_submit _ _ _ _ _ _ _ false); [reflexivity|done|exact Hs].
Qed.

Lemma submitFill_inv base orderHash secrets fill :
  preserves (onLog (revealInv (carriesDefined secrets) base))
            (FusionService.submitFill orderHash secrets fill).
Proof.
  intros s Hs. unfold FusionService.submitFill, bind, getShared. cbn.
  destruct (bool_decide_reflect (idx fill ∈ alreadyShared s)) as [|Hni];
    cbn; [exact Hs|].
  destruct (jsIndex secrets (idx fill)) as [secret|] eqn:Hsec; cbn; [|exact Hs].
  destruct (String.eqb secret ""); cbn; [exact Hs|].
  unfold tryCatch, bind, submitSecret, callSdk, addShared.
  assert (Hgood : forall b, carriesDefined secrets
            {| call := CSubmitSecret orderHash (idx fill) (Some secret);
               returned := b |}).
  { intros b. split; [by eapply jsIndex_Some_range|]. eauto. }
  destruct (sdk_submitSecret orderHash (Some secret) (world s))
    as [[[]|e] w']; cbn; unfold onLog; cbn.
  - apply (revealInv_submit _ _ _ _ _ _ _ true); [apply Hgood|done|exact Hs].
  - apply (revealInv_submit _ _ _ _ _ _ _ false); [apply Hgood|done|exact Hs].
Qed.

(** One step of routine preservation reasoning. *)
Ltac preserve_step :=
  first
    [ apply shareSecret_inv | apply submitFill_inv
    | apply preserves_ret | apply preserves_throw | apply preserves_outOfFuel
    | apply preserves_processExit
    | apply preserves_sleep | apply preserves_dateNow | apply preserves_getEnv
    | apply preserves_getShared | apply preserves_getAttempts
    | apply preserves_putAttempts | apply preserves_withRng
    | apply preserves_ofOutcome
    | apply preserves_bind; [|intros ?]
    | apply preserves_tryCatch; [|intros ?]
    | apply preserves_forOf; intros ?
    | apply preserves_quiet_ready; auto using carries_quiet, carriesDefined_quiet
    | apply preserves_quietSince_ready
    | apply preserves_quiet_call; [auto using carries_quiet, carriesDefined_quiet|reflexivity]
    | apply preserves_quietSince_call; reflexivity
    | match goal with
      | |- preserves _ (match ?x with _ => _ end) => destruct x
      end ].

Ltac preserve := repeat preserve_step.

Lemma EvmToSol_monitorLoop_inv base fuel cfg orderHash secrets :
  preserves (onLog (revealInv (carries secrets) base))
            (EvmToSol.monitorLoop fuel cfg orderHash secrets).
Proof.
  induction fuel as [|fuel IH]; cbn [EvmToSol.monitorLoop]; preserve;
    exact IH.
Qed.

Lemma SolToEvm_monitorLoop_inv base fuel cfg orderHash secrets :
  preserves (onLog (revealInv (carries secrets) base))
            (SolToEvm.monitorLoop fuel cfg orderHash secrets).
Proof.
  induction fuel as [|fuel IH]; cbn [SolToEvm.monitorLoop]; preserve;
    exact IH.
Qed.

Lemma FusionService_monitorLoop_inv base fuel orderHash secrets startTime :
  preserves (onLog (revealInv (carriesDefined secrets) base))
            (FusionService.monitorLoop fuel orderHash secrets startTime).
Proof.
  induction fuel as [|fuel IH]; cbn [FusionService.monitorLoop]; preserve;
    exact IH.
Qed.

Lemma getSDKWithSigner_quiet base chainId :
  preserves (onLog (quietSince base)) (FusionService.getSDKWithSigner chainId).
Proof.
  unfold FusionService.getSDKWithSigner, connect. preserve.
Qed.

Lemma revealInv_runAdds good (s s' : St) :
  onLog (revealInv good (calls s)) s' ->
  runAdds (fun new => Forall good new /\ revealedOnce new) s s'.
Proof. intros (new & Hlog & Hgood & Honce & _). exists new. auto. Qed.

Lemma EvmToSol_monitor_run fuel cfg orderHash secrets (s : St) :
  runAdds (fun new => Forall (carries secrets) new /\ revealedOnce new)
          s (snd (EvmToSol.monitorAndSubmitSecrets fuel cfg orderHash secrets s)).
Proof.
  apply revealInv_runAdds. unfold EvmToSol.monitorAndSubmitSecrets, bind, putShared.
  cbn. apply EvmToSol_monitorLoop_inv.
  apply (quietSince_revealInv _ _ _ (alreadyShared s)); [apply carries_quiet|].
  apply quietSince_refl.
Qed.

Lemma SolToEvm_monitor_run fuel cfg orderHash secrets (s : St) :
  runAdds (fun new => Forall (carries secrets) new /\ revealedOnce new)
          s (snd (SolToEvm.monitorAndSubmitSecrets fuel cfg orderHash secrets s)).
Proof.
  apply revealInv_runAdds.
  unfold SolToEvm.monitorAndSubmitSecrets, bind, putShared, putAttempts, sleep.
  cbn. apply SolToEvm_monitorLoop_inv.
  apply (quietSince_revealInv _ _ _ (alreadyShared s)); [apply carries_quiet|].
  apply quietSince_refl.
Qed.

Lemma FusionService_monitor_inv base fuel orderHash secrets chainId :
  transforms (onLog (quietSince base))
             (onLog (revealInv (carriesDefined secrets) base))
             (FusionService.monitorAndCompleteSwap fuel orderHash secrets chainId).
Proof.
  assert (Hweak : forall s : St, onLog (quietSince base) s ->
                    onLog (revealInv (carriesDefined secrets) base) s).
  { intros s Hs.
    apply (quietSince_revealInv _ _ _ (alreadyShared s));
      [apply carriesDefined_quiet|exact Hs]. }
  unfold FusionService.monitorAndCompleteSwap.
  apply transforms_tryCatch; [|intros e; preserve].
  apply (transforms_bind _ (onLog (quietSince base)));
    [apply getSDKWithSigner_quiet|exact Hweak|].
  intros _. apply (transforms_bind _ (onLog (quietSince base)));
    [apply preserves_dateNow|exact Hweak|].
  intros startTime.
  apply (transforms_bind _ (onLog (revealInv (carriesDefined secrets) base))).
  - intros s Hs. cbn.
    apply (quietSince_revealInv _ _ _ (alreadyShared s));
      [apply carriesDefined_quiet|exact Hs].
  - auto.
  - intros _. apply preserves_bind; [apply FusionService_monitorLoop_inv|].
    intros r. preserve.
Qed.

Lemma FusionService_monitor_run fuel orderHash secrets chainId (s : St) :
  runAdds (fun new => Forall (carriesDefined secrets) new /\ revealedOnce new)
          s (snd (FusionService.monitorAndCompleteSwap fuel orderHash secrets chainId s)).
Proof.
  apply revealInv_runAdds. apply FusionService_monitor_inv. apply quietSince_refl.
Qed.

End MonitorInvariants.

(** ** The passes of the monitoring loops *)

Section Passes.
Context `{HashLockApi} `{OrderApi} {W : Type} `{!Relayer W}.
Local Abbreviation M := (@M _ _ W).
Local Abbreviation St := (@St _ _ W).

(** The guarded [submitSecret] call of the three loops. *)
Lemma reveal_servesOne orderHash secrets wanted i (s : St) :
  i ∉ alreadyShared s ->
  exists s',
    tryCatch (let* _ := submitSecret orderHash i (jsIndex secrets i) in addShared i)
             (fun _ => ret tt) s = (Ret tt, s') /\
    servesOne orderHash secrets wanted i s s'.
Proof.
  intros Hnew. unfold tryCatch, bind, submitSecret, callSdk, addShared.
  destruct (sdk_submitSecret orderHash (jsIndex secrets i) (world s)) as [[[]|e] w1].
  - eexists. split; [reflexivity|]. exists [revealOf orderHash secrets i true].
    cbn. split; [reflexivity|]. split; [eauto|].
    split; [apply union_subseteq_r|].
    split; [|intros _; left; apply elem_of_union_l, elem_of_singleton; reflexivity].
    intros j [->%elem_of_singleton|Hj]%elem_of_union; [right|by left].
    apply list_elem_of_singleton. reflexivity.
  - eexists. split; [reflexivity|]. exists [revealOf orderHash secrets i false].
    cbn. split; [reflexivity|]. split; [eauto|]. split; [done|].
    split; [by left|]. intros _. right. apply list_elem_of_singleton. reflexivity.
Qed.

Lemma servesOne_skip orderHash secrets (wanted : Z -> Prop) i (s : St) :
  (wanted i -> i ∈ alreadyShared s) ->
  servesOne orderHash secrets wanted i s s.
Proof.
  intros Hin. exists []. rewrite app_nil_r. split; [reflexivity|].
  split; [by left|]. split; [done|]. split; [by left|]. intros Hw. left. auto.
Qed.

Lemma EvmToSol_shareSecret_servesOne orderHash secrets i (s : St) :
  exists s',
    EvmToSol.shareSecret orderHash secrets i s = (Ret tt, s') /\
    servesOne orderHash secrets (fun _ => True) i s s'.
Proof.
  unfold EvmToSol.shareSecret, bind at 1, getShared. cbv beta iota.
  destruct (decide (i ∈ alreadyShared s)) as [Hin|Hin].
  - exists s. split; [reflexivity|]. by apply servesOne_skip.
  - by apply reveal_servesOne.
Qed.

Lemma SolToEvm_shareSecret_servesOne orderHash secrets i (s : St) :
  exists s',
    SolToEvm.shareSecret orderHash secrets i s = (Ret tt, s') /\
    servesOne orderHash secrets (fun _ => True) i s s'.
Proof.
  unfold SolToEvm.shareSecret, bind at 1, getShared. cbv beta iota.
  destruct (decide (i ∈ alreadyShared s)) as [Hin|Hin].
  - exists s. split; [reflexivity|]. by apply servesOne_skip.
  - by apply reveal_servesOne.
Qed.

Lemma submitFill_servesOne orderHash secrets fill (s : St) :
  exists s',
    FusionService.submitFill orderHash secrets fill s = (Ret tt, s') /\
    servesOne orderHash secrets (hasSecret secrets) (idx fill) s s'.
Proof.
  unfold FusionService.submitFill, bind at 1, getShared. cbv beta iota.
  destruct (bool_decide_reflect (idx fill ∈ alreadyShared s)) as [Hin|Hin];
    cbn [negb andb].
  { exists s. split; [reflexivity|]. by apply servesOne_skip. }
  destruct (truthyStr (jsIndex secrets (idx fill))) eqn:Hsecret.
  - by apply reveal_servesOne.
  - exists s. split; [reflexivity|]. apply servesOne_skip.
    unfold hasSecret. congruence.
Qed.

(** A loop whose body serves its element serves every element. *)
Lemma forOf_servesEach {A} orderHash secrets wanted (key : A -> Z)
    (body : A -> M unit) :
  (forall x s, exists s',
      body x s = (Ret tt, s') /\ servesOne orderHash secrets wanted (key x) s s') ->
  forall xs s, exists s',
    forOf xs body s = (Ret tt, s') /\
    servesEach orderHash secrets wanted (map key xs) s s'.
Proof.
  intros Hbody xs. induction xs as [|x xs IH]; intros s.
  { exists s. split; [reflexivity|]. exists []. rewrite app_nil_r.
    split; [reflexivity|]. split; [constructor|]. split; [done|].
    split; [by left|]. intros i Hi. by apply elem_of_nil in Hi. }
  destruct (Hbody x s) as (s1 & Hrun1 & subs1 & Hc1 & Hshape1 & Hsub1 & Hin1 & Hw1).
  destruct (IH s1) as (s2 & Hrun2 & subs2 & Hc2 & Hall2 & Hsub2 & Hin2 & Hw2).
  exists s2. cbn [forOf]. unfold bind at 1. rewrite Hrun1.
  split; [exact Hrun2|]. exists (subs1 ++ subs2)%list.
  split; [by rewrite Hc2, Hc1, <- app_assoc|].
  split; [|split; [by transitivity (alreadyShared s1)|split]].
  - apply Forall_app. split.
    + destruct Hshape1 as [->|[ok ->]]; constructor; [|constructor].
      exists (key x), ok. split; [apply elem_of_cons; by left|reflexivity].
    + eapply Forall_impl; [exact Hall2|]. intros e (i & ok & Hi & ->).
      exists i, ok. split; [apply elem_of_cons; by right|reflexivity].
  - intros j Hj. destruct (Hin2 j Hj) as [Hj1|Hj2].
    + destruct (Hin1 j Hj1) as [?|?]; [by left|right].
      apply elem_of_app. by left.
    + right. apply elem_of_app. by right.
  - intros i [->|Hi]%elem_of_cons Hwanted.
    + destruct (Hw1 Hwanted) as [Hshared|Hfailed].
      * left. by apply Hsub2.
      * right. apply elem_of_app. by left.
    + destruct (Hw2 i Hi Hwanted) as [Hshared|Hfailed]; [by left|].
      right. apply elem_of_app. by right.
Qed.

(** *** The three shapes of a pass *)

Lemma passShape_quiet orderHash secrets wanted shared (pre : list Entry) :
  Forall plainEntry pre ->
  passShape orderHash secrets wanted shared pre shared.
Proof.
  intros Hpre. exists pre, [], []. rewrite !app_nil_r.
  split; [reflexivity|]. split; [exact Hpre|]. split; [done|].
  split; [by left|]. by left.
Qed.

Lemma passShape_nothing_ready orderHash secrets wanted shared (pre : list Entry) ok :
  Forall plainEntry pre ->
  passShape orderHash secrets wanted shared
    (pre ++ [{| call := CGetReadyToAcceptSecretFills orderHash []; returned := ok |}])
    shared.
Proof.
  intros Hpre. eexists pre, [_], []. rewrite !app_nil_r.
  split; [reflexivity|]. split; [exact Hpre|]. split; [done|].
  split; [by left|]. right. exists [], ok. split; [reflexivity|].
  split; [done|]. split; [constructor|]. intros i Hi. by apply elem_of_nil in Hi.
Qed.

Lemma passShape_served orderHash secrets wanted (pre : list Entry) R (s2 s3 : St) :
  Forall plainEntry pre ->
  servesEach orderHash secrets wanted R s2 s3 ->
  exists subs,
    calls s3 = (calls s2 ++ subs)%list /\
    passShape orderHash secrets wanted (alreadyShared s2)
      (pre ++ {| call := CGetReadyToAcceptSecretFills orderHash R; returned := true |}
           :: subs)
      (alreadyShared s3).
Proof.
  intros Hpre (subs & Hc & Hall & Hsub & Hin & Hw). exists subs.
  split; [exact Hc|]. eexists pre, [_], subs.
  split; [reflexivity|]. split; [exact Hpre|]. split; [exact Hsub|].
  split; [exact Hin|]. right. exists R, true. split; [reflexivity|].
  split; [discriminate|]. split; [exact Hall|exact Hw].
Qed.

Lemma plain_status orderHash ok :
  plainEntry {| call := CGetOrderStatus orderHash; returned := ok |}.
Proof. split; reflexivity. Qed.

Lemma plain_status_only orderHash ok :
  Forall plainEntry [{| call := CGetOrderStatus orderHash; returned := ok |}].
Proof. constructor; [apply plain_status|constructor]. Qed.

(** *** One pass of each loop *)

Lemma EvmToSol_monitorStep_pass cfg orderHash secrets (s : St) :
  exists r s' p,
    EvmToSol.monitorStep cfg orderHash secrets s = (Ret r, s') /\
    calls s' = (calls s ++ p)%list /\
    passShape orderHash secrets (fun _ => True) (alreadyShared s) p (alreadyShared s').
Proof.
  unfold EvmToSol.monitorStep.
  assert (Hrest : forall (s1 : St) ok,
            calls s1 = (calls s ++ [{| call := CGetOrderStatus orderHash;
                                       returned := ok |}])%list ->
            alreadyShared s1 = alreadyShared s ->
            exists s' p,
              (let* _ :=
                 tryCatch
                   (let* readyToAcceptSecrets := getReadyToAcceptSecretFills orderHash in
                    let* idxes :=
                      match fills readyToAcceptSecrets with
                      | Some fs => ret (map idx fs)
                      | None =>
                          throw (newError
                            "Cannot read properties of undefined (reading 'map')")
                      end in
                    let* _ := forOf idxes (EvmToSol.shareSecret orderHash secrets) in
                    sleep (EvmToSol.pollInterval cfg))
                   (fun _ => sleep (EvmToSol.pollInterval cfg)) in
               ret false) s1 = (Ret false, s') /\
              calls s' = (calls s ++ p)%list /\
              passShape orderHash secrets (fun _ => True) (alreadyShared s) p
                        (alreadyShared s')).
  { intros s1 ok Hc1 Hsh1.
    unfold bind at 1, tryCatch, bind at 1, getReadyToAcceptSecretFills.
    destruct (sdk_getReadyToAcceptSecretFills orderHash (world s1)) as [[rd|x] w2].
    2:{ eexists _, _. split; [reflexivity|]. cbn. rewrite Hc1, <- app_assoc.
        split; [reflexivity|]. rewrite Hsh1.
        apply (passShape_nothing_ready _ _ _ _ [_]).
        apply plain_status_only. }
    unfold reportedReady. destruct (fills rd) as [fs|].
    2:{ eexists _, _. split; [reflexivity|]. cbn. rewrite Hc1, <- app_assoc.
        split; [reflexivity|]. rewrite Hsh1.
        apply (passShape_nothing_ready _ _ _ _ [_]).
        apply plain_status_only. }
    cbv beta iota delta [ret]. unfold bind at 1.
    set (s2 := logCall _ (setWorld w2 s1)).
    destruct (forOf_servesEach orderHash secrets (fun _ => True) (fun i : Z => i)
                (EvmToSol.shareSecret orderHash secrets)
                (EvmToSol_shareSecret_servesOne orderHash secrets)
                (map idx fs) s2) as (s3 & Hrun & Heach).
    unfold bind at 1. rewrite Hrun. rewrite map_id in Heach.
    destruct (passShape_served orderHash secrets (fun _ => True)
                [{| call := CGetOrderStatus orderHash; returned := ok |}]
                (map idx fs) s2 s3 (plain_status_only _ _)
                Heach) as (subs & Hc3 & Hshape).
    eexists _, _. split; [reflexivity|]. cbn in Hc3, Hshape |- *.
    rewrite Hc3, Hc1, <- !app_assoc. split; [reflexivity|].
    rewrite Hsh1 in Hshape. exact Hshape. }
  unfold bind at 1, tryCatch at 1, bind at 1, getOrderStatus, callSdk.
  destruct (sdk_getOrderStatus orderHash (world s)) as [[st|x] w1]; cbv beta iota.
  - cbn [ret]. cbv beta iota.
    destruct (String.eqb (status st) "executed").
    + eexists true, _, _. split; [reflexivity|]. cbn. split; [reflexivity|].
      apply passShape_quiet, plain_status_only.
    + destruct (Hrest (logCall {| call := CGetOrderStatus orderHash; returned := true |}
                         (setWorld w1 s)) true) as (s' & p & Hrun & Hc & Hshape);
        [reflexivity|reflexivity|].
      exists false, s', p. split; [exact Hrun|]. split; [exact Hc|exact Hshape].
  - cbn [ret]. cbv beta iota.
    destruct (Hrest (logCall {| call := CGetOrderStatus orderHash; returned := false |}
                       (setWorld w1 s)) false) as (s' & p & Hrun & Hc & Hshape);
      [reflexivity|reflexivity|].
    exists false, s', p. split; [exact Hrun|]. split; [exact Hc|exact Hshape].
Qed.

Lemma SolToEvm_monitorStep_pass cfg orderHash secrets (s : St) :
  exists r s' p,
    SolToEvm.monitorStep cfg orderHash secrets s = (Ret r, s') /\
    calls s' = (calls s ++ p)%list /\
    passShape orderHash secrets (fun _ => True) (alreadyShared s) p (alreadyShared s').
Proof.
  unfold SolToEvm.monitorStep.
  assert (Hrest : forall (s1 : St) ok,
            calls s1 = (calls s ++ [{| call := CGetOrderStatus orderHash;
                                       returned := ok |}])%list ->
            alreadyShared s1 = alreadyShared s ->
            exists s' p,
              (let* _ :=
                 tryCatch
                   (let* readyToAcceptSecrets := getReadyToAcceptSecretFills orderHash in
                    let* _ :=
                      match fills readyToAcceptSecrets with
                      | Some (f :: fs) =>
                          forOf (map idx (f :: fs))
                                (SolToEvm.shareSecret orderHash secrets)
                      | _ => ret tt
                      end in
                    let* _ := sleep (SolToEvm.pollInterval cfg) in
                    SolToEvm.incrAttempts)
                   (fun _ =>
                      let* _ := sleep (SolToEvm.pollInterval cfg) in
                      SolToEvm.incrAttempts) in
               ret false) s1 = (Ret false, s') /\
              calls s' = (calls s ++ p)%list /\
              passShape orderHash secrets (fun _ => True) (alreadyShared s) p
                        (alreadyShared s')).
  { intros s1 ok Hc1 Hsh1.
    unfold bind at 1, tryCatch, bind at 1, getReadyToAcceptSecretFills.
    destruct (sdk_getReadyToAcceptSecretFills orderHash (world s1)) as [[rd|x] w2].
    2:{ eexists _, _. split; [reflexivity|]. cbn. rewrite Hc1, <- app_assoc.
        split; [reflexivity|]. rewrite Hsh1.
        apply (passShape_nothing_ready _ _ _ _ [_]), plain_status_only. }
    unfold reportedReady. destruct (fills rd) as [[|f fs]|].
    1,3: eexists _, _; (split; [reflexivity|]); cbn; rewrite Hc1, <- app_assoc;
         (split; [reflexivity|]); rewrite Hsh1;
         apply (passShape_nothing_ready _ _ _ _ [_]), plain_status_only.
    cbv beta iota delta [ret]. unfold bind at 1.
    set (s2 := logCall _ (setWorld w2 s1)).
    destruct (forOf_servesEach orderHash secrets (fun _ => True) (fun i : Z => i)
                (SolToEvm.shareSecret orderHash secrets)
                (SolToEvm_shareSecret_servesOne orderHash secrets)
                (map idx (f :: fs)) s2) as (s3 & Hrun & Heach).
    unfold bind at 1. rewrite Hrun. rewrite map_id in Heach.
    destruct (passShape_served orderHash secrets (fun _ => True)
                [{| call := CGetOrderStatus orderHash; returned := ok |}]
                (map idx (f :: fs)) s2 s3 (plain_status_only _ _)
                Heach) as (subs & Hc3 & Hshape).
    eexists _, _. split; [reflexivity|]. cbn in Hc3, Hshape |- *.
    rewrite Hc3, Hc1, <- !app_assoc. split; [reflexivity|].
    rewrite Hsh1 in Hshape. exact Hshape. }
  unfold bind at 1, tryCatch at 1, bind at 1, getOrderStatus, callSdk.
  destruct (sdk_getOrderStatus orderHash (world s)) as [[st|x] w1]; cbv beta iota.
  - cbn [ret]. cbv beta iota.
    destruct (String.eqb (status st) "executed");
      [|destruct (String.eqb (status st) "expired"
                 || String.eqb (status st) "cancelled")].
    1,2: eexists true, _, _; (split; [reflexivity|]); cbn; (split; [reflexivity|]);
         apply passShape_quiet, plain_status_only.
    destruct (Hrest (logCall {| call := CGetOrderStatus orderHash; returned := true |}
                       (setWorld w1 s)) true) as (s' & p & Hrun & Hc & Hshape);
      [reflexivity|reflexivity|].
    exists false, s', p. split; [exact Hrun|]. split; [exact Hc|exact Hshape].
  - cbn [ret]. cbv beta iota.
    destruct (Hrest (logCall {| call := CGetOrderStatus orderHash; returned := false |}
                       (setWorld w1 s)) false) as (s' & p & Hrun & Hc & Hshape);
      [reflexivity|reflexivity|].
    exists false, s', p. split; [exact Hrun|]. split; [exact Hc|exact Hshape].
Qed.

Lemma FusionService_monitorStep_pass orderHash secrets (s : St) :
  exists r s' p,
    FusionService.monitorStep orderHash secrets s = (Ret r, s') /\
    calls s' = (calls s ++ p)%list /\
    passShape orderHash secrets (hasSecret secrets) (alreadyShared s) p
              (alreadyShared s').
Proof.
  unfold FusionService.monitorStep, tryCatch, bind at 1, getOrderStatus, callSdk.
  destruct (sdk_getOrderStatus orderHash (world s)) as [[st|x] w1]; cbv beta iota.
  2:{ eexists None, _, _. split; [reflexivity|]. cbn. split; [reflexivity|].
      apply passShape_quiet, plain_status_only. }
  destruct (String.eqb (status st) "executed").
  { eexists (Some _), _, _. split; [reflexivity|]. cbn. split; [reflexivity|].
    apply passShape_quiet, plain_status_only. }
  set (s1 := logCall _ (setWorld w1 s)).
  unfold bind at 1, getReadyToAcceptSecretFills.
  destruct (sdk_getReadyToAcceptSecretFills orderHash (world s1)) as [[rd|x] w2].
  2:{ eexists None, _, _. split; [reflexivity|]. cbn. rewrite <- app_assoc.
      split; [reflexivity|].
      apply (passShape_nothing_ready _ _ _ _ [_]), plain_status_only. }
  unfold reportedReady. destruct (fills rd) as [[|f fs]|].
  1,3: eexists None, _, _; (split; [reflexivity|]); cbn; rewrite <- app_assoc;
       (split; [reflexivity|]);
       apply (passShape_nothing_ready _ _ _ _ [_]), plain_status_only.
  set (s2 := logCall _ (setWorld w2 s1)).
  destruct (forOf_servesEach orderHash secrets (hasSecret secrets) idx
              (FusionService.submitFill orderHash secrets)
              (submitFill_servesOne orderHash secrets)
              (f :: fs) s2) as (s3 & Hrun & Heach).
  unfold bind at 1. rewrite Hrun.
  destruct (passShape_served orderHash secrets (hasSecret secrets)
              [{| call := CGetOrderStatus orderHash; returned := true |}]
              (map idx (f :: fs)) s2 s3 (plain_status_only _ _)
              Heach) as (subs & Hc3 & Hshape).
  eexists None, _, _. split; [reflexivity|]. cbn in Hc3, Hshape |- *.
  rewrite Hc3, <- !app_assoc. split; [reflexivity|]. exact Hshape.
Qed.

(** *** Whole runs *)

Lemma passes_one orderHash secrets wanted shared p shared' :
  passShape orderHash secrets wanted shared p shared' ->
  passes orderHash secrets wanted shared p shared'.
Proof.
  intros Hshape. rewrite <- (app_nil_r p).
  eapply passes_more; [exact Hshape|constructor].
Qed.

Lemma EvmToSol_monitorLoop_passes fuel cfg orderHash secrets :
  forall s : St, exists new,
    calls (snd (EvmToSol.monitorLoop fuel cfg orderHash secrets s))
      = (calls s ++ new)%list /\
    passes orderHash secrets (fun _ => True) (alreadyShared s) new
      (alreadyShared (snd (EvmToSol.monitorLoop fuel cfg orderHash secrets s))).
Proof.
  induction fuel as [|fuel IH]; intros s; cbn [EvmToSol.monitorLoop].
  { exists []. rewrite app_nil_r. split; [reflexivity|constructor]. }
  destruct (EvmToSol_monitorStep_pass cfg orderHash secrets s)
    as (r & s1 & p & Hrun & Hc & Hshape).
  unfold bind at 1. rewrite Hrun. unfold bind at 1. rewrite Hrun.
  destruct r.
  - exists p. split; [exact Hc|]. by apply passes_one.
  - destruct (IH s1) as (new & Hc' & Hp). exists (p ++ new)%list.
    split; [by rewrite Hc', Hc, <- app_assoc|].
    eapply passes_more; [exact Hshape|exact Hp].
Qed.

Lemma EvmToSol_monitor_passes fuel cfg orderHash secrets (s : St) :
  exists new shared',
    calls (snd (EvmToSol.monitorAndSubmitSecrets fuel cfg orderHash secrets s))
      = (calls s ++ new)%list /\
    passes orderHash secrets (fun _ => True) ∅ new shared'.
Proof.
  destruct (EvmToSol_monitorLoop_passes fuel cfg orderHash secrets (setShared ∅ s))
    as (new & Hc & Hp).
  exists new. eexists. split; [exact Hc|exact Hp].
Qed.

Lemma SolToEvm_monitorLoop_passes fuel cfg orderHash secrets :
  forall s : St, exists new,
    calls (snd (SolToEvm.monitorLoop fuel cfg orderHash secrets s))
      = (calls s ++ new)%list /\
    passes orderHash secrets (fun _ => True) (alreadyShared s) new
      (alreadyShared (snd (SolToEvm.monitorLoop fuel cfg orderHash secrets s))).
Proof.
  induction fuel as [|fuel IH]; intros s.
  { exists []. rewrite app_nil_r. split; [reflexivity|constructor]. }
  assert (Hloop : SolToEvm.monitorLoop (S fuel) cfg orderHash secrets s
                  = (if attempts s <? SolToEvm.maxAttempts
                     then (let* finished := SolToEvm.monitorStep cfg orderHash secrets in
                           if finished then ret tt
                           else SolToEvm.monitorLoop fuel cfg orderHash secrets)
                     else ret tt) s) by reflexivity.
  rewrite Hloop. clear Hloop.
  destruct (attempts s <? SolToEvm.maxAttempts).
  2:{ exists []. rewrite app_nil_r. split; [reflexivity|constructor]. }
  destruct (SolToEvm_monitorStep_pass cfg orderHash secrets s)
    as (r & s1 & p & Hrun & Hc & Hshape).
  unfold bind at 1. rewrite Hrun. unfold bind at 1. rewrite Hrun.
  destruct r.
  - exists p. split; [exact Hc|]. by apply passes_one.
  - destruct (IH s1) as (new & Hc' & Hp). exists (p ++ new)%list.
    split; [by rewrite Hc', Hc, <- app_assoc|].
    eapply passes_more; [exact Hshape|exact Hp].
Qed.

Lemma SolToEvm_monitor_passes fuel cfg orderHash secrets (s : St) :
  exists new shared',
    calls (snd (SolToEvm.monitorAndSubmitSecrets fuel cfg orderHash secrets s))
      = (calls s ++ new)%list /\
    passes orderHash secrets (fun _ => True) ∅ new shared'.
Proof.
  destruct (SolToEvm_monitorLoop_passes fuel cfg orderHash secrets
              (setAttempts 0
                 (setShared ∅
                    (setWorld (setTimeout (SolToEvm.pollInterval cfg) (world s)) s))))
    as (new & Hc & Hp).
  exists new. eexists. split; [exact Hc|exact Hp].
Qed.

Lemma FusionService_monitorLoop_passes fuel orderHash secrets startTime :
  forall s : St, exists new,
    calls (snd (FusionService.monitorLoop fuel orderHash secrets startTime s))
      = (calls s ++ new)%list /\
    passes orderHash secrets (hasSecret secrets) (alreadyShared s) new
      (alreadyShared
         (snd (FusionService.monitorLoop fuel orderHash secrets startTime s))).
Proof.
  induction fuel as [|fuel IH]; intros s.
  { exists []. rewrite app_nil_r. split; [reflexivity|constructor]. }
  assert (Hloop : FusionService.monitorLoop (S fuel) orderHash secrets startTime s
                  = (if clock_now (world s) - startTime <? FusionService.maxWaitTime
                     then (let* r := FusionService.monitorStep orderHash secrets in
                           match r with
                           | Some x => ret (Some x)
                           | None =>
                               FusionService.monitorLoop fuel orderHash secrets startTime
                           end)
                     else ret None) s) by reflexivity.
  rewrite Hloop. clear Hloop.
  destruct (clock_now (world s) - startTime <? FusionService.maxWaitTime).
  2:{ exists []. rewrite app_nil_r. split; [reflexivity|constructor]. }
  destruct (FusionService_monitorStep_pass orderHash secrets s)
    as (r & s1 & p & Hrun & Hc & Hshape).
  unfold bind at 1. rewrite Hrun. unfold bind at 1. rewrite Hrun.
  destruct r as [x|].
  - exists p. split; [exact Hc|]. by apply passes_one.
  - destruct (IH s1) as (new & Hc' & Hp). exists (p ++ new)%list.
    split; [by rewrite Hc', Hc, <- app_assoc|].
    eapply passes_more; [exact Hshape|exact Hp].
Qed.

(** The signer is connected with at most one entry, a plain one. *)
Lemma getSDKWithSigner_plain chainId (s : St) :
  exists r s1 head,
    FusionService.getSDKWithSigner chainId s = (r, s1) /\
    calls s1 = (calls s ++ head)%list /\
    alreadyShared s1 = alreadyShared s /\
    Forall plainEntry head /\
    (r = Ret tt \/ exists e, r = Throw e).
Proof.
  unfold FusionService.getSDKWithSigner, bind, getEnv.
  destruct (negb (truthyStr (env s !! "TEST_PRIVATE_KEY"))
            || negb (truthyStr (env s !! "INCH_API_KEY"))).
  { eexists _, s, []. rewrite app_nil_r. split; [reflexivity|].
    split; [reflexivity|]. split; [reflexivity|]. split; [constructor|].
    right. eauto. }
  unfold connect, callSdk.
  destruct (sdk_connect _ (world s)) as [[[]|e] w1].
  - eexists _, _, [_]. split; [reflexivity|]. split; [reflexivity|].
    split; [reflexivity|]. split; [|by left].
    constructor; [split; reflexivity|constructor].
  - eexists _, _, [_]. split; [reflexivity|]. split; [reflexivity|].
    split; [reflexivity|]. split; [|right; eauto].
    constructor; [split; reflexivity|constructor].
Qed.

Lemma FusionService_monitor_passes fuel orderHash secrets chainId (s : St) :
  exists new shared',
    calls (snd (FusionService.monitorAndCompleteSwap fuel orderHash secrets chainId s))
      = (calls s ++ new)%list /\
    passes orderHash secrets (hasSecret secrets) ∅ new shared'.
Proof.
  unfold FusionService.monitorAndCompleteSwap, tryCatch.
  destruct (getSDKWithSigner_plain chainId s)
    as (r & s1 & head & Hrun & Hc & _ & Hplain & Hr).
  unfold bind at 1. rewrite Hrun.
  destruct Hr as [->|[e ->]].
  2:{ exists head, ∅. split; [exact Hc|]. by apply passes_one, passShape_quiet. }
  unfold bind at 1, dateNow. unfold bind at 1, putShared. unfold bind at 1.
  destruct (FusionService_monitorLoop_passes fuel orderHash secrets
              (clock_now (world s1)) (setShared ∅ s1)) as (new & Hc' & Hp).
  destruct (FusionService.monitorLoop fuel orderHash secrets (clock_now (world s1))
              (setShared ∅ s1)) as [r s2].
  exists (head ++ new)%list, (alreadyShared s2).
  split.
  - cbn in Hc'. rewrite app_assoc, <- Hc, <- Hc'. by destruct r as [[x|]|e|c|].
  - eapply passes_more; [apply passShape_quiet, Hplain|exact Hp].
Qed.

(** *** From passes to positions in the log *)

Lemma servesReported_app (p rest : list Entry) :
  servesReported p -> servesReported rest -> servesReported (p ++ rest).
Proof.
  intros Hp Hr k h i x ok Hk. apply lookup_app_Some in Hk as [Hk|[Hle Hk]].
  - destruct (Hp k h i x ok Hk) as (j & R & Hjk & Hj & Hi & Hbetween).
    exists j, R. split; [lia|]. split; [by apply lookup_app_l_Some|].
    split; [exact Hi|]. intros m Hm.
    destruct (Hbetween m Hm) as (e & i' & He & Hs).
    exists e, i'. split; [by apply lookup_app_l_Some|exact Hs].
  - destruct (Hr _ h i x ok Hk) as (j & R & Hjk & Hj & Hi & Hbetween).
    exists (length p + j)%nat, R. split; [lia|]. split.
    { rewrite lookup_app_r by lia.
      by replace (length p + j - length p)%nat with j by lia. }
    split; [exact Hi|]. intros m Hm.
    destruct (Hbetween (m - length p)%nat) as (e & i' & He & Hs); [lia|].
    exists e, i'. split; [|exact Hs]. by rewrite lookup_app_r by lia.
Qed.

Lemma passShape_servesReported orderHash secrets wanted shared p shared' :
  passShape orderHash secrets wanted shared p shared' -> servesReported p.
Proof.
  intros (pre & rd & subs & -> & Hpre & _ & _ & Hcase) k h i x ok Hk.
  apply lookup_app_Some in Hk as [Hk|[Hle Hk]].
  { apply list_elem_of_lookup_2 in Hk. rewrite Forall_forall in Hpre.
    destruct (Hpre _ Hk) as [Hplain _]. discriminate. }
  destruct Hcase as [[-> ->]|(R & ok0 & -> & HR & Hall & _)]; [done|].
  destruct (k - length pre)%nat as [|k'] eqn:Hk'; cbn in Hk; [discriminate|].
  rewrite Forall_forall in Hall.
  destruct (Hall _ (list_elem_of_lookup_2 _ _ _ Hk)) as (i0 & ok' & Hi0 & Heq).
  injection Heq as -> -> -> ->.
  destruct ok0; [|rewrite (HR eq_refl) in Hi0; by apply elem_of_nil in Hi0].
  exists (length pre), R. split; [lia|]. split.
  { rewrite lookup_app_r by lia. by rewrite Nat.sub_diag. }
  split; [exact Hi0|]. intros m Hm.
  pose proof (lookup_lt_Some _ _ _ Hk) as Hlt.
  destruct (lookup_lt_is_Some_2 subs (m - length pre - 1)%nat) as [e He]; [lia|].
  destruct (Hall _ (list_elem_of_lookup_2 _ _ _ He)) as (i1 & ok1 & _ & ->).
  exists (revealOf orderHash secrets i1 ok1), i1. split; [|reflexivity].
  rewrite lookup_app_r by lia.
  by replace (m - length pre)%nat with (S (m - length pre - 1)) by lia.
Qed.

Lemma passes_servesReported orderHash secrets wanted shared new shared' :
  passes orderHash secrets wanted shared new shared' -> servesReported new.
Proof.
  induction 1 as [|shared p shared1 rest shared2 Hshape _ IH].
  - intros k h i x ok Hk. done.
  - apply servesReported_app; [|exact IH].
    by eapply passShape_servesReported.
Qed.

Lemma passes_mono orderHash secrets wanted shared new shared' :
  passes orderHash secrets wanted shared new shared' -> shared ⊆ shared'.
Proof.
  induction 1 as [|shared p shared1 rest shared2 Hshape _ IH]; [done|].
  destruct Hshape as (pre & rd & subs & _ & _ & Hsub & _).
  by transitivity shared1.
Qed.

(** An index of the shared set was there before, or a reveal for it
    returned. *)
Lemma passes_shared_accepted orderHash secrets wanted shared new shared' :
  passes orderHash secrets wanted shared new shared' ->
  forall i, i ∈ shared' ->
    i ∈ shared \/ exists k : nat, new !! k = Some (revealOf orderHash secrets i true).
Proof.
  induction 1 as [|shared p shared1 rest shared2 Hshape _ IH]; intros i Hi;
    [by left|].
  destruct (IH i Hi) as [Hi1|[k Hk]].
  2:{ right. exists (length p + k)%nat. rewrite lookup_app_r by lia.
      by replace (length p + k - length p)%nat with k by lia. }
  destruct Hshape as (pre & rd & subs & -> & _ & _ & Hin & _).
  destruct (Hin i Hi1) as [?|Hreveal]; [by left|right].
  assert (Hmem : revealOf orderHash secrets i true ∈ (pre ++ rd ++ subs)%list).
  { apply elem_of_app. right. apply elem_of_app. by right. }
  apply list_elem_of_lookup_1 in Hmem as [k Hk].
  exists k. by apply lookup_app_l_Some.
Qed.

Lemma passShape_serves_polled orderHash secrets wanted shared p shared' :
  passShape orderHash secrets wanted shared p shared' ->
  forall (j : nat) h R,
    p !! j = Some {| call := CGetReadyToAcceptSecretFills h R; returned := true |} ->
    h = orderHash /\
    forall i, i ∈ R -> wanted i ->
      i ∈ shared' \/
      exists k : nat, (j < k)%nat /\
                      p !! k = Some (revealOf orderHash secrets i false).
Proof.
  intros (pre & rd & subs & -> & Hpre & _ & _ & Hcase) j h R Hj.
  apply lookup_app_Some in Hj as [Hj|[Hle Hj]].
  { apply list_elem_of_lookup_2 in Hj. rewrite Forall_forall in Hpre.
    destruct (Hpre _ Hj) as [_ Hplain]. discriminate. }
  destruct Hcase as [[-> ->]|(R0 & ok0 & -> & _ & Hall & Hw)]; [done|].
  destruct (j - length pre)%nat as [|j'] eqn:Hj'; cbn in Hj.
  2:{ rewrite Forall_forall in Hall.
      destruct (Hall _ (list_elem_of_lookup_2 _ _ _ Hj)) as (i0 & ok' & _ & Heq).
      discriminate. }
  injection Hj as -> -> ->. split; [reflexivity|]. intros i Hi Hwanted.
  destruct (Hw i Hi Hwanted) as [?|Hfailed]; [by left|right].
  apply list_elem_of_lookup_1 in Hfailed as [k Hk].
  exists (length pre + S k)%nat. split; [lia|].
  rewrite lookup_app_r by lia.
  by replace (length pre + S k - length pre)%nat with (S k) by lia.
Qed.

Lemma passes_serves_polled orderHash secrets wanted shared new shared' :
  passes orderHash secrets wanted shared new shared' ->
  forall (j : nat) h R,
    new !! j = Some {| call := CGetReadyToAcceptSecretFills h R; returned := true |} ->
    h = orderHash /\
    forall i, i ∈ R -> wanted i ->
      i ∈ shared' \/
      exists k : nat, (j < k)%nat /\
                      new !! k = Some (revealOf orderHash secrets i false).
Proof.
  induction 1 as [|shared p shared1 rest shared2 Hshape Hrest IH]; intros j h R Hj;
    [done|].
  apply lookup_app_Some in Hj as [Hj|[Hle Hj]].
  - destruct (passShape_serves_polled _ _ _ _ _ _ Hshape j h R Hj) as [-> Hall].
    split; [reflexivity|]. intros i Hi Hwanted.
    destruct (Hall i Hi Hwanted) as [Hin|(k & Hjk & Hk)].
    + left. by apply (passes_mono _ _ _ _ _ _ Hrest).
    + right. exists k. split; [exact Hjk|]. by apply lookup_app_l_Some.
  - destruct (IH _ h R Hj) as [-> Hall]. split; [reflexivity|].
    intros i Hi Hwanted.
    destruct (Hall i Hi Hwanted) as [Hin|(k & Hjk & Hk)]; [by left|right].
    exists (length p + k)%nat. split; [lia|]. rewrite lookup_app_r by lia.
    by replace (length p + k - length p)%nat with k by lia.
Qed.

Lemma passes_servesAllReported orderHash secrets wanted new shared' :
  passes orderHash secrets wanted ∅ new shared' ->
  servesAllReported orderHash secrets wanted new.
Proof.
  intros Hp j h R Hj.
  destruct (passes_serves_polled _ _ _ _ _ _ Hp j h R Hj) as [-> Hall].
  split; [reflexivity|]. intros i Hi Hwanted.
  destruct (Hall i Hi Hwanted) as [Hin|Hfailed]; [left|by right].
  destruct (passes_shared_accepted _ _ _ _ _ _ Hp i Hin) as [Hempty|Hk];
    [by apply elem_of_empty in Hempty|exact Hk].
Qed.

End Passes.

Section RevealTheorems.
Context `{HashLockApi} `{OrderApi} {W : Type} `{!Relayer W}.
Local Abbreviation St := (@St _ _ W).

Lemma revealedOnce_lookup (new : list Entry) :
  revealedOnce new ->
  forall (j k : nat) e e' i,
    (j < k)%nat -> new !! j = Some e -> accepted e = Some i ->
    new !! k = Some e' -> submitted e' <> Some i.
Proof.
  induction new as [|e0 new IH]; intros Honce j k e e' i Hjk Hj Hacc Hk; [done|].
  destruct Honce as [Hhead Hrest].
  destruct k as [|k]; [lia|]. cbn in Hk.
  destruct j as [|j]; cbn in Hj.
  - injection Hj as ->. specialize (Hhead i Hacc).
    rewrite Forall_forall in Hhead. apply Hhead.
    by eapply list_elem_of_lookup_2.
  - eapply (IH Hrest j k); eauto. lia.
Qed.

Lemma revealsEachOnce_intro secrets (new : list Entry) :
  Forall (carries secrets) new -> revealedOnce new ->
  revealsEachOnce secrets new.
Proof.
  intros Hgood Honce. split.
  - intros h i x b Hin. rewrite Forall_forall in Hgood.
    exact (Hgood _ Hin).
  - intros j k h i x h' x' b Hjk Hj Hk.
    by eapply (revealedOnce_lookup new Honce j k _ _ i Hjk Hj eq_refl Hk).
Qed.

(** C1. In every monitoring run -- of the service's
    [monitorAndCompleteSwap] and of the [monitorAndSubmitSecrets] loops of
    both scripts, for any behaviour of the relayer and any number of loop
    iterations -- each [submitSecret] call passes exactly [secrets[i]] for
    the index [i] it serves; once a call for index [i] has returned (the
    index entered the shared set) no later [submitSecret] call is made for
    [i] in that run; and the index served is one of a ready fill: it is in
    the list the latest [getReadyToAcceptSecretFills] poll returned for
    that order, with only [submitSecret] calls between that poll and the
    call. *)
Theorem secrets_revealed_once (fuel : nat) (orderHash : string)
    (secrets : list string) (chainId : JsValue) (cfgE : EvmToSol.Config)
    (cfgS : SolToEvm.Config) (s : St) :
  runAdds (fun new => revealsEachOnce secrets new /\ servesReported new) s
    (snd (FusionService.monitorAndCompleteSwap fuel orderHash secrets chainId s)) /\
  runAdds (fun new => revealsEachOnce secrets new /\ servesReported new) s
    (snd (EvmToSol.monitorAndSubmitSecrets fuel cfgE orderHash secrets s)) /\
  runAdds (fun new => revealsEachOnce secrets new /\ servesReported new) s
    (snd (SolToEvm.monitorAndSubmitSecrets fuel cfgS orderHash secrets s)).
Proof.
  split; [|split].
  - destruct (FusionService_monitor_run fuel orderHash secrets chainId s)
      as (new & Hlog & Hgood & Honce).
    destruct (FusionService_monitor_passes fuel orderHash secrets chainId s)
      as (new' & shared' & Hlog' & Hpasses).
    rewrite Hlog in Hlog'. apply app_inv_head in Hlog' as <-.
    exists new. split; [exact Hlog|]. split.
    + apply revealsEachOnce_intro; [|exact Honce].
      eapply Forall_impl; [exact Hgood|]. apply carriesDefined_carries.
    + by eapply passes_servesReported.
  - destruct (EvmToSol_monitor_run fuel cfgE orderHash secrets s)
      as (new & Hlog & Hgood & Honce).
    destruct (EvmToSol_monitor_passes fuel cfgE orderHash secrets s)
      as (new' & shared' & Hlog' & Hpasses).
    rewrite Hlog in Hlog'. apply app_inv_head in Hlog' as <-.
    exists new. split; [exact Hlog|]. split.
    + by apply revealsEachOnce_intro.
    + by eapply passes_servesReported.
  - destruct (SolToEvm_monitor_run fuel cfgS orderHash secrets s)
      as (new & Hlog & Hgood & Honce).
    destruct (SolToEvm_monitor_passes fuel cfgS orderHash secrets s)
      as (new' & shared' & Hlog' & Hpasses).
    rewrite Hlog in Hlog'. apply app_inv_head in Hlog' as <-.
    exists new. split; [exact Hlog|]. split.
    + by apply revealsEachOnce_intro.
    + by eapply passes_servesReported.
Qed.

(** C10. In a run of [monitorAndCompleteSwap], every [submitSecret] call
    serves a fill index inside [0 .. secrets.length-1] and passes the secret
    stored there; so no call is made for a fill whose index has no secret,
    and [submitSecret] is never given an undefined secret. *)
Theorem no_reveal_without_secret (fuel : nat) (orderHash : string)
    (secrets : list string) (chainId : JsValue) (s : St) :
  exists new,
    calls (snd (FusionService.monitorAndCompleteSwap fuel orderHash secrets chainId s))
      = (calls s ++ new)%list /\
    (forall h i x b,
       {| call := CSubmitSecret h i x; returned := b |} ∈ new ->
       0 <= i < Z.of_nat (length secrets) /\
       exists secret, x = Some secret /\ jsIndex secrets i = Some secret) /\
    (forall h i x b,
       jsIndex secrets i = None ->
       {| call := CSubmitSecret h i x; returned := b |} ∉ new) /\
    (forall h i b, {| call := CSubmitSecret h i None; returned := b |} ∉ new).
Proof.
  destruct (FusionService_monitor_run fuel orderHash secrets chainId s)
    as (new & Hlog & Hgood & _).
  exists new. split; [exact Hlog|].
  rewrite Forall_forall in Hgood.
  assert (Hall : forall h i x b,
            {| call := CSubmitSecret h i x; returned := b |} ∈ new ->
            0 <= i < Z.of_nat (length secrets) /\
            exists secret, x = Some secret /\ jsIndex secrets i = Some secret).
  { intros h i x b Hin. exact (Hgood _ Hin). }
  split; [exact Hall|]. split.
  - intros h i x b Hnone Hin.
    destruct (Hall h i x b Hin) as (_ & secret & _ & Hsome). congruence.
  - intros h i b Hin. destruct (Hall h i None b Hin) as (_ & secret & Hsome & _).
    discriminate.
Qed.

End RevealTheorems.

(** A run of the service against the scripted relayer: index 1 is served
    twice because its first submission was rejected, index 7 (which has no
    secret) is never served. *)
Example monitorAndCompleteSwap_run :
  let s' := snd (FusionService.monitorAndCompleteSwap 10 "0xorder" ["s0"; "s1"; "s2"]
                   (JsNumber 1) (Sim.start Sim.busyWorld Sim.serviceEnv)) in
  List.filter (fun e => match submitted e with Some _ => true | None => false end)
              (calls s') =
  [ {| call := CSubmitSecret "0xorder" 1 (Some "s1"); returned := false |};
    {| call := CSubmitSecret "0xorder" 1 (Some "s1"); returned := true |};
    {| call := CSubmitSecret "0xorder" 0 (Some "s0"); returned := true |};
    {| call := CSubmitSecret "0xorder" 2 (Some "s2"); returned := true |} ].
Proof. vm_compute. reflexivity. Qed.

(** ** How computations end *)

Section Endings.
Context `{HashLockApi} `{OrderApi} {W : Type} `{!Relayer W}.
Local Abbreviation M := (@M _ _ W).
Local Abbreviation St := (@St _ _ W).

Lemma bind_returns {A B} (m : M A) (k : A -> M B) s a s1 :
  m s = (Ret a, s1) -> bind m k s = k a s1.
Proof. intros Hm. unfold bind. rewrite Hm. reflexivity. Qed.

Lemma bind_throws {A B} (m : M A) (k : A -> M B) s e s1 :
  m s = (Throw e, s1) -> bind m k s = (Throw e, s1).
Proof. intros Hm. unfold bind. rewrite Hm. reflexivity. Qed.

Lemma tryCatch_bind_returns {A B} (m : M A) (k : A -> M B) h s a s1 :
  m s = (Ret a, s1) -> tryCatch (bind m k) h s = tryCatch (k a) h s1.
Proof. intros Hm. unfold tryCatch, bind. rewrite Hm. reflexivity. Qed.

Lemma tryCatch_bind_throws {A B} (m : M A) (k : A -> M B) h s e s1 :
  m s = (Throw e, s1) -> tryCatch (bind m k) h s = h e s1.
Proof. intros Hm. unfold tryCatch, bind. rewrite Hm. reflexivity. Qed.

Lemma callSdk_returns {A} c (op : W -> Outcome A * W) (s : St) a w' :
  op (world s) = (Ok a, w') ->
  callSdk c op s = (Ret a, logCall {| call := c; returned := true |} (setWorld w' s)).
Proof. intros Hop. unfold callSdk. rewrite Hop. reflexivity. Qed.

Lemma callSdk_throws {A} c (op : W -> Outcome A * W) (s : St) e w' :
  op (world s) = (Err e, w') ->
  callSdk c op s = (Throw e, logCall {| call := c; returned := false |} (setWorld w' s)).
Proof. intros Hop. unfold callSdk. rewrite Hop. reflexivity. Qed.

Lemma withRng_returns {A} (f : Rng -> Outcome A * Rng) (s : St) a g :
  f (rng s) = (Ok a, g) -> withRng f s = (Ret a, setRng g s).
Proof. intros Hf. unfold withRng. rewrite Hf. reflexivity. Qed.

Lemma withRng_throws {A} (f : Rng -> Outcome A * Rng) (s : St) e g :
  f (rng s) = (Err e, g) -> withRng f s = (Throw e, setRng g s).
Proof. intros Hf. unfold withRng. rewrite Hf. reflexivity. Qed.

Lemma ofOutcome_returns {A} (o : Outcome A) (s : St) a :
  o = Ok a -> ofOutcome o s = (Ret a, s).
Proof. intros ->. reflexivity. Qed.

Lemma steady_safe {A} I (m : M A) : steady I m -> safe I m.
Proof. intros Hm s. destruct (Hm s) as (a & s' & -> & HI). exact HI. Qed.

Section Rules.
Context (I : St -> St -> Prop) `{!StatePreorder I}.

Lemma steady_ret {A} (a : A) : steady I (ret a).
Proof. intros s. exists a, s. split; [reflexivity|apply sp_refl]. Qed.

Lemma safe_throw {A} e : safe I (throw (A := A) e).
Proof. intros s. cbn. apply sp_refl. Qed.

Lemma safe_bind {A B} (m : M A) (k : A -> M B) :
  safe I m -> (forall a, safe I (k a)) -> safe I (bind m k).
Proof.
  intros Hm Hk s. unfold bind. specialize (Hm s).
  destruct (m s) as [[a|e|c|] s1]; try done.
  specialize (Hk a s1). destruct (k a s1) as [[b|e|c|] s2]; try done;
    eapply sp_trans; eauto.
Qed.

Lemma steady_bind {A B} (m : M A) (k : A -> M B) :
  steady I m -> (forall a, steady I (k a)) -> steady I (bind m k).
Proof.
  intros Hm Hk s. unfold bind. destruct (Hm s) as (a & s1 & -> & H1).
  destruct (Hk a s1) as (b & s2 & -> & H2).
  exists b, s2. split; [reflexivity|]. eapply sp_trans; eauto.
Qed.

Lemma steady_tryCatch {A} (m : M A) (h : Thrown -> M A) :
  safe I m -> (forall e, steady I (h e)) -> steady I (tryCatch m h).
Proof.
  intros Hm Hh s. unfold tryCatch. specialize (Hm s).
  destruct (m s) as [[a|e|c|] s1]; try done.
  - by exists a, s1.
  - destruct (Hh e s1) as (b & s2 & -> & H2).
    exists b, s2. split; [reflexivity|]. eapply sp_trans; eauto.
Qed.

Lemma safe_ofOutcome {A} (o : Outcome A) : safe I (ofOutcome o).
Proof. intros s. destruct o; cbn; apply sp_refl. Qed.

Lemma safe_callSdk {A} c (op : W -> Outcome A * W) :
  (forall s b, I s (logCall {| call := c; returned := b |}
                            (setWorld (snd (op (world s))) s))) ->
  safe I (callSdk c op).
Proof.
  intros Hop s. unfold callSdk. specialize (Hop s).
  destruct (op (world s)) as [[a|e] w']; cbn in *; apply Hop.
Qed.

Lemma safe_getReady orderHash :
  (forall s R b,
     I s (logCall {| call := CGetReadyToAcceptSecretFills orderHash R; returned := b |}
                  (setWorld (snd (sdk_getReadyToAcceptSecretFills orderHash (world s))) s))) ->
  safe I (getReadyToAcceptSecretFills orderHash).
Proof.
  intros Hop s. unfold getReadyToAcceptSecretFills.
  pose proof (Hop s) as Hs.
  destruct (sdk_getReadyToAcceptSecretFills orderHash (world s)) as [[a|e] w'];
    cbn in *; apply Hs.
Qed.

Lemma steady_forOf {A} (xs : list A) (body : A -> M unit) :
  (forall x, steady I (body x)) -> steady I (forOf xs body).
Proof.
  intros Hb. induction xs as [|x xs IH]; cbn [forOf].
  - apply steady_ret.
  - apply steady_bind; [apply Hb|]. intros _. exact IH.
Qed.

End Rules.

End Endings.

(** ** Termination of the service's monitoring loop *)

Section ServiceTermination.
Context `{HashLockApi} `{OrderApi} {W : Type} `{!Relayer W}.
Context `{!ClockLaws W}.
Local Abbreviation M := (@M _ _ W).
Local Abbreviation St := (@St _ _ W).

#[local] Instance later_preorder : StatePreorder later.
Proof.
  split.
  - intros s. split; [lia|reflexivity].
  - intros s1 s2 s3 [H1 E1] [H2 E2]. split; [lia|congruence].
Qed.

Lemma submitFill_steady orderHash secrets fill :
  steady later (FusionService.submitFill orderHash secrets fill).
Proof.
  unfold FusionService.submitFill.
  apply (steady_bind later).
  { intros s. exists (alreadyShared s), s. split; [reflexivity|apply sp_refl]. }
  intros shared. destruct (_ && _); [|apply (steady_ret later)].
  apply (steady_tryCatch later); [|intros e; apply (steady_ret later)].
  apply (safe_bind later).
  - apply safe_callSdk. intros s b. split; cbn; [apply clock_submitSecret|reflexivity].
  - intros _. apply steady_safe. intros s. eexists tt, _. split; [reflexivity|].
    split; cbn; [lia|reflexivity].
Qed.

(** One pass of the loop either returns a result, or ends after its timer:
    at least five seconds later. *)
Lemma monitorStep_cases orderHash secrets (s : St) :
  exists r s',
    FusionService.monitorStep orderHash secrets s = (Ret r, s') /\
    later s s' /\
    (r = None -> clock_now (world s) + 5000 <= clock_now (world s')).
Proof.
  unfold FusionService.monitorStep, tryCatch, bind at 1, getOrderStatus, callSdk.
  pose proof (clock_getOrderStatus orderHash (world s)) as Hc1.
  destruct (sdk_getOrderStatus orderHash (world s)) as [[st|e] w1]; cbn in Hc1 |- *.
  2:{ eexists None, _. split; [reflexivity|].
      pose proof (clock_setTimeout 5000 w1).
      repeat split; cbn; try lia. }
  destruct (String.eqb (status st) "executed").
  { cbn. eexists (Some _), _. split; [reflexivity|]. repeat split; cbn; [lia|done]. }
  unfold bind at 1, getReadyToAcceptSecretFills, callSdk. cbn.
  pose proof (clock_getReady orderHash w1) as Hc2.
  destruct (sdk_getReadyToAcceptSecretFills orderHash w1) as [[rd|e] w2];
    cbn in Hc2 |- *.
  2:{ eexists None, _. split; [reflexivity|].
      pose proof (clock_setTimeout 5000 w2).
      repeat split; cbn; try lia. }
  set (s2 := logCall _ (setWorld w2 _)).
  assert (Hs2 : later s s2) by (split; cbn; [lia|reflexivity]).
  assert (Hloop : exists s3,
            (match fills rd with
             | Some (f :: fs) =>
                 forOf (f :: fs) (FusionService.submitFill orderHash secrets)
             | _ => ret tt
             end) s2 = (Ret tt, s3) /\ later s2 s3).
  { destruct (fills rd) as [[|f fs]|]; try (exists s2; split; [reflexivity|apply sp_refl]).
    destruct (steady_forOf later (f :: fs) _
                (submitFill_steady orderHash secrets) s2) as ([] & s3 & Hrun & Hl).
    eauto. }
  destruct Hloop as (s3 & Hrun & [Hc3 He3]).
  cbn [forOf] in Hrun. rewrite (bind_returns _ _ _ _ _ Hrun). cbn.
  eexists None, _. split; [reflexivity|].
  pose proof (clock_setTimeout 5000 (world s3)).
  destruct Hs2 as [Hc2' He2].
  repeat split; cbn; try lia. congruence.
Qed.

Lemma monitorLoop_terminates (fuel : nat) orderHash secrets startTime (s : St) :
  (waitsLeft startTime s < fuel)%nat ->
  exists r s',
    FusionService.monitorLoop fuel orderHash secrets startTime s = (Ret r, s') /\
    later s s'.
Proof.
  revert s. induction fuel as [|fuel IH]; intros s Hfuel; [lia|].
  cbn [FusionService.monitorLoop]. unfold bind at 1, dateNow. cbn.
  destruct (Z.ltb_spec (clock_now (world s) - startTime) FusionService.maxWaitTime)
    as [Hlt|Hge].
  2:{ exists None, s. split; [reflexivity|apply sp_refl]. }
  destruct (monitorStep_cases orderHash secrets s) as (r & s1 & Hstep & Hl1 & Hwait).
  unfold bind. rewrite Hstep.
  destruct r as [x|].
  { exists (Some x), s1. split; [reflexivity|exact Hl1]. }
  specialize (Hwait eq_refl).
  destruct (IH s1) as (r & s2 & Hrun & Hl2).
  { unfold waitsLeft in *. unfold FusionService.maxWaitTime in *.
    assert ((startTime + 10 * 60 * 1000 - clock_now (world s1) + 4999) / 5000
            <= (startTime + 10 * 60 * 1000 - clock_now (world s) + 4999) / 5000 - 1).
    { replace ((startTime + 10 * 60 * 1000 - clock_now (world s) + 4999) / 5000 - 1)
        with ((startTime + 10 * 60 * 1000 - clock_now (world s) + 4999 - 5000) / 5000).
      - apply Z.div_le_mono; lia.
      - replace (startTime + 10 * 60 * 1000 - clock_now (world s) + 4999 - 5000)
          with (startTime + 10 * 60 * 1000 - clock_now (world s) + 4999 + (-1) * 5000)
          by lia.
        rewrite Z.div_add by lia. lia. }
    assert (1 <= (startTime + 10 * 60 * 1000 - clock_now (world s) + 4999) / 5000).
    { apply Z.div_le_lower_bound; lia. }
    lia. }
  exists r, s2. split; [exact Hrun|]. eapply sp_trans; eauto.
Qed.

#[local] Instance anyState_preorder : StatePreorder (W := W) anyState.
Proof. split; intros; exact I. Qed.

Lemma getSDKWithSigner_safe chainId :
  safe anyState (FusionService.getSDKWithSigner chainId).
Proof.
  intros s. unfold FusionService.getSDKWithSigner, bind, getEnv, connect, callSdk.
  cbn. destruct (_ || _); cbn; [exact I|].
  destruct (sdk_connect _ (world s)) as [[[]|e] w']; exact I.
Qed.

(** With a budget of 121 loop tests the monitoring always returns an
    object: the loop body runs at most 120 times before the ten minutes are
    over. *)
Lemma monitorAndCompleteSwap_returns (fuel : nat) orderHash secrets chainId (s : St) :
  (121 <= fuel)%nat ->
  exists r s',
    FusionService.monitorAndCompleteSwap fuel orderHash secrets chainId s = (Ret r, s').
Proof.
  intros Hfuel. unfold FusionService.monitorAndCompleteSwap, tryCatch.
  pose proof (getSDKWithSigner_safe chainId s) as Hsafe.
  unfold bind at 1.
  destruct (FusionService.getSDKWithSigner chainId s) as [[[]|e|c|] s1];
    try done; [|by eexists _, _].
  unfold bind at 1, dateNow. unfold bind at 1, putShared. cbv beta iota.
  destruct (monitorLoop_terminates fuel orderHash secrets (clock_now (world s1))
              (setShared ∅ s1)) as (r & s2 & Hrun & _).
  { unfold waitsLeft, FusionService.maxWaitTime. cbn [world setShared].
    replace (clock_now (world s1) + 10 * 60 * 1000 - clock_now (world s1) + 4999)
      with 604999 by lia.
    change (604999 / 5000) with 120. lia. }
  rewrite (bind_returns _ _ _ _ _ Hrun).
  destruct r as [x|]; by eexists _, _.
Qed.

End ServiceTermination.

(** ** Orders are submitted with the hashes of the generated secrets *)

Section OrderHashes.
Context `{HashLockApi} `{OrderApi} {W : Type} `{!Relayer W}.
Local Abbreviation M := (@M _ _ W).
Local Abbreviation St := (@St _ _ W).








Lemma noOrders_not_accepted (new : list Entry) :
  Forall (fun e => orderHashes e = None) new -> existsb orderAccepted new = false.
Proof.
  induction 1 as [|e new He Hnew IH]; [reflexivity|]. cbn [existsb]. rewrite IH.
  unfold orderAccepted, orderHashes in *. by destruct (call e).
Qed.

End OrderHashes.


Section OrderHashesRuns.
Context `{HashLockApi} `{OrderApi} {W : Type} `{!Relayer W}.
Local Abbreviation M := (@M _ _ W).
Local Abbreviation St := (@St _ _ W).



End OrderHashesRuns.

(** ** [executeSwap] always answers *)

Section ExecuteSwap.
Context `{HashLockApi} `{OrderApi} {W : Type} `{!Relayer W}.
Local Abbreviation St := (@St _ _ W).

(** [getSDKWithSigner] either throws before any call, or makes the one
    [connect] call and returns or throws. *)
Lemma getSDKWithSigner_run chainId (s : St) :
  (exists e, FusionService.getSDKWithSigner chainId s = (Throw e, s)) \/
  (exists r b s1,
     FusionService.getSDKWithSigner chainId s = (r, s1) /\
     calls s1 = (calls s ++ [{| call := CConnect (FusionService.orDefault (JsNumber 1) chainId);
                                returned := b |}])%list /\
     rng s1 = rng s /\
     (r = Ret tt \/ exists e, r = Throw e)).
Proof.
  unfold FusionService.getSDKWithSigner, bind, getEnv. cbn.
  destruct (_ || _); [left; eexists; reflexivity|right].
  unfold connect, callSdk.
  destruct (sdk_connect _ (world s)) as [[[]|e] w']; eexists _, _, _;
    (split; [reflexivity|]); cbn; eauto.
Qed.

(** The three ways [getSDKWithSigner] goes, by the keys and the connection. *)
Lemma getSDKWithSigner_cases chainId (s : St) :
  ((truthyStr (env s !! "TEST_PRIVATE_KEY") = false \/
    truthyStr (env s !! "INCH_API_KEY") = false) /\
   exists e, FusionService.getSDKWithSigner chainId s = (Throw e, s)) \/
  (truthyStr (env s !! "TEST_PRIVATE_KEY") = true /\
   truthyStr (env s !! "INCH_API_KEY") = true /\
   exists o w2,
     sdk_connect (FusionService.orDefault (JsNumber 1) chainId) (world s) = (o, w2) /\
     FusionService.getSDKWithSigner chainId s
     = callSdk (CConnect (FusionService.orDefault (JsNumber 1) chainId))
               (sdk_connect (FusionService.orDefault (JsNumber 1) chainId)) s).
Proof.
  unfold FusionService.getSDKWithSigner, bind, getEnv. cbv beta iota.
  destruct (truthyStr (env s !! "TEST_PRIVATE_KEY")); cbn [negb orb].
  2:{ left. split; [by left|]. eauto. }
  destruct (truthyStr (env s !! "INCH_API_KEY")); cbn [negb orb].
  2:{ left. split; [by right|]. eauto. }
  right. split; [reflexivity|]. split; [reflexivity|].
  destruct (sdk_connect (FusionService.orDefault (JsNumber 1) chainId) (world s))
    as [o w2] eqn:Hconn.
  exists o, w2. split; reflexivity.
Qed.

Lemma onSubmitError_throws {A} (e : Thrown) (s : St) :
  exists e', FusionService.onSubmitError (A := A) e s = (Throw e', s).
Proof.
  destruct e as [| |o]; cbn; eauto. destruct (err_responseData o); cbn; eauto.
Qed.

(** Once the order is accepted, the answer wraps whatever the monitoring
    returns. *)
Lemma submitAndMonitor_accepted fuel params (quote : Quote) presetData secrets order
    (s : St) h w3 :
  sdk_submitOrder (FusionService.srcChainId params) order (quoteId quote)
                  (map hashSecret secrets) (world s) = (Ok h, w3) ->
  FusionService.submitAndMonitor fuel params quote presetData secrets order s =
  match FusionService.monitorAndCompleteSwap fuel h secrets
          (FusionService.srcChainId params)
          (logCall (swapSubmission params quote secrets order true) (setWorld w3 s)) with
  | (Ret fs, s') =>
      (Ret (FusionService.SwapExecuted h (FusionService.orZero (dstTokenAmount quote))
              (recommendedPreset quote) (secretsCount presetData) fs), s')
  | (Throw e, s') => FusionService.onSubmitError e s'
  | (Exit c, s') => (Exit c, s')
  | (OutOfFuel, s') => (OutOfFuel, s')
  end.
Proof.
  intros Hsub.
  unfold FusionService.submitAndMonitor, tryCatch, bind, submitOrder, callSdk.
  rewrite Hsub. unfold swapSubmission.
  destruct (FusionService.monitorAndCompleteSwap _ _ _ _ _) as [[fs|e|c|] s'];
    reflexivity.
Qed.

Lemma submitAndMonitor_refused fuel params (quote : Quote) presetData secrets order
    (s : St) e w3 :
  sdk_submitOrder (FusionService.srcChainId params) order (quoteId quote)
                  (map hashSecret secrets) (world s) = (Err e, w3) ->
  FusionService.submitAndMonitor fuel params quote presetData secrets order s =
  FusionService.onSubmitError e
    (logCall (swapSubmission params quote secrets order false) (setWorld w3 s)).
Proof.
  intros Hsub.
  unfold FusionService.submitAndMonitor, tryCatch, bind, submitOrder, callSdk.
  rewrite Hsub. reflexivity.
Qed.

(** When the steps before it succeed, [executeSwap] goes on to submit the
    order, from the state [readyToSubmit]. *)
Lemma executeSwap_prepared fuel params (s : St) quote w2 presetData secrets g1 order :
  swapPrepared params s quote w2 presetData secrets g1 order ->
  FusionService.executeSwap fuel params s =
  tryCatch (FusionService.submitAndMonitor fuel params quote presetData secrets order)
           FusionService.onSwapError (readyToSubmit params s w2 g1).
Proof.
  intros (w1 & keys & hashLock & receiver & Hq & Hkeys & Hpk & Hak & Hconn
          & Hpreset & Hsecrets & Hlock & Hreceiver & Horder).
  unfold FusionService.executeSwap. cbv zeta. unfold sdkGetQuote.
  rewrite (tryCatch_bind_returns _ _ _ _ _ _ (callSdk_returns _ _ _ _ _ Hq)).
  erewrite tryCatch_bind_returns;
    [|unfold FusionService.presetKeys; rewrite Hkeys; reflexivity].
  erewrite tryCatch_bind_returns.
  2:{ unfold FusionService.getSDKWithSigner, bind, getEnv. cbv beta iota.
      cbn [env logCall setWorld]. rewrite Hpk, Hak. cbn [negb orb].
      unfold connect. apply callSdk_returns. exact Hconn. }
  erewrite tryCatch_bind_returns; [|apply ofOutcome_returns, Hpreset].
  erewrite tryCatch_bind_returns; [|apply withRng_returns; exact Hsecrets].
  erewrite tryCatch_bind_returns; [|apply ofOutcome_returns, Hlock].
  erewrite tryCatch_bind_returns; [|apply ofOutcome_returns, Hreceiver].
  erewrite tryCatch_bind_returns; [|apply ofOutcome_returns, Horder].
  f_equal. unfold readyToSubmit, setRng, logCall, setWorld. cbn.
  by rewrite <- app_assoc.
Qed.

(** Closes a branch of [executeSwap] that ended before the order was
    submitted. *)
Ltac failed_branch :=
  intros [= <- <-]; right; eexists _, _, _; split; [reflexivity|];
  split; [cbn; rewrite <- ?app_assoc; reflexivity|repeat constructor].

(** [executeSwap] either gets as far as submitting the order, or answers
    [success: false] without having submitted one. *)
Lemma executeSwap_cases fuel params (s : St) :
  (exists quote w2 presetData secrets g1 order,
     swapPrepared params s quote w2 presetData secrets g1 order) \/
  (exists msg s' new,
     FusionService.executeSwap fuel params s
     = (Ret (FusionService.SwapFailed msg), s') /\
     calls s' = (calls s ++ new)%list /\
     Forall (fun e => orderHashes e = None) new).
Proof.
  destruct (FusionService.executeSwap fuel params s) as [r s'] eqn:Hrun.
  revert Hrun. unfold FusionService.executeSwap. cbv zeta. unfold sdkGetQuote.
  destruct (sdk_getQuote (FusionService.quoteParams params) (world s))
    as [[quote|e] w1] eqn:Hq.
  2:{ rewrite (tryCatch_bind_throws _ _ _ _ _ _ (callSdk_throws _ _ _ _ _ Hq)).
      failed_branch. }
  rewrite (tryCatch_bind_returns _ _ _ _ _ _ (callSdk_returns _ _ _ _ _ Hq)).
  destruct (presets quote) as [keys|] eqn:Hkeys.
  2:{ erewrite tryCatch_bind_throws;
        [|unfold FusionService.presetKeys; rewrite Hkeys; reflexivity].
      failed_branch. }
  erewrite tryCatch_bind_returns;
    [|unfold FusionService.presetKeys; rewrite Hkeys; reflexivity].
  match goal with
  | |- context [tryCatch (bind (FusionService.getSDKWithSigner ?c) _) _ ?s1] =>
      destruct (getSDKWithSigner_cases c s1)
        as [[_ (e & Hsigner)]|(Hpk & Hak & o & w2 & Hconn & Hsigner)]
  end.
  { rewrite (tryCatch_bind_throws _ _ _ _ _ _ Hsigner). failed_branch. }
  cbn [env logCall setWorld] in Hpk, Hak.
  destruct o as [[]|e].
  2:{ rewrite (tryCatch_bind_throws _ _ _ _ _ _
                 (eq_trans Hsigner (callSdk_throws _ _ _ _ _ Hconn))).
      failed_branch. }
  rewrite (tryCatch_bind_returns _ _ _ _ _ _
             (eq_trans Hsigner (callSdk_returns _ _ _ _ _ Hconn))).
  destruct (getPreset quote (recommendedPreset quote)) as [presetData|e] eqn:Hpreset.
  2:{ erewrite tryCatch_bind_throws; [|reflexivity].
      failed_branch. }
  erewrite tryCatch_bind_returns; [|reflexivity].
  destruct (FusionService.inlineSecrets (secretsCount presetData) (rng s))
    as [[secrets|e] g1] eqn:Hsecrets.
  2:{ erewrite tryCatch_bind_throws; [|apply withRng_throws; exact Hsecrets].
      failed_branch. }
  erewrite tryCatch_bind_returns; [|apply withRng_returns; exact Hsecrets].
  destruct (FusionService.inlineHashLock secrets) as [hashLock|e] eqn:Hlock.
  2:{ erewrite tryCatch_bind_throws; [|reflexivity].
      failed_branch. }
  erewrite tryCatch_bind_returns; [|reflexivity].
  destruct (if FusionService.isSolana (FusionService.dstChainId params)
            then SolanaAddress_fromString (FusionService.receiverAddress params)
            else EvmAddress_fromString (FusionService.receiverAddress params))
    as [receiver|e] eqn:Hreceiver.
  2:{ erewrite tryCatch_bind_throws; [|reflexivity].
      failed_branch. }
  erewrite tryCatch_bind_returns; [|reflexivity].
  destruct (createEvmOrder quote
              {| op_hashLock := hashLock; op_receiver := receiver;
                 op_preset := recommendedPreset quote |}) as [order|e] eqn:Horder.
  2:{ erewrite tryCatch_bind_throws; [|reflexivity].
      failed_branch. }
  intros _. left. exists quote, w2, presetData, secrets, g1, order.
  exists w1, keys, hashLock, receiver.
  cbn [world logCall setWorld] in Hconn. repeat split; assumption.
Qed.

(** C6. [executeSwap] never rejects: whatever the request and whatever the
    SDK does, it returns an object (given the clock laws and a loop budget
    that covers the ten minutes of monitoring).  The object has
    [success: true] exactly when the [submitOrder] call returned; in all
    other cases -- a failure before or during order submission -- it is
    [{ success: false, error }] with an error message.  Once [submitOrder]
    returned the order hash [h], the answer is [success: true] and its
    [finalStatus] is exactly what [monitorAndCompleteSwap] returned for [h]
    and the generated secrets, run from the state the accepted submission
    left: a monitoring failure or time-out shows there and nowhere else. *)
Theorem executeSwap_never_rejects `{!ClockLaws W} (fuel : nat)
    (params : FusionService.SwapRequest) (s : St) :
  (121 <= fuel)%nat ->
  exists r s' new,
    FusionService.executeSwap fuel params s = (Ret r, s') /\
    calls s' = (calls s ++ new)%list /\
    FusionService.success r = existsb orderAccepted new /\
    (FusionService.success r = false -> exists msg, r = FusionService.SwapFailed msg) /\
    (forall h out p n fs,
       r = FusionService.SwapExecuted h out p n fs ->
       FusionService.success r = true /\
       exists quote w2 presetData secrets g1 order w3,
         swapPrepared params s quote w2 presetData secrets g1 order /\
         sdk_submitOrder (FusionService.srcChainId params) order (quoteId quote)
                         (map hashSecret secrets) w2 = (Ok h, w3) /\
         FusionService.monitorAndCompleteSwap fuel h secrets
           (FusionService.srcChainId params)
           (logCall (swapSubmission params quote secrets order true)
                    (setWorld w3 (readyToSubmit params s w2 g1)))
         = (Ret fs, s') /\
         out = FusionService.orZero (dstTokenAmount quote) /\
         p = recommendedPreset quote /\
         n = secretsCount presetData).
Proof.
  intros Hfuel.
  destruct (executeSwap_cases fuel params s)
    as [(quote & w2 & presetData & secrets & g1 & order & Hprep)
       |(msg & s' & new & Hrun & Hlog & Hquiet)].
  2:{ exists (FusionService.SwapFailed msg), s', new.
      split; [exact Hrun|]. split; [exact Hlog|].
      split; [by rewrite noOrders_not_accepted|].
      split; [eauto|]. intros h out p n fs. discriminate. }
  rewrite (executeSwap_prepared _ _ _ _ _ _ _ _ _ Hprep). unfold tryCatch.
  destruct (sdk_submitOrder (FusionService.srcChainId params) order (quoteId quote)
              (map hashSecret secrets) w2) as [[h|e] w3] eqn:Hsub.
  - rewrite (submitAndMonitor_accepted _ _ _ _ _ _ _ h w3) by exact Hsub.
    match goal with
    | |- context [FusionService.monitorAndCompleteSwap fuel h secrets ?c ?s5] =>
        destruct (monitorAndCompleteSwap_returns fuel h secrets c s5 Hfuel)
          as (fs & s6 & Hmon);
        destruct (FusionService_monitor_run fuel h secrets c s5)
          as (mon & Hlog & _);
        rewrite Hmon in Hlog |- *; cbn in Hlog
    end.
    eexists _, s6, _. split; [reflexivity|].
    split; [rewrite Hlog, <- !app_assoc; reflexivity|].
    split; [cbn; rewrite ?existsb_app; cbn; rewrite ?orb_true_r; reflexivity|].
    split; [discriminate|].
    intros h' out p n fs' [= <- <- <- <- <-]. split; [reflexivity|].
    exists quote, w2, presetData, secrets, g1, order, w3. repeat split; assumption.
  - rewrite (submitAndMonitor_refused _ _ _ _ _ _ _ e w3) by exact Hsub.
    match goal with
    | |- context [FusionService.onSubmitError e ?s5] =>
        destruct (onSubmitError_throws (A := FusionService.SwapResult) e s5)
          as (e' & ->)
    end.
    eexists _, _, _. split; [reflexivity|].
    split; [cbn; rewrite <- app_assoc; reflexivity|].
    split; [reflexivity|]. split; [eauto|]. intros h out p n fs. discriminate.
Qed.

End ExecuteSwap.

Section OrderSubmission.
Context `{HashLockApi} `{OrderApi} {W : Type} `{!Relayer W}.
Local Abbreviation M := (@M _ _ W).
Local Abbreviation St := (@St _ _ W).


Lemma SolToEvm_order_prepared cfg (quote : Quote) (s : St) secrets g1 order :
  solOrderPrepared cfg quote s secrets g1 order ->
  SolToEvm.createAndSubmitOrder cfg quote s =
  (let* orderHash :=
     announceOrder order (quoteId quote) (map hashSecret secrets) in
   let* _ := sendTransaction order in
   ret (orderHash, secrets)) (setRng g1 s).
Proof.
  intros (preset & hashLock & receiver & Hpreset & Hsecrets & Hlock & Hreceiver
          & Horder).
  unfold SolToEvm.createAndSubmitOrder.
  erewrite bind_returns; [|apply ofOutcome_returns, Hpreset].
  erewrite bind_returns; [|apply withRng_returns; exact Hsecrets]. cbv zeta.
  erewrite bind_returns; [|apply ofOutcome_returns, Hlock].
  erewrite bind_returns; [|apply ofOutcome_returns, Hreceiver].
  erewrite bind_returns; [|apply ofOutcome_returns, Horder].
  reflexivity.
Qed.

(** Closes a branch of [createAndSubmitOrder] that threw before the order
    was submitted. *)
Ltac threw_early :=
  intros [= <- <-]; right; split; [reflexivity|eauto].


Lemma SolToEvm_order_cases cfg (quote : Quote) (s : St) :
  (exists secrets g1 order, solOrderPrepared cfg quote s secrets g1 order) \/
  (calls (snd (SolToEvm.createAndSubmitOrder cfg quote s)) = calls s /\
   exists e, fst (SolToEvm.createAndSubmitOrder cfg quote s) = Throw e).
Proof.
  destruct (SolToEvm.createAndSubmitOrder cfg quote s) as [r s'] eqn:Hrun.
  cbn [fst snd]. revert Hrun. unfold SolToEvm.createAndSubmitOrder.
  destruct (getPreset quote (recommendedPreset quote)) as [preset|e] eqn:Hpreset.
  2:{ erewrite bind_throws; [|reflexivity]. threw_early. }
  erewrite bind_returns; [|reflexivity].
  destruct (SolToEvm.generateSecrets (secretsCount preset) (rng s))
    as [[secrets|e] g1] eqn:Hsecrets.
  2:{ erewrite bind_throws; [|apply withRng_throws; exact Hsecrets]. threw_early. }
  erewrite bind_returns; [|apply withRng_returns; exact Hsecrets]. cbv zeta.
  destruct (SolToEvm.createHashLock secrets) as [hashLock|e] eqn:Hlock.
  2:{ erewrite bind_throws; [|reflexivity]. threw_early. }
  erewrite bind_returns; [|reflexivity].
  destruct (EvmAddress_fromString (ofOptStr (SolToEvm.receiver cfg)))
    as [receiver|e] eqn:Hreceiver.
  2:{ erewrite bind_throws; [|reflexivity]. threw_early. }
  erewrite bind_returns; [|reflexivity].
  destruct (createSolanaOrder quote
              {| op_hashLock := hashLock; op_receiver := receiver;
                 op_preset := recommendedPreset quote |}) as [order|e] eqn:Horder.
  2:{ erewrite bind_throws; [|reflexivity]. threw_early. }
  intros _. left. exists secrets, g1, order, preset, hashLock, receiver.
  repeat split; assumption.
Qed.


End OrderSubmission.

(** The EVM -> Solana script against the scripted relayer: three secrets
    are drawn and the order goes out with their three hashes, in order. *)
Example createAndSubmitOrder_run :
  let s := Sim.start Sim.busyWorld Sim.evmEnv in
  let run := EvmToSol.createAndSubmitOrder
               {| EvmToSol.signerPrivateKey := Some "0xkey";
                  EvmToSol.maker := Some "0xmaker";
                  EvmToSol.receiver := Some "receiver";
                  EvmToSol.devPortalApiKey := Some "api-key";
                  EvmToSol.usdtEvm := "0xdac17f958d2ee523a2206206994597c13d831ec7";
                  EvmToSol.usdtSolana := "Es9vMFrzaCERmJfrF4H2FYD4KCoNkY11McCe8BenwNYB";
                  EvmToSol.amount := "5000000";
                  EvmToSol.pollInterval := 5000;
                  EvmToSol.srcChainId := 1;
                  EvmToSol.dstChainId := 501 |}
               (Sim.quoteFor 3) s in
  exists s0 s1 s2,
    fst run = Ret ("0xorder", [s0; s1; s2]) /\
    calls (snd run) =
      [ {| call := CSubmitOrder (JsNumber 1) "fast" (Some "quote-1")
                     [Symbolic.HashSecret s0; Symbolic.HashSecret s1;
                      Symbolic.HashSecret s2];
           returned := true |} ].
Proof. vm_compute. eexists _, _, _. split; reflexivity. Qed.

(** ** The scripted relayer obeys the clock laws *)

#[global] Instance scripted_clock : ClockLaws Sim.scripted.
Proof.
  split.
  - intros h w. cbn. destruct (Sim.statuses w); cbn; lia.
  - intros h w. cbn. destruct (Sim.ready w); cbn; lia.
  - intros h x w. cbn. destruct (Sim.rejects w); cbn; lia.
  - intros ms w. cbn. lia.
Qed.

Lemma executeSwap_never_rejects_witness :
  (121 <= 121)%nat /\
  exists r s' new,
    FusionService.executeSwap 121 sampleRequest
      (Sim.start Sim.pendingWorld Sim.serviceEnv) = (Ret r, s') /\
    calls s' = (calls (Sim.start Sim.pendingWorld Sim.serviceEnv) ++ new)%list /\
    FusionService.success r = existsb orderAccepted new /\
    (FusionService.success r = false -> exists msg, r = FusionService.SwapFailed msg) /\
    (forall h out p n fs,
       r = FusionService.SwapExecuted h out p n fs ->
       FusionService.success r = true /\
       exists quote w2 presetData secrets g1 order w3,
         swapPrepared sampleRequest (Sim.start Sim.pendingWorld Sim.serviceEnv)
           quote w2 presetData secrets g1 order /\
         sdk_submitOrder (FusionService.srcChainId sampleRequest) order (quoteId quote)
                         (map hashSecret secrets) w2 = (Ok h, w3) /\
         FusionService.monitorAndCompleteSwap 121 h secrets
           (FusionService.srcChainId sampleRequest)
           (logCall (swapSubmission sampleRequest quote secrets order true)
                    (setWorld w3
                       (readyToSubmit sampleRequest
                          (Sim.start Sim.pendingWorld Sim.serviceEnv) w2 g1)))
         = (Ret fs, s') /\
         out = FusionService.orZero (dstTokenAmount quote) /\
         p = recommendedPreset quote /\
         n = secretsCount presetData).
Proof.
  split; [lia|].
  apply (executeSwap_never_rejects 121 sampleRequest
           (Sim.start Sim.pendingWorld Sim.serviceEnv)).
  lia.
Defined.

(** An order that is accepted but never executed: the monitoring gives up
    after ten minutes, and the answer still says [success: true]. *)
Example executeSwap_timeout_run :
  fst (FusionService.executeSwap 121 sampleRequest
         (Sim.start Sim.pendingWorld Sim.serviceEnv)) =
  Ret (FusionService.SwapExecuted "0xorder" "4990000" "fast" 3
         (FusionService.MonitorFailed "Monitoring timed out after 10 minutes")).
Proof. vm_compute. reflexivity. Qed.

(** Without the signer's key the swap fails before the order is built. *)
Example executeSwap_failure_run :
  fst (FusionService.executeSwap 121 sampleRequest
         (Sim.start Sim.pendingWorld ∅)) =
  Ret (FusionService.SwapFailed
         "TEST_PRIVATE_KEY and INCH_API_KEY required for order submission").
Proof. vm_compute. reflexivity. Qed.

(** ** Termination of the scripts' monitoring loops *)

Section ScriptTermination.
Context `{HashLockApi} `{OrderApi} {W : Type} `{!Relayer W}.
Local Abbreviation M := (@M _ _ W).
Local Abbreviation St := (@St _ _ W).

#[local] Instance sameAttempts_preorder : StatePreorder (W := W) sameAttempts.
Proof.
  split.
  - intros s. reflexivity.
  - intros s1 s2 s3 E1 E2. unfold sameAttempts in *. congruence.
Qed.

Lemma SolToEvm_shareSecret_steady orderHash secrets i :
  steady sameAttempts (SolToEvm.shareSecret orderHash secrets i).
Proof.
  unfold SolToEvm.shareSecret.
  apply (steady_bind sameAttempts).
  { intros s. exists (alreadyShared s), s. split; reflexivity. }
  intros shared. destruct (decide _); [apply (steady_ret sameAttempts)|].
  apply (steady_tryCatch sameAttempts); [|intros e; apply (steady_ret sameAttempts)].
  apply (safe_bind sameAttempts).
  - apply safe_callSdk. intros s b. reflexivity.
  - intros _. apply steady_safe. intros s. eexists tt, _. split; reflexivity.
Qed.

(** One pass of the Solana -> EVM loop returns, and when the function goes
    on, the attempt counter went up by one. *)
Lemma SolToEvm_monitorStep_cases cfg orderHash secrets (s : St) :
  exists finished s',
    SolToEvm.monitorStep cfg orderHash secrets s = (Ret finished, s') /\
    (finished = false -> attempts s' = attempts s + 1).
Proof.
  unfold SolToEvm.monitorStep.
  assert (Hstatus : steady sameAttempts
            (tryCatch
               (let* order := getOrderStatus orderHash in
                if String.eqb (status order) "executed" then ret true
                else if String.eqb (status order) "expired"
                        || String.eqb (status order) "cancelled" then ret true
                else ret false)
               (fun _ : Thrown => ret false))).
  { apply (steady_tryCatch sameAttempts); [|intros e; apply (steady_ret sameAttempts)].
    apply (safe_bind sameAttempts).
    - apply safe_callSdk. intros s0 b. reflexivity.
    - intros order. apply steady_safe.
      destruct (String.eqb _ _); [apply (steady_ret sameAttempts)|].
      destruct (_ || _); apply (steady_ret sameAttempts). }
  destruct (Hstatus s) as (finished & s1 & Hrun1 & Hatt1).
  rewrite (bind_returns _ _ _ _ _ Hrun1).
  destruct finished; [by eexists true, _|].
  unfold bind at 1, tryCatch, bind at 1, getReadyToAcceptSecretFills, callSdk.
  destruct (sdk_getReadyToAcceptSecretFills orderHash (world s1)) as [[rd|e] w2].
  2:{ cbn. eexists false, _. split; [reflexivity|]. intros _. cbn.
      unfold sameAttempts in Hatt1. lia. }
  set (s2 := logCall _ (setWorld w2 s1)).
  assert (Hloop : exists s3,
            (match fills rd with
             | Some (f :: fs) =>
                 forOf (map idx (f :: fs)) (SolToEvm.shareSecret orderHash secrets)
             | _ => ret tt
             end) s2 = (Ret tt, s3) /\ sameAttempts s2 s3).
  { destruct (fills rd) as [[|f fs]|]; try (exists s2; split; reflexivity).
    destruct (steady_forOf sameAttempts (map idx (f :: fs)) _
                (SolToEvm_shareSecret_steady orderHash secrets) s2)
      as ([] & s3 & Hrun & Hl).
    eauto. }
  destruct Hloop as (s3 & Hrun & Hatt3).
  rewrite (bind_returns _ _ _ _ _ Hrun). cbn.
  eexists false, _. split; [reflexivity|]. intros _. cbn.
  unfold sameAttempts in *. subst s2. cbn in Hatt3. lia.
Qed.

Lemma SolToEvm_monitorLoop_terminates (fuel : nat) cfg orderHash secrets (s : St) :
  (Z.to_nat (SolToEvm.maxAttempts - attempts s) < fuel)%nat ->
  exists s', SolToEvm.monitorLoop fuel cfg orderHash secrets s = (Ret tt, s').
Proof.
  revert s. induction fuel as [|fuel IH]; intros s Hfuel; [lia|].
  cbn [SolToEvm.monitorLoop]. unfold bind at 1, getAttempts. cbv beta iota.
  destruct (Z.ltb_spec (attempts s) SolToEvm.maxAttempts) as [Hlt|Hge];
    [|by eexists].
  destruct (SolToEvm_monitorStep_cases cfg orderHash secrets s)
    as (finished & s1 & Hstep & Hatt).
  rewrite (bind_returns _ _ _ _ _ Hstep).
  destruct finished; [by eexists|].
  apply IH. rewrite (Hatt eq_refl). unfold SolToEvm.maxAttempts in *. lia.
Qed.

(** The Solana -> EVM loop always returns within 120 passes, whatever the
    relayer does. *)
Lemma SolToEvm_monitor_terminates (fuel : nat) cfg orderHash secrets (s : St) :
  (121 <= fuel)%nat ->
  exists s',
    SolToEvm.monitorAndSubmitSecrets fuel cfg orderHash secrets s = (Ret tt, s').
Proof.
  intros Hfuel. unfold SolToEvm.monitorAndSubmitSecrets, bind, sleep, putShared,
    putAttempts. cbv beta iota.
  apply SolToEvm_monitorLoop_terminates. cbn [attempts setAttempts].
  unfold SolToEvm.maxAttempts. lia.
Qed.

Lemma keeps_preorder (J : W -> Prop) : StatePreorder (keeps J).
Proof. split; unfold keeps; auto. Qed.

Lemma EvmToSol_shareSecret_steady (J : W -> Prop) orderHash secrets i :
  worldKeeps J -> steady (keeps J) (EvmToSol.shareSecret orderHash secrets i).
Proof.
  intros (_ & _ & Hsub & _). pose proof (keeps_preorder J).
  unfold EvmToSol.shareSecret.
  apply (steady_bind (keeps J)).
  { intros s. exists (alreadyShared s), s. split; [reflexivity|apply sp_refl]. }
  intros shared. destruct (decide _); [apply (steady_ret (keeps J))|].
  apply (steady_tryCatch (keeps J)); [|intros e; apply (steady_ret (keeps J))].
  apply (safe_bind (keeps J)).
  - apply safe_callSdk. intros s b. unfold keeps. cbn. apply Hsub.
  - intros _. apply steady_safe. intros s. eexists tt, _.
    split; [reflexivity|]. unfold keeps. cbn. auto.
Qed.

(** If the order is never reported executed, a pass of the EVM -> Solana
    loop never returns from the function. *)
Lemma EvmToSol_monitorStep_stuck (J : W -> Prop) cfg orderHash secrets (s : St) :
  worldKeeps J -> neverExecuted J -> J (world s) ->
  exists s',
    EvmToSol.monitorStep cfg orderHash secrets s = (Ret false, s') /\ J (world s').
Proof.
  intros Hkeeps Hnever HJ.
  pose proof Hkeeps as (Hst & Hrd & Hsub & Htm).
  unfold EvmToSol.monitorStep.
  unfold bind at 1, tryCatch at 1, bind at 1, getOrderStatus, callSdk.
  specialize (Hst orderHash (world s) HJ).
  specialize (Hnever orderHash (world s)).
  destruct (sdk_getOrderStatus orderHash (world s)) as [[st|e] w1];
    cbn in Hst, Hnever |- *.
  - rewrite (Hnever st HJ eq_refl). cbv beta iota.
    unfold bind at 1, tryCatch, bind at 1, getReadyToAcceptSecretFills, callSdk.
    cbn [world logCall setWorld].
    specialize (Hrd orderHash w1 Hst).
    destruct (sdk_getReadyToAcceptSecretFills orderHash w1) as [[rd|e] w2];
      cbn in Hrd |- *; [|eexists; split; [reflexivity|cbn; auto]].
    destruct (fills rd) as [fs|]; [|cbn; eexists; split; [reflexivity|cbn; auto]].
    cbn [ret bind].
    match goal with
    | |- context [bind (forOf ?xs ?body) _ ?s2] =>
        destruct (steady_forOf (keeps J) (StatePreorder0 := keeps_preorder J) xs body
                    (fun i => EvmToSol_shareSecret_steady J orderHash secrets i Hkeeps)
                    s2) as ([] & s3 & Hrun & Hl);
        rewrite (bind_returns _ _ _ _ _ Hrun)
    end.
    cbn. eexists; split; [reflexivity|]. cbn. apply Htm, Hl. cbn. exact Hrd.
  - cbv beta iota.
    unfold bind at 1, tryCatch, bind at 1, getReadyToAcceptSecretFills, callSdk.
    cbn [world logCall setWorld].
    specialize (Hrd orderHash w1 Hst).
    destruct (sdk_getReadyToAcceptSecretFills orderHash w1) as [[rd|e'] w2];
      cbn in Hrd |- *; [|eexists; split; [reflexivity|cbn; auto]].
    destruct (fills rd) as [fs|]; [|cbn; eexists; split; [reflexivity|cbn; auto]].
    cbn [ret bind].
    match goal with
    | |- context [bind (forOf ?xs ?body) _ ?s2] =>
        destruct (steady_forOf (keeps J) (StatePreorder0 := keeps_preorder J) xs body
                    (fun i => EvmToSol_shareSecret_steady J orderHash secrets i Hkeeps)
                    s2) as ([] & s3 & Hrun & Hl);
        rewrite (bind_returns _ _ _ _ _ Hrun)
    end.
    cbn. eexists; split; [reflexivity|]. cbn. apply Htm, Hl. cbn. exact Hrd.
Qed.

(** The EVM -> Solana loop has no bound of its own: as long as the order is
    not reported executed it never returns, whatever budget it is given. *)
Lemma EvmToSol_monitor_stuck (J : W -> Prop) (fuel : nat) cfg orderHash secrets (s : St) :
  worldKeeps J -> neverExecuted J -> J (world s) ->
  fst (EvmToSol.monitorAndSubmitSecrets fuel cfg orderHash secrets s) = OutOfFuel.
Proof.
  intros Hkeeps Hnever HJ.
  unfold EvmToSol.monitorAndSubmitSecrets, bind at 1, putShared. cbv beta iota.
  assert (Hloop : forall s0 : St, J (world s0) ->
            fst (EvmToSol.monitorLoop fuel cfg orderHash secrets s0) = OutOfFuel).
  { induction fuel as [|fuel IH]; intros s0 HJ0; [reflexivity|].
    cbn [EvmToSol.monitorLoop].
    destruct (EvmToSol_monitorStep_stuck J cfg orderHash secrets s0 Hkeeps Hnever HJ0)
      as (s1 & Hstep & HJ1).
    rewrite (bind_returns _ _ _ _ _ Hstep). apply IH, HJ1. }
  apply Hloop. exact HJ.
Qed.

End ScriptTermination.

(** ** The unbounded loop of the EVM -> Solana script *)

Lemma staysExpired_kept : worldKeeps staysExpired.
Proof.
  unfold worldKeeps, staysExpired. split; [|split; [|split]].
  - intros h w [Hst Hrest]. cbn. rewrite Hst. cbn. auto.
  - intros h w [Hst Hrest]. cbn. destruct (Sim.ready w); cbn; auto.
  - intros h x w [Hst Hrest]. cbn. destruct (Sim.rejects w); cbn; auto.
  - intros ms w [Hst Hrest]. cbn. auto.
Qed.

Lemma staysExpired_neverExecuted : neverExecuted staysExpired.
Proof.
  intros h w st [Hst Hrest]. cbn. rewrite Hst. cbn. intros [= <-].
  cbn. rewrite Hrest. reflexivity.
Qed.

(** C2 does not hold of the EVM -> Solana script.  On an order that has
    expired, its monitoring loop does not return within any number of
    passes: the loop is [while (true)], with neither a time-out nor a test
    for terminal states other than "executed". *)
Theorem EvmToSol_monitor_never_returns (fuel : nat) (cfg : EvmToSol.Config)
    (secrets : list string) :
  fst (EvmToSol.monitorAndSubmitSecrets fuel cfg "0xorder" secrets
         (Sim.start expiredWorld Sim.evmEnv)) = OutOfFuel.
Proof.
  apply (EvmToSol_monitor_stuck staysExpired).
  - apply staysExpired_kept.
  - apply staysExpired_neverExecuted.
  - split; reflexivity.
Qed.

(** The two other loops are bounded.  The Solana -> EVM loop returns within
    120 passes whatever the relayer does; it also returns at once on the
    terminal states "executed", "expired" and "cancelled".  The service's
    loop returns within 120 passes under the clock laws. *)
Theorem bounded_monitoring_terminates `{HashLockApi} `{OrderApi} {W : Type}
    `{!Relayer W} (fuel : nat) (orderHash : string) (secrets : list string)
    (cfg : SolToEvm.Config) (chainId : JsValue) (s : @St _ _ W) :
  (121 <= fuel)%nat ->
  (exists s',
     SolToEvm.monitorAndSubmitSecrets fuel cfg orderHash secrets s = (Ret tt, s')) /\
  (ClockLaws W ->
   exists r s',
     FusionService.monitorAndCompleteSwap fuel orderHash secrets chainId s = (Ret r, s')).
Proof.
  intros Hfuel. split.
  - by apply SolToEvm_monitor_terminates.
  - intros Hclock. by apply monitorAndCompleteSwap_returns.
Qed.

Lemma bounded_monitoring_terminates_witness :
  (121 <= 121)%nat /\
  (exists s',
     SolToEvm.monitorAndSubmitSecrets 121
       {| SolToEvm.signerPrivateKey := Some "key"; SolToEvm.maker := Some "maker";
          SolToEvm.receiver := Some "0xreceiver";
          SolToEvm.devPortalApiKey := Some "api-key";
          SolToEvm.solanaRpc := "https://api.mainnet-beta.solana.com";
          SolToEvm.sdkUrl := "https://api.1inch.dev/fusion-plus";
          SolToEvm.usdtEvm := "0xdac17f958d2ee523a2206206994597c13d831ec7";
          SolToEvm.usdtSolana := "Es9vMFrzaCERmJfrF4H2FYD4KCoNkY11McCe8BenwNYB";
          SolToEvm.amount := "5000000"; SolToEvm.pollInterval := 5000;
          SolToEvm.srcChainId := 501; SolToEvm.dstChainId := 1 |}
       "0xorder" ["s0"] (Sim.start expiredWorld Sim.solEnv) = (Ret tt, s')).
Proof.
  split; [lia|].
  apply (bounded_monitoring_terminates (W := Sim.scripted) 121 "0xorder" ["s0"] _
           (JsNumber 1) (Sim.start expiredWorld Sim.solEnv)).
  lia.
Defined.

(** On the expired order the Solana -> EVM loop returns at its first pass. *)
Example SolToEvm_monitor_expired_run :
  let run := SolToEvm.monitorAndSubmitSecrets 2
       {| SolToEvm.signerPrivateKey := Some "key"; SolToEvm.maker := Some "maker";
          SolToEvm.receiver := Some "0xreceiver";
          SolToEvm.devPortalApiKey := Some "api-key";
          SolToEvm.solanaRpc := "https://api.mainnet-beta.solana.com";
          SolToEvm.sdkUrl := "https://api.1inch.dev/fusion-plus";
          SolToEvm.usdtEvm := "0xdac17f958d2ee523a2206206994597c13d831ec7";
          SolToEvm.usdtSolana := "Es9vMFrzaCERmJfrF4H2FYD4KCoNkY11McCe8BenwNYB";
          SolToEvm.amount := "5000000"; SolToEvm.pollInterval := 5000;
          SolToEvm.srcChainId := 501; SolToEvm.dstChainId := 1 |}
       "0xorder" ["s0"] (Sim.start expiredWorld Sim.solEnv) in
  fst run = Ret tt /\ attempts (snd run) = 0.
Proof. vm_compute. split; reflexivity. Qed.

(** ** Request validation and environment checks *)

Section Validation.
Context `{HashLockApi} `{OrderApi} {W : Type} `{!Relayer W}.
Local Abbreviation M := (@M _ _ W).
Local Abbreviation St := (@St _ _ W).

(** C7. A POST to the quote endpoint whose body lacks one of the six
    required fields is answered with status 400 and [success: false]; the
    state is untouched, so no SDK call (in particular no [getQuote]) was
    made. *)
Theorem postQuote_missing_parameter (b : FusionRoutes.QuoteBody) (s : St) :
  FusionRoutes.srcChainId b = JsUndefined \/
  FusionRoutes.dstChainId b = JsUndefined \/
  FusionRoutes.srcTokenAddress b = JsUndefined \/
  FusionRoutes.dstTokenAddress b = JsUndefined \/
  FusionRoutes.amount b = JsUndefined \/
  FusionRoutes.walletAddress b = JsUndefined ->
  exists response,
    FusionRoutes.postQuote b s = (Ret response, s) /\
    FusionRoutes.statusCode response = 400 /\
    FusionRoutes.body_success (FusionRoutes.body response) = false /\
    calls (snd (FusionRoutes.postQuote b s)) = calls s /\
    world (snd (FusionRoutes.postQuote b s)) = world s.
Proof.
  intros Hmissing. unfold FusionRoutes.postQuote, tryCatch.
  assert (Hcond :
    negb (truthy (FusionRoutes.srcChainId b))
    || negb (truthy (FusionRoutes.dstChainId b))
    || negb (truthy (FusionRoutes.srcTokenAddress b))
    || negb (truthy (FusionRoutes.dstTokenAddress b))
    || negb (truthy (FusionRoutes.amount b))
    || negb (truthy (FusionRoutes.walletAddress b)) = true).
  { destruct Hmissing as [-> | [-> | [-> | [-> | [-> | ->]]]]]; cbn;
      rewrite ?orb_true_r; reflexivity. }
  rewrite Hcond. cbn. eexists. repeat split; reflexivity.
Qed.

Lemma forOf_checkEnv (keys : list string) (s : St) :
  (exists key, key ∈ keys /\ truthyStr (env s !! key) = false) ->
  forOf keys (fun key =>
    let* v := getEnv key in
    if truthyStr v then ret tt else processExit 1) s = (Exit 1, s).
Proof.
  induction keys as [|k keys IH]; intros (key & Hin & Hkey).
  - by apply elem_of_nil in Hin.
  - cbn [forOf]. unfold bind at 1, bind at 1, getEnv. cbv beta iota.
    destruct (truthyStr (env s !! k)) eqn:Hk; [|reflexivity].
    cbn. apply IH. exists key. split; [|exact Hkey].
    apply elem_of_cons in Hin as [->|Hin]; [congruence|exact Hin].
Qed.

(** C8. Each of the two scripts, started with one of its four required
    environment variables unset, exits with code 1 and leaves the state
    untouched: no quote was asked, no order submitted, no secret drawn. *)
Theorem script_exits_on_missing_env (fuel : nat) (s : St) :
  ((exists key, key ∈ EvmToSol.requiredEnvVars /\ env s !! key = None) ->
   EvmToSol.script fuel s = (Exit 1, s)) /\
  ((exists key, key ∈ SolToEvm.requiredEnvVars /\ env s !! key = None) ->
   SolToEvm.script fuel s = (Exit 1, s)).
Proof.
  split; intros (key & Hin & Hnone).
  - unfold EvmToSol.script, bind, EvmToSol.checkEnv.
    rewrite forOf_checkEnv; [reflexivity|].
    exists key. split; [exact Hin|]. by rewrite Hnone.
  - unfold SolToEvm.script, bind, SolToEvm.checkEnv.
    rewrite forOf_checkEnv; [reflexivity|].
    exists key. split; [exact Hin|]. by rewrite Hnone.
Qed.

End Validation.

Lemma postQuote_missing_parameter_witness :
  FusionRoutes.amount bodyWithoutAmount = JsUndefined /\
  exists response,
    FusionRoutes.postQuote bodyWithoutAmount (Sim.start Sim.busyWorld Sim.serviceEnv)
      = (Ret response, Sim.start Sim.busyWorld Sim.serviceEnv) /\
    FusionRoutes.statusCode response = 400 /\
    FusionRoutes.body_success (FusionRoutes.body response) = false.
Proof.
  split; [reflexivity|].
  destruct (postQuote_missing_parameter bodyWithoutAmount
              (Sim.start Sim.busyWorld Sim.serviceEnv))
    as (response & Hrun & Hstatus & Hbody & _).
  { right. right. right. right. left. reflexivity. }
  exists response. auto.
Defined.

(** A complete body reaches the SDK and is answered with the quote. *)
Example postQuote_complete_run :
  let run := FusionRoutes.postQuote
    {| FusionRoutes.srcChainId := JsNumber 8453;
       FusionRoutes.dstChainId := JsNumber 137;
       FusionRoutes.srcTokenAddress := JsString "0xEeeeeEeeeEeEeeEeEeEeeEEEeeeeEeeeeeeeEEeE";
       FusionRoutes.dstTokenAddress := JsString "0x2791Bca1f2de4661ED88A30C99A7a9449Aa84174";
       FusionRoutes.amount := JsString "125000000000000";
       FusionRoutes.walletAddress := JsString "0x0b07ab58f72d13150Fcd119700aae76d9D161138" |}
    (Sim.start Sim.busyWorld Sim.serviceEnv) in
  FusionRoutes.statusCode <$> (match fst run with Ret r => Some r | _ => None end) = Some 200 /\
  length (calls (snd run)) = 1%nat.
Proof. vm_compute. split; reflexivity. Qed.

Lemma script_exits_on_missing_env_witness :
  (exists key, key ∈ EvmToSol.requiredEnvVars /\
               env (Sim.start Sim.busyWorld envWithoutMaker) !! key = None) /\
  EvmToSol.script 10 (Sim.start Sim.busyWorld envWithoutMaker)
  = (Exit 1, Sim.start Sim.busyWorld envWithoutMaker).
Proof.
  assert (Hmissing : exists key, key ∈ EvmToSol.requiredEnvVars /\
            env (Sim.start Sim.busyWorld envWithoutMaker) !! key = None).
  { exists "MAKER_ADDRESS". split; [|vm_compute; reflexivity].
    unfold EvmToSol.requiredEnvVars. apply elem_of_cons. right.
    apply elem_of_cons. left. reflexivity. }
  split; [exact Hmissing|].
  apply (proj1 (script_exits_on_missing_env 10
                  (Sim.start Sim.busyWorld envWithoutMaker))).
  exact Hmissing.
Defined.

(** * Further properties of the code *)

(** ** Secrets *)

Lemma hexValue_hexDigit (n : N) : (n < 16)%N -> hexValue (hexDigit n) = n.
Proof.
  intros Hn. destruct n as [|p]; [reflexivity|].
  do 4 (destruct p as [p|p|]; try reflexivity); lia.
Qed.

Lemma fromHex_toHex (bs : list Byte.byte) : fromHex (toHex bs) = map Some bs.
Proof.
  induction bs as [|b bs IH]; [reflexivity|].
  cbn [toHex fromHex map]. rewrite IH. f_equal.
  pose proof (Byte.to_N_bounded b) as Hb.
  rewrite !hexValue_hexDigit.
  - rewrite <- N.div_mod by lia. apply Byte.of_to_N.
  - apply N.mod_lt. lia.
  - apply N.Div0.div_lt_upper_bound. lia.
Qed.

Lemma toHex_injective (bs bs' : list Byte.byte) : toHex bs = toHex bs' -> bs = bs'.
Proof.
  intros Heq. apply (f_equal fromHex) in Heq. rewrite !fromHex_toHex in Heq.
  revert bs' Heq. induction bs as [|b bs IH]; intros [|b' bs'] Heq;
    try discriminate; [reflexivity|].
  cbn in Heq. injection Heq as -> Hrest. f_equal. by apply IH.
Qed.

Lemma prefix0x_injective (a b : string) : "0x" +:+ a = "0x" +:+ b -> a = b.
Proof.
  intros Heq. change (String "0" (String "x" a) = String "0" (String "x" b)) in Heq.
  by injection Heq.
Qed.

(** X1. Two generated secrets are the same text only if the 32 random bytes
    behind them are the same: the encoding loses nothing. *)
Theorem generateSecret_injective (g1 g2 : Rng) :
  fst (SecretManager.generateSecret g1) = fst (SecretManager.generateSecret g2) ->
  fst (randomBytes 32 g1) = fst (randomBytes 32 g2).
Proof.
  unfold SecretManager.generateSecret, randomBytes. cbn [fst].
  rewrite !add0x_toHex. intros Heq.
  by apply toHex_injective, prefix0x_injective.
Qed.

Lemma generateSecret_injective_witness :
  fst (SecretManager.generateSecret {| tape := Sim.counterTape; cursor := 0 |})
  = fst (SecretManager.generateSecret {| tape := Sim.counterTape; cursor := 256 |}) /\
  fst (randomBytes 32 {| tape := Sim.counterTape; cursor := 0 |})
  = fst (randomBytes 32 {| tape := Sim.counterTape; cursor := 256 |}).
Proof.
  split; [vm_compute; reflexivity|].
  apply (generateSecret_injective {| tape := Sim.counterTape; cursor := 0 |}
           {| tape := Sim.counterTape; cursor := 256 |}).
  vm_compute. reflexivity.
Defined.

(** Secrets drawn at different positions of one call differ as soon as
    the bytes drawn differ. *)
Example generateSecrets_distinct_run :
  exists secrets,
    fst (SecretManager.generateSecrets 3 {| tape := Sim.counterTape; cursor := 0 |})
    = Ok secrets /\
    NoDup secrets.
Proof.
  eexists. split; [vm_compute; reflexivity|].
  repeat constructor; cbn; intros Hin;
    repeat (apply elem_of_cons in Hin as [Hin|Hin]; [discriminate|]);
    by apply elem_of_nil in Hin.
Qed.

Section SecretDataProps.
Context `{HashLockApi}.

(** X2. [createSecretData(n)] for [n >= 0].  Up to the largest array length
    it draws the [n] secrets, consuming [32 * n] bytes of entropy, and then
    returns exactly when [createHashLock] returns on them: the data hold
    the secrets, their hashes in the same order, and that hash-lock.  When
    the hash-lock construction throws, [createSecretData] throws the same
    exception; with the SDK this happens for [n = 0] (a single-fill lock of
    an undefined secret, an edge the code does not guard) and for [n = 2]
    (fewer than three leaves).  Beyond the largest array length it throws a
    [RangeError] and draws nothing. *)
Theorem createSecretData_spec (n : Z) (g : Rng) :
  0 <= n ->
  (n <= maxArrayLength ->
   snd (SecretManager.createSecretData n g)
   = {| tape := tape g; cursor := (cursor g + 32 * Z.to_nat n)%nat |} /\
   fst (SecretManager.createSecretData n g)
   = andThen (SecretManager.createHashLock (map (secretOfDraw g) (seq 0 (Z.to_nat n))))
       (fun lock =>
          Ok {| SecretManager.secrets := map (secretOfDraw g) (seq 0 (Z.to_nat n));
                SecretManager.secretHashes :=
                  map hashSecret (map (secretOfDraw g) (seq 0 (Z.to_nat n)));
                SecretManager.hashLock := lock |}) /\
   length (map hashSecret (map (secretOfDraw g) (seq 0 (Z.to_nat n)))) = Z.to_nat n /\
   (HashLockLaws -> n = 0 \/ n = 2 ->
    exists e, fst (SecretManager.createSecretData n g) = Err e)) /\
  (maxArrayLength < n ->
   SecretManager.createSecretData n g = (Err (newError "Invalid array length"), g)).
Proof.
  intros Hn. split.
  - intros Hmax. unfold SecretManager.createSecretData.
    rewrite (generateSecrets_returns n g Hmax). cbn [fst snd andThen].
    split; [reflexivity|]. split; [reflexivity|].
    split; [by rewrite !length_map, length_seq|].
    intros Hlaws Hcases.
    assert (Hthrows : exists e,
              SecretManager.createHashLock (map (secretOfDraw g) (seq 0 (Z.to_nat n)))
              = Err e).
    { destruct Hcases as [-> | ->].
      - change (map (secretOfDraw g) (seq 0 (Z.to_nat 0))) with (@nil string).
        rewrite (proj1 hashLock_constructions_empty).
        destruct (getMerkleLeaves []) as [leaves|e]; cbn; [|eauto].
        apply singleFill_refuses.
      - apply createHashLock_two. by rewrite length_map, length_seq. }
    destruct Hthrows as [e ->]. cbn. eauto.
  - intros Hmax. unfold SecretManager.createSecretData.
    rewrite (generateSecrets_throws n g Hmax). reflexivity.
Qed.

End SecretDataProps.

Lemma createSecretData_spec_witness :
  0 <= 3 /\
  fst (SecretManager.createSecretData (H := Symbolic.api) 3
         {| tape := Sim.counterTape; cursor := 0 |})
  = andThen
      (SecretManager.createHashLock (H := Symbolic.api)
         (map (secretOfDraw {| tape := Sim.counterTape; cursor := 0 |})
              (seq 0 (Z.to_nat 3))))
      (fun lock =>
         Ok {| SecretManager.secrets :=
                 map (secretOfDraw {| tape := Sim.counterTape; cursor := 0 |})
                     (seq 0 (Z.to_nat 3));
               SecretManager.secretHashes :=
                 map (hashSecret (HashLockApi := Symbolic.api))
                     (map (secretOfDraw {| tape := Sim.counterTape; cursor := 0 |})
                          (seq 0 (Z.to_nat 3)));
               SecretManager.hashLock := lock |}).
Proof.
  split; [lia|].
  apply (createSecretData_spec (H := Symbolic.api) 3
           {| tape := Sim.counterTape; cursor := 0 |}); unfold maxArrayLength; lia.
Defined.

(** Three secrets give their data; two give none, and the entropy is spent
    all the same. *)
Example createSecretData_run :
  (exists data,
     fst (SecretManager.createSecretData (H := Symbolic.api) 3
            {| tape := Sim.counterTape; cursor := 0 |}) = Ok data /\
     length (SecretManager.secrets data) = 3%nat /\
     length (SecretManager.secretHashes data) = 3%nat) /\
  SecretManager.createSecretData (H := Symbolic.api) 2
    {| tape := Sim.counterTape; cursor := 0 |}
  = (Err (newError "leaves array must be greater than 2. Or use HashLock.forSingleFill"),
     {| tape := Sim.counterTape; cursor := 64 |}).
Proof. split; [eexists; split; [vm_compute; reflexivity|split; reflexivity]|reflexivity]. Qed.

(** ** Chain RPC addresses *)

(** X3. [getChainRPC] gives every chain the same address scheme: for a chain
    id that is a safe integer (at most [2^53 - 1] in absolute value, where
    the template literal prints the decimal numeral) the result is the web3
    prefix followed by the chain id, because the table of five chains holds
    exactly the addresses the fall-back would build.  In
    [getSupportedChains] every chain but Solana (900) has that address. *)
Theorem getChainRPC_uniform (chainId : Z) :
  Z.abs chainId <= FusionService.maxSafeInteger ->
  FusionService.getChainRPC chainId
  = Some ("https://api.1inch.dev/web3/" +:+ pretty chainId) /\
  Forall (fun entry =>
            fst entry <> 900 ->
            FusionService.chain_rpc (snd entry)
            = Some ("https://api.1inch.dev/web3/" +:+ pretty (fst entry)))
         FusionService.getSupportedChains.
Proof.
  intros Hsafe. split.
  - unfold FusionService.getChainRPC, FusionService.rpcUrls.
    destruct (decide (chainId = 1)) as [->|]; [vm_compute; reflexivity|].
    destruct (decide (chainId = 8453)) as [->|]; [vm_compute; reflexivity|].
    destruct (decide (chainId = 42161)) as [->|]; [vm_compute; reflexivity|].
    destruct (decide (chainId = 137)) as [->|]; [vm_compute; reflexivity|].
    destruct (decide (chainId = 10)) as [->|]; [vm_compute; reflexivity|].
    rewrite !lookup_insert_ne by done. rewrite lookup_singleton_ne by done.
    unfold FusionService.numberToString.
    destruct (Z.leb_spec (Z.abs chainId) FusionService.maxSafeInteger); [reflexivity|lia].
  - unfold FusionService.getSupportedChains.
    repeat (constructor; [cbn [fst snd FusionService.chain_rpc]; intros Hne;
                          first [done | vm_compute; reflexivity]|]).
    constructor.
Qed.

Lemma getChainRPC_uniform_witness :
  Z.abs 56 <= FusionService.maxSafeInteger /\
  FusionService.getChainRPC 56 = Some ("https://api.1inch.dev/web3/" +:+ pretty 56).
Proof.
  split; [unfold FusionService.maxSafeInteger; lia|].
  apply (getChainRPC_uniform 56). unfold FusionService.maxSafeInteger. lia.
Defined.

(** ** The HTTP handlers *)

Section Handlers.
Context `{HashLockApi} `{OrderApi} {W : Type} `{!Relayer W}.
Local Abbreviation M := (@M _ _ W).
Local Abbreviation St := (@St _ _ W).

(** The run of [FusionService.getQuote], by what the SDK answers. *)
Lemma getQuote_cases (params : QuoteParams) (s : St) :
  match sdk_getQuote params (world s) with
  | (Ok quote, w1) =>
      match presets quote with
      | Some keys =>
          FusionService.getQuote params s
          = (Ret {| FusionService.qr_estimatedOutput :=
                      FusionService.orZero (dstTokenAmount quote);
                    FusionService.qr_presets := keys;
                    FusionService.qr_recommendedPreset := recommendedPreset quote;
                    FusionService.qr_quoteId := quoteId quote |},
             logCall {| call := CGetQuote params; returned := true |} (setWorld w1 s))
      | None =>
          FusionService.getQuote params s
          = (Throw (newError ("Quote failed: " +:+
                              "Cannot convert undefined or null to object")),
             logCall {| call := CGetQuote params; returned := true |} (setWorld w1 s))
      end
  | (Err e, w1) =>
      FusionService.getQuote params s
      = (Throw (newError ("Quote failed: " +:+ messageOr "Unknown error" e)),
         logCall {| call := CGetQuote params; returned := false |} (setWorld w1 s))
  end.
Proof.
  unfold FusionService.getQuote, tryCatch, bind, sdkGetQuote, callSdk,
    FusionService.presetKeys.
  destruct (sdk_getQuote params (world s)) as [[quote|e] w1]; [|reflexivity].
  destruct (presets quote); reflexivity.
Qed.

(** X4. [FusionService.getQuote] makes exactly one SDK call and turns every
    failure into an [Error] whose message starts with "Quote failed: ": it
    returns exactly when the SDK returned a quote that has presets, and
    otherwise throws such an error -- also when the SDK threw something that
    is not an [Error]. *)
Theorem getQuote_wraps_errors (params : QuoteParams) (s : St) :
  let run := FusionService.getQuote params s in
  (exists ok, calls (snd run)
              = (calls s ++ [{| call := CGetQuote params; returned := ok |}])%list) /\
  ((exists q, fst run = Ret q) <->
   (exists quote keys,
      fst (sdk_getQuote params (world s)) = Ok quote /\ presets quote = Some keys)) /\
  ((exists q, fst run = Ret q) \/
   (exists msg, fst run = Throw (newError ("Quote failed: " +:+ msg)))).
Proof.
  cbv zeta. unfold FusionService.getQuote, tryCatch, bind, sdkGetQuote, callSdk,
    FusionService.presetKeys.
  destruct (sdk_getQuote params (world s)) as [[quote|e] w1]; cbn.
  - destruct (presets quote) as [keys|] eqn:Hkeys; cbn.
    + split; [eauto|]. split; [|eauto]. split; [intros _|eauto].
      exists quote, keys. split; [reflexivity|exact Hkeys].
    + split; [eauto|]. split; [|eauto].
      split; [intros [q Hq]; discriminate|].
      intros (q & k & [= <-] & Hk). congruence.
  - split; [eauto|]. split; [|eauto].
    split; [intros [q Hq]; discriminate|intros (q & k & Hq & _); discriminate].
Qed.

Lemma quoteBodyIncomplete_spec (b : FusionRoutes.QuoteBody) :
  negb (truthy (FusionRoutes.srcChainId b))
  || negb (truthy (FusionRoutes.dstChainId b))
  || negb (truthy (FusionRoutes.srcTokenAddress b))
  || negb (truthy (FusionRoutes.dstTokenAddress b))
  || negb (truthy (FusionRoutes.amount b))
  || negb (truthy (FusionRoutes.walletAddress b)) = quoteBodyIncomplete b.
Proof.
  unfold quoteBodyIncomplete. cbn [existsb]. rewrite orb_false_r, !orb_assoc.
  reflexivity.
Qed.

(** X5. [POST /quote] always answers, with status 400, 200 or 500.  A body
    with a falsy required field (absent, [null], [0], [""], [false]) gets 400
    and no SDK call.  A complete body is forwarded unchanged, with
    [enableEstimate] set, in exactly one [getQuote] call.  The answer is 200
    with [success: true] and the quote of [FusionService.getQuote] exactly
    when the SDK gave a quote that has presets; otherwise it is 500 with
    the message of the error [FusionService.getQuote] threw, a text that
    starts with "Quote failed: ". *)
Theorem postQuote_answers (b : FusionRoutes.QuoteBody) (s : St) :
  exists response s',
    FusionRoutes.postQuote b s = (Ret response, s') /\
    if quoteBodyIncomplete b then
      FusionRoutes.statusCode response = 400 /\
      FusionRoutes.body_success (FusionRoutes.body response) = false /\ s' = s
    else
      (exists ok, calls s' = (calls s ++ [{| call := CGetQuote (forwardedQuote b);
                                             returned := ok |}])%list) /\
      match FusionService.getQuote (forwardedQuote b) s with
      | (Ret quote, s1) =>
          response = {| FusionRoutes.statusCode := 200;
                        FusionRoutes.body := FusionRoutes.QuoteJson quote |} /\
          FusionRoutes.body_success (FusionRoutes.body response) = true /\
          s' = s1
      | (Throw e, s1) =>
          response = {| FusionRoutes.statusCode := 500;
                        FusionRoutes.body :=
                          FusionRoutes.Failure (messageOr "Quote failed" e) |} /\
          (exists msg, FusionRoutes.body response
                       = FusionRoutes.Failure ("Quote failed: " +:+ msg)) /\
          s' = s1
      | _ => False
      end /\
      (FusionRoutes.statusCode response = 200 <->
       exists quote keys,
         fst (sdk_getQuote (forwardedQuote b) (world s)) = Ok quote /\
         presets quote = Some keys) /\
      (FusionRoutes.statusCode response = 200 \/
       FusionRoutes.statusCode response = 500).
Proof.
  unfold FusionRoutes.postQuote. rewrite quoteBodyIncomplete_spec.
  destruct (quoteBodyIncomplete b).
  { cbn. eexists _, _. split; [reflexivity|]. repeat split. }
  fold (forwardedQuote b).
  pose proof (getQuote_cases (forwardedQuote b) s) as Hcases.
  unfold tryCatch, bind.
  destruct (sdk_getQuote (forwardedQuote b) (world s)) as [[quote|e] w1];
    [destruct (presets quote) as [keys|] eqn:Hkeys|];
    rewrite Hcases; cbn; eexists _, _; (split; [reflexivity|]);
    (split; [eauto|]); (split; [eauto|]).
  - split; [|by left]. split; [eauto|reflexivity].
  - split; [|by right]. split; [discriminate|]. intros (q & k & [= <-] & Hk). congruence.
  - split; [|by right]. split; [discriminate|]. intros (q & k & Hq & _). discriminate.
Qed.

(** X6. [FusionService.getOrderStatus] and its route: one status call; the
    answer is 200 with the SDK's status when the call returned, and 500
    otherwise, with the thrown error's message, or the fixed text when the
    thrown value is not an [Error]. *)
Theorem getOrderStatusRoute_answers (orderHash : string) (s : St) :
  let answer := sdk_getOrderStatus orderHash (world s) in
  exists response s',
    FusionRoutes.getOrderStatusRoute orderHash s = (Ret response, s') /\
    world s' = snd answer /\
    match fst answer with
    | Ok st =>
        response = {| FusionRoutes.orderStatusCode := 200;
                      FusionRoutes.orderStatusBody := FusionRoutes.StatusData st |} /\
        calls s' = (calls s ++ [{| call := CGetOrderStatus orderHash;
                                   returned := true |}])%list
    | Err e =>
        response = {| FusionRoutes.orderStatusCode := 500;
                      FusionRoutes.orderStatusBody :=
                        FusionRoutes.StatusFailure
                          (messageOr "Failed to get order status" e) |} /\
        calls s' = (calls s ++ [{| call := CGetOrderStatus orderHash;
                                   returned := false |}])%list
    end.
Proof.
  cbv zeta. unfold FusionRoutes.getOrderStatusRoute, FusionService.getOrderStatus,
    tryCatch, bind, getOrderStatus, callSdk.
  destruct (sdk_getOrderStatus orderHash (world s)) as [[st|e] w1]; cbn;
    eexists _, _; repeat split.
Qed.

End Handlers.

Section SwapHandlers.
Context `{HashLockApi} `{OrderApi} {W : Type} `{!Relayer W}.
Local Abbreviation M := (@M _ _ W).
Local Abbreviation St := (@St _ _ W).
#[local] Existing Instance anyState_preorder.

Lemma safe_tryCatch {A} (m : M A) (h : Thrown -> M A) :
  safe anyState m -> (forall e, safe anyState (h e)) -> safe anyState (tryCatch m h).
Proof.
  intros Hm Hh s. unfold tryCatch. specialize (Hm s).
  destruct (m s) as [[a|e|c|] s1]; try done.
  specialize (Hh e s1). by destruct (h e s1) as [[b|e'|c|] s2].
Qed.

Lemma safe_any_call {A} c (op : W -> Outcome A * W) : safe anyState (callSdk c op).
Proof. apply safe_callSdk. intros s b. exact I. Qed.

Lemma safe_any_ready orderHash :
  safe (W := W) anyState (getReadyToAcceptSecretFills orderHash).
Proof. apply safe_getReady. intros s R b. exact I. Qed.

Lemma safe_withRng {A} (f : Rng -> Outcome A * Rng) :
  safe (W := W) anyState (withRng f).
Proof. intros s. unfold withRng. by destruct (f (rng s)) as [[a|e] g]. Qed.

(** The body of [executeSwap] ends by returning or throwing, and
    [executeSwap] itself by returning. *)
Lemma executeSwap_steady `{!ClockLaws W} (fuel : nat)
    (params : FusionService.SwapRequest) :
  (121 <= fuel)%nat -> steady anyState (FusionService.executeSwap fuel params).
Proof.
  intros Hfuel.
  unfold FusionService.executeSwap, FusionService.submitAndMonitor,
    FusionService.onSwapError.
  apply (steady_tryCatch anyState); [|intros e; apply (steady_ret anyState)].
  apply (safe_bind anyState); [apply safe_any_call|]. intros quote.
  apply (safe_bind anyState).
  { unfold FusionService.presetKeys. destruct (presets quote);
      [apply steady_safe, (steady_ret anyState)|apply (safe_throw anyState)]. }
  intros _. apply (safe_bind anyState); [apply getSDKWithSigner_safe|]. intros _.
  apply (safe_bind anyState); [apply (safe_ofOutcome anyState)|]. intros presetData.
  apply (safe_bind anyState); [apply safe_withRng|]. intros secrets.
  apply (safe_bind anyState); [apply (safe_ofOutcome anyState)|]. intros hashLock.
  apply (safe_bind anyState); [apply (safe_ofOutcome anyState)|]. intros receiver.
  apply (safe_bind anyState); [apply (safe_ofOutcome anyState)|]. intros order.
  apply safe_tryCatch.
  - apply (safe_bind anyState); [apply safe_any_call|]. intros orderHash.
    apply steady_safe. apply (steady_bind anyState).
    + intros s.
      destruct (monitorAndCompleteSwap_returns fuel orderHash secrets
                  (FusionService.srcChainId params) s Hfuel) as (r & s' & Hrun).
      by exists r, s'.
    + intros finalResult. apply (steady_ret anyState).
  - intros e. unfold FusionService.onSubmitError.
    destruct e as [| |o]; try apply (safe_throw anyState).
    destruct (err_responseData o); apply (safe_throw anyState).
Qed.

Lemma swapBodyIncomplete_spec (b : FusionService.SwapRequest) :
  negb (truthy (FusionService.srcChainId b))
  || negb (truthy (FusionService.dstChainId b))
  || negb (truthy (FusionService.srcTokenAddress b))
  || negb (truthy (FusionService.dstTokenAddress b))
  || negb (truthy (FusionService.amount b))
  || negb (truthy (FusionService.walletAddress b))
  || negb (truthy (FusionService.receiverAddress b)) = swapBodyIncomplete b.
Proof.
  unfold swapBodyIncomplete. cbn [existsb]. rewrite orb_false_r, !orb_assoc.
  reflexivity.
Qed.

(** X7. [POST /swap/execute] answers 400 or 200, never 500.  A body with a
    falsy required field gets 400 and no SDK call.  Any other body gets 200
    with the object [executeSwap] returned -- also when that object says
    [success: false]: a failed swap is reported in the body, not in the
    status. *)
Theorem postSwapExecute_answers `{!ClockLaws W} (fuel : nat)
    (b : FusionService.SwapRequest) (s : St) :
  (121 <= fuel)%nat ->
  exists response s',
    FusionRoutes.postSwapExecute fuel b s = (Ret response, s') /\
    if swapBodyIncomplete b then
      response = {| FusionRoutes.swapStatus := 400;
                    FusionRoutes.swapBody :=
                      FusionRoutes.SwapFailure "Missing required parameters" |} /\
      s' = s
    else
      exists result,
        FusionService.executeSwap fuel
          (withPreset (FusionRoutes.jsOr (FusionService.preset b) (JsString "fast")) b) s
        = (Ret result, s') /\
        response = {| FusionRoutes.swapStatus := 200;
                      FusionRoutes.swapBody := FusionRoutes.SwapJson result |} /\
        FusionRoutes.swap_success (FusionRoutes.swapBody response)
        = FusionService.success result.
Proof.
  intros Hfuel. unfold FusionRoutes.postSwapExecute.
  rewrite swapBodyIncomplete_spec.
  destruct (swapBodyIncomplete b).
  { cbn. eexists _, _. split; [reflexivity|]. split; reflexivity. }
  fold (withPreset (FusionRoutes.jsOr (FusionService.preset b) (JsString "fast")) b).
  destruct (executeSwap_steady fuel
              (withPreset (FusionRoutes.jsOr (FusionService.preset b) (JsString "fast")) b)
              Hfuel s) as (result & s' & Hrun & _).
  unfold tryCatch. rewrite (bind_returns _ _ _ _ _ Hrun). cbn.
  eexists _, _. split; [reflexivity|]. exists result. repeat split. exact Hrun.
Qed.

(** X8. The [preset] of a swap request has no effect: [executeSwap] always
    uses the quote's recommended preset, so two requests that differ only in
    [preset] lead to the same SDK calls, the same final state and the same
    answer, from [executeSwap] and from [POST /swap/execute]. *)
Theorem swap_preset_ignored (fuel : nat) (b : FusionService.SwapRequest)
    (p : JsValue) (s : St) :
  FusionService.executeSwap fuel (withPreset p b) s = FusionService.executeSwap fuel b s /\
  FusionRoutes.postSwapExecute fuel (withPreset p b) s
  = FusionRoutes.postSwapExecute fuel b s.
Proof.
  assert (Hexec : forall q, FusionService.executeSwap fuel (withPreset q b) s
                            = FusionService.executeSwap fuel b s).
  { intros q. destruct b. reflexivity. }
  split; [apply Hexec|].
  unfold FusionRoutes.postSwapExecute, tryCatch. cbn [withPreset
    FusionService.srcChainId FusionService.dstChainId FusionService.srcTokenAddress
    FusionService.dstTokenAddress FusionService.amount FusionService.walletAddress
    FusionService.receiverAddress FusionService.preset].
  destruct (_ || _); [reflexivity|].
  unfold bind.
  pose proof (Hexec (FusionRoutes.jsOr p (JsString "fast"))) as H1.
  pose proof (Hexec (FusionRoutes.jsOr (FusionService.preset b) (JsString "fast"))) as H2.
  unfold withPreset in H1, H2. rewrite H1, H2. reflexivity.
Qed.

(** X9. The two test swap endpoints report [success: true] with status 200
    whatever [executeSwap] returned, wrapping its object as [data]; a failed
    swap is only visible inside [data].  [POST /swap/test-eth-to-solana]
    answers 400 without any SDK call when [solanaReceiver] is falsy, and
    otherwise swaps from chain 1 to chain 900 with the amount defaulting to
    "5000000"; the Base-to-Polygon endpoint has no validation at all. *)
Theorem test_swaps_report_success `{!ClockLaws W} (fuel : nat)
    (b : FusionRoutes.TestSwapBody) (amount : JsValue) (s : St) :
  (121 <= fuel)%nat ->
  (exists response s',
     FusionRoutes.postTestEthToSolana fuel b s = (Ret response, s') /\
     if truthy (FusionRoutes.ts_solanaReceiver b) then
       exists result message,
         FusionService.executeSwap fuel
           (FusionRoutes.ethToSolanaRequest (FusionRoutes.ts_amount b)
              (FusionRoutes.ts_solanaReceiver b) (env s !! "TEST_MAKER_ADDRESS")) s
         = (Ret result, s') /\
         response = {| FusionRoutes.swapStatus := 200;
                       FusionRoutes.swapBody := FusionRoutes.SwapData result message |} /\
         FusionRoutes.swap_success (FusionRoutes.swapBody response) = true
     else
       FusionRoutes.swapStatus response = 400 /\
       FusionRoutes.swap_success (FusionRoutes.swapBody response) = false /\ s' = s) /\
  (exists response s' result message,
     FusionRoutes.postTestBaseEthToPolygon fuel amount s = (Ret response, s') /\
     FusionService.executeSwap fuel
       (FusionRoutes.baseToPolygonRequest amount (env s !! "TEST_MAKER_ADDRESS")
          (env s !! "TEST_RECEIVER_ADDRESS")) s
     = (Ret result, s') /\
     response = {| FusionRoutes.swapStatus := 200;
                   FusionRoutes.swapBody := FusionRoutes.SwapData result message |} /\
     FusionRoutes.swap_success (FusionRoutes.swapBody response) = true).
Proof.
  intros Hfuel. split.
  - unfold FusionRoutes.postTestEthToSolana.
    destruct (truthy (FusionRoutes.ts_solanaReceiver b)); cbn [negb].
    + destruct (executeSwap_steady fuel
                  (FusionRoutes.ethToSolanaRequest (FusionRoutes.ts_amount b)
                     (FusionRoutes.ts_solanaReceiver b) (env s !! "TEST_MAKER_ADDRESS"))
                  Hfuel s) as (result & s' & Hrun & _).
      unfold tryCatch, bind at 1, getEnv. cbv beta iota.
      rewrite (bind_returns _ _ _ _ _ Hrun). cbn.
      eexists _, _. split; [reflexivity|]. eexists _, _. repeat split. exact Hrun.
    + cbn. eexists _, _. split; [reflexivity|]. repeat split.
  - unfold FusionRoutes.postTestBaseEthToPolygon.
    destruct (executeSwap_steady fuel
                (FusionRoutes.baseToPolygonRequest amount (env s !! "TEST_MAKER_ADDRESS")
                   (env s !! "TEST_RECEIVER_ADDRESS"))
                Hfuel s) as (result & s' & Hrun & _).
    unfold tryCatch, bind at 1, getEnv. cbv beta iota.
    unfold bind at 1. cbv beta iota.
    rewrite (bind_returns _ _ _ _ _ Hrun). cbn.
    eexists _, _, _, _. split; [reflexivity|]. repeat split. exact Hrun.
Qed.

End SwapHandlers.

(** ** How the scripts end *)

Section ScriptEndings.
Context `{HashLockApi} `{OrderApi} {W : Type} `{!Relayer W}.
Local Abbreviation M := (@M _ _ W).
Local Abbreviation St := (@St _ _ W).
#[local] Existing Instance anyState_preorder.

Lemma ends_weaken {A} (t e f t' e' f' : bool) (m : M A) :
  (t = true -> t' = true) -> (e = true -> e' = true) -> (f = true -> f' = true) ->
  ends t e f m -> ends t' e' f' m.
Proof.
  intros Ht He Hf Hm s. specialize (Hm s). unfold endsAs in *.
  destruct (fst (m s)); intuition.
Qed.

Lemma safe_ends {A} (m : M A) : safe anyState m -> ends true false false m.
Proof.
  intros Hm s. specialize (Hm s). destruct (m s) as [[a|e|c|] s1]; cbn; done.
Qed.

Lemma ends_bind {A B} (t e f : bool) (m : M A) (k : A -> M B) :
  ends t e f m -> (forall a, ends t e f (k a)) -> ends t e f (bind m k).
Proof.
  intros Hm Hk s. unfold bind. specialize (Hm s).
  destruct (m s) as [[a|x|c|] s1]; cbn in *; try done. apply Hk.
Qed.

Lemma ends_tryCatch {A} (t t' e f : bool) (m : M A) (h : Thrown -> M A) :
  ends t e f m -> (forall x, ends t' e f (h x)) -> ends t' e f (tryCatch m h).
Proof.
  intros Hm Hh s. unfold tryCatch. specialize (Hm s).
  destruct (m s) as [[a|x|c|] s1]; cbn in *; try done. apply Hh.
Qed.

Lemma ends_processExit {A} (t f : bool) : ends (A := A) (W := W) t true f (processExit 1).
Proof. intros s. cbn. done. Qed.

Lemma ends_ret {A} (t e f : bool) (a : A) : ends (W := W) t e f (ret a).
Proof. intros s. exact I. Qed.

Lemma ends_forOf {A} (t e f : bool) (xs : list A) (body : A -> M unit) :
  (forall x, ends t e f (body x)) -> ends t e f (forOf xs body).
Proof.
  intros Hb. induction xs as [|x xs IH]; cbn [forOf].
  - apply ends_ret.
  - apply ends_bind; [apply Hb|]. intros _. exact IH.
Qed.

Lemma safe_shareSecret orderHash secrets i :
  steady anyState (EvmToSol.shareSecret orderHash secrets i).
Proof.
  unfold EvmToSol.shareSecret.
  apply (steady_bind anyState); [intros s; by eexists _, _|].
  intros shared. destruct (decide _); [apply (steady_ret anyState)|].
  apply (steady_tryCatch anyState); [|intros e; apply (steady_ret anyState)].
  apply (safe_bind anyState); [apply safe_any_call|].
  intros _. apply steady_safe. intros s. by eexists _, _.
Qed.

Lemma steady_sleep ms : steady (W := W) anyState (sleep ms).
Proof. intros s. by eexists _, _. Qed.

Lemma EvmToSol_monitorStep_steady cfg orderHash secrets :
  steady anyState (EvmToSol.monitorStep cfg orderHash secrets).
Proof.
  unfold EvmToSol.monitorStep.
  apply (steady_bind anyState).
  { apply (steady_tryCatch anyState); [|intros e; apply (steady_ret anyState)].
    apply (safe_bind anyState); [apply safe_any_call|].
    intros order. apply steady_safe, (steady_ret anyState). }
  intros finished. destruct finished; [apply (steady_ret anyState)|].
  apply (steady_bind anyState); [|intros _; apply (steady_ret anyState)].
  apply (steady_tryCatch anyState); [|intros e; apply steady_sleep].
  apply (safe_bind anyState); [apply safe_any_ready|]. intros rd.
  apply (safe_bind anyState).
  { destruct (fills rd); [apply steady_safe, (steady_ret anyState)
                         |apply (safe_throw anyState)]. }
  intros idxes. apply steady_safe.
  apply (steady_bind anyState); [|intros _; apply steady_sleep].
  apply (steady_forOf anyState). intros i. apply safe_shareSecret.
Qed.

Lemma EvmToSol_monitor_ends fuel cfg orderHash secrets :
  ends true false true (EvmToSol.monitorAndSubmitSecrets fuel cfg orderHash secrets).
Proof.
  unfold EvmToSol.monitorAndSubmitSecrets.
  apply ends_bind; [intros s; exact I|]. intros _.
  induction fuel as [|fuel IH]; cbn [EvmToSol.monitorLoop]; [intros s; reflexivity|].
  apply ends_bind.
  - apply (ends_weaken true false false); try done.
    apply safe_ends, steady_safe, EvmToSol_monitorStep_steady.
  - intros finished. destruct finished; [apply ends_ret|exact IH].
Qed.

Lemma safe_createAndSubmitOrder_evm cfg (quote : Quote) :
  safe anyState (EvmToSol.createAndSubmitOrder cfg quote).
Proof.
  unfold EvmToSol.createAndSubmitOrder.
  apply (safe_bind anyState); [apply (safe_ofOutcome anyState)|]. intros preset.
  apply (safe_bind anyState); [apply safe_withRng|]. intros secrets.
  apply (safe_bind anyState); [apply (safe_ofOutcome anyState)|]. intros hashLock.
  apply (safe_bind anyState); [apply (safe_ofOutcome anyState)|]. intros receiver.
  apply (safe_bind anyState); [apply (safe_ofOutcome anyState)|]. intros order.
  apply (safe_bind anyState); [apply safe_any_call|]. intros orderHash.
  apply steady_safe, (steady_ret anyState).
Qed.

Lemma safe_createAndSubmitOrder_sol cfg (quote : Quote) :
  safe anyState (SolToEvm.createAndSubmitOrder cfg quote).
Proof.
  unfold SolToEvm.createAndSubmitOrder.
  apply (safe_bind anyState); [apply (safe_ofOutcome anyState)|]. intros preset.
  apply (safe_bind anyState); [apply safe_withRng|]. intros secrets.
  apply (safe_bind anyState); [apply (safe_ofOutcome anyState)|]. intros hashLock.
  apply (safe_bind anyState); [apply (safe_ofOutcome anyState)|]. intros receiver.
  apply (safe_bind anyState); [apply (safe_ofOutcome anyState)|]. intros order.
  apply (safe_bind anyState); [apply safe_any_call|]. intros orderHash.
  apply (safe_bind anyState); [apply safe_any_call|]. intros sig.
  apply steady_safe, (steady_ret anyState).
Qed.

Lemma ends_checkEnv (keys : list string) :
  ends (W := W) false true false
    (forOf keys (fun key =>
       let* v := getEnv key in
       if truthyStr v then ret tt else processExit 1)).
Proof.
  apply ends_forOf. intros key. apply ends_bind; [intros s; exact I|].
  intros v. destruct (truthyStr v); [apply ends_ret|apply ends_processExit].
Qed.

Lemma ends_config_evm (t e f : bool) : ends (W := W) t e f EvmToSol.config.
Proof. intros s. exact I. Qed.

Lemma ends_config_sol (t e f : bool) : ends (W := W) t e f SolToEvm.config.
Proof. intros s. exact I. Qed.

Lemma ends_initializeSDK :
  ends (W := W) false true false EvmToSol.initializeSDK /\
  ends (W := W) false true false SolToEvm.initializeSDK.
Proof.
  split; apply (ends_tryCatch true); try (intros x; apply ends_processExit);
    apply (ends_weaken true false false); try done; apply safe_ends, safe_any_call.
Qed.

(** X10. Neither script ever ends with an uncaught exception, and the only exit
    code either uses is 1: every failure -- of the SDK import, the quote,
    the order submission or the Solana transaction -- becomes
    [process.exit(1)].  The Solana -> EVM script moreover always ends: it
    returns normally or exits with code 1 within its 120 polls.  (The
    EVM -> Solana script may poll for ever.) *)
Theorem scripts_end_cleanly (fuel : nat) (s : St) :
  endsAs false true true (fst (EvmToSol.script fuel s)) /\
  endsAs false true true (fst (SolToEvm.script fuel s)) /\
  ((121 <= fuel)%nat -> endsAs false true false (fst (SolToEvm.script fuel s))).
Proof.
  assert (Hsol : forall f : bool,
            ((121 <= fuel)%nat \/ f = true) ->
            ends false true f (SolToEvm.script fuel)).
  { intros f Hf. unfold SolToEvm.script, SolToEvm.checkEnv.
    apply ends_bind.
    { apply (ends_weaken false true false); try done. apply ends_checkEnv. }
    intros _. unfold SolToEvm.main.
    apply ends_bind.
    { apply (ends_weaken false true false); try done. apply ends_initializeSDK. }
    intros _. apply ends_bind.
    { apply ends_config_sol. }
    intros cfg. apply (ends_tryCatch true); [|intros x; apply ends_processExit].
    unfold SolToEvm.performCrossChainSwap.
    apply (ends_tryCatch true); [|intros x; intros s0; reflexivity].
    apply ends_bind.
    { apply (ends_weaken true false false); try done.
      apply safe_ends. unfold SolToEvm.getQuote.
      apply (safe_bind anyState); [apply (safe_ofOutcome anyState)|]. intros src.
      apply (safe_bind anyState); [apply (safe_ofOutcome anyState)|]. intros dst.
      apply safe_any_call. }
    intros quote. apply ends_bind.
    { apply (ends_weaken true false false); try done.
      apply safe_ends, safe_createAndSubmitOrder_sol. }
    intros r.
    destruct Hf as [Hfuel| ->].
    - intros s0.
      destruct (SolToEvm_monitor_terminates fuel cfg (fst r) (snd r) s0 Hfuel)
        as (s1 & ->). exact I.
    - intros s0. unfold endsAs.
      destruct (SolToEvm.monitorAndSubmitSecrets fuel cfg r.1 r.2 s0) as [[a|x|c|] s1]
        eqn:Hrun; cbn; try done.
      exfalso.
      assert (Hends : ends true false true
                (SolToEvm.monitorAndSubmitSecrets fuel cfg r.1 r.2)).
      { unfold SolToEvm.monitorAndSubmitSecrets.
        apply ends_bind; [intros s2; exact I|]. intros _.
        apply ends_bind; [intros s2; exact I|]. intros _.
        apply ends_bind; [intros s2; exact I|]. intros _.
        clear Hrun. induction fuel as [|fuel' IH]; cbn [SolToEvm.monitorLoop];
          [intros s2; reflexivity|].
        apply ends_bind; [intros s2; exact I|]. intros n.
        destruct (n <? SolToEvm.maxAttempts); [|apply ends_ret].
        apply ends_bind.
        - intros s2.
          destruct (SolToEvm_monitorStep_cases cfg r.1 r.2 s2) as (b & s3 & -> & _).
          exact I.
        - intros finished. destruct finished; [apply ends_ret|exact IH]. }
      specialize (Hends s0). rewrite Hrun in Hends. cbn in Hends.
      by destruct Hends. }
  split; [|split].
  - unfold EvmToSol.script, EvmToSol.checkEnv.
    apply ends_bind.
    { apply (ends_weaken false true false); try done. apply ends_checkEnv. }
    intros _. unfold EvmToSol.main.
    apply ends_bind.
    { apply (ends_weaken false true false); try done. apply ends_initializeSDK. }
    intros _. apply ends_bind.
    { apply ends_config_evm. }
    intros cfg. apply (ends_tryCatch true); [|intros x; apply ends_processExit].
    unfold EvmToSol.performCrossChainSwap.
    apply ends_bind.
    { apply (ends_weaken true false false); try done.
      apply safe_ends, safe_any_call. }
    intros _. apply ends_bind.
    { apply (ends_weaken true false false); try done.
      apply safe_ends, safe_any_call. }
    intros quote. apply ends_bind.
    { apply (ends_weaken true false false); try done.
      apply safe_ends, safe_createAndSubmitOrder_evm. }
    intros r. apply (ends_weaken true false true);
      [done|done|done|apply EvmToSol_monitor_ends].
  - apply Hsol. by right.
  - intros Hfuel. apply Hsol. by left.
Qed.

End ScriptEndings.

(** ** How much the Solana -> EVM loop polls *)

Section PollBound.
Context `{HashLockApi} `{OrderApi} {W : Type} `{!Relayer W}.
Local Abbreviation M := (@M _ _ W).
Local Abbreviation St := (@St _ _ W).

Lemma countCalls_app p (l1 l2 : list Entry) :
  countCalls p (l1 ++ l2) = (countCalls p l1 + countCalls p l2)%nat.
Proof. unfold countCalls. by rewrite List.filter_app, length_app. Qed.

#[local] Instance noPolls_preorder : StatePreorder (W := W) noPolls.
Proof.
  split.
  - intros s. split; [reflexivity|]. exists []. by rewrite app_nil_r.
  - intros s1 s2 s3 (E1 & x1 & C1 & S1 & R1) (E2 & x2 & C2 & S2 & R2).
    split; [congruence|]. exists (x1 ++ x2)%list.
    rewrite C2, C1, <- app_assoc, !countCalls_app, S1, S2, R1, R2. done.
Qed.

Lemma SolToEvm_shareSecret_noPolls orderHash secrets i :
  steady noPolls (SolToEvm.shareSecret orderHash secrets i).
Proof.
  unfold SolToEvm.shareSecret.
  apply (steady_bind noPolls).
  { intros s. exists (alreadyShared s), s. split; [reflexivity|apply sp_refl]. }
  intros shared. destruct (decide _); [apply (steady_ret noPolls)|].
  apply (steady_tryCatch noPolls); [|intros e; apply (steady_ret noPolls)].
  apply (safe_bind noPolls).
  - apply safe_callSdk. intros s b. split; [reflexivity|].
    eexists. split; [reflexivity|]. split; reflexivity.
  - intros _. apply steady_safe. intros s. eexists tt, _. split; [reflexivity|].
    split; [reflexivity|]. exists []. cbn. by rewrite app_nil_r.
Qed.

(** One pass of the loop makes exactly one status poll and at most one
    ready poll. *)
Lemma SolToEvm_monitorStep_polls cfg orderHash secrets (s : St) :
  exists finished s' new,
    SolToEvm.monitorStep cfg orderHash secrets s = (Ret finished, s') /\
    calls s' = (calls s ++ new)%list /\
    countCalls isStatusPoll new = 1%nat /\
    (countCalls isReadyPoll new <= 1)%nat /\
    (finished = false -> attempts s' = attempts s + 1).
Proof.
  unfold SolToEvm.monitorStep.
  unfold bind at 1, tryCatch at 1, bind at 1, getOrderStatus, callSdk.
  assert (Hrest : forall s1 : St,
            attempts s1 = attempts s ->
            (exists e, calls s1 = (calls s ++ [e])%list /\
                       isStatusPoll (call e) = true /\ isReadyPoll (call e) = false) ->
            exists s' new,
              (let* _ :=
                 tryCatch
                   (let* readyToAcceptSecrets := getReadyToAcceptSecretFills orderHash in
                    let* _ :=
                      match fills readyToAcceptSecrets with
                      | Some (f :: fs) =>
                          forOf (map idx (f :: fs)) (SolToEvm.shareSecret orderHash secrets)
                      | _ => ret tt
                      end in
                    let* _ := sleep (SolToEvm.pollInterval cfg) in
                    SolToEvm.incrAttempts)
                   (fun _ : Thrown =>
                      let* _ := sleep (SolToEvm.pollInterval cfg) in
                      SolToEvm.incrAttempts) in
               ret false) s1 = (Ret false, s') /\
              calls s' = (calls s ++ new)%list /\
              countCalls isStatusPoll new = 1%nat /\
              (countCalls isReadyPoll new <= 1)%nat /\
              attempts s' = attempts s + 1).
  { intros s1 Hatt (e & Hcalls & Hst & Hrd).
    unfold bind at 1, tryCatch, bind at 1, getReadyToAcceptSecretFills, callSdk.
    destruct (sdk_getReadyToAcceptSecretFills orderHash (world s1)) as [[rd|x] w2].
    2:{ cbn. eexists _, _. split; [reflexivity|]. cbn. rewrite Hcalls, <- app_assoc.
        split; [reflexivity|]. unfold countCalls. cbn. rewrite Hst, Hrd. cbn.
        split; [reflexivity|]. split; [lia|]. lia. }
    set (s2 := logCall _ (setWorld w2 s1)).
    assert (Hloop : exists s3,
              (match fills rd with
               | Some (f :: fs) =>
                   forOf (map idx (f :: fs)) (SolToEvm.shareSecret orderHash secrets)
               | _ => ret tt
               end) s2 = (Ret tt, s3) /\ noPolls s2 s3).
    { destruct (fills rd) as [[|f fs]|]; try (exists s2; split; [reflexivity|apply sp_refl]).
      destruct (steady_forOf noPolls (map idx (f :: fs)) _
                  (SolToEvm_shareSecret_noPolls orderHash secrets) s2)
        as ([] & s3 & Hrun & Hl).
      eauto. }
    destruct Hloop as (s3 & Hrun & Hatt3 & extra & Hcalls3 & Hst3 & Hrd3).
    rewrite (bind_returns _ _ _ _ _ Hrun). cbn.
    eexists _, _. split; [reflexivity|]. cbn.
    rewrite Hcalls3. subst s2. cbn. rewrite Hcalls, <- !app_assoc.
    split; [reflexivity|]. rewrite !countCalls_app, Hst3, Hrd3.
    unfold countCalls. cbn. rewrite Hst, Hrd. cbn.
    split; [reflexivity|]. split; [lia|]. cbn in Hatt3. lia. }
  destruct (sdk_getOrderStatus orderHash (world s)) as [[st|x] w1].
  - cbv beta iota.
    destruct (String.eqb (status st) "executed").
    { cbn. eexists true, _, _. split; [reflexivity|]. cbn.
      split; [reflexivity|]. repeat split; try done. cbn. lia. }
    destruct (_ || _).
    { cbn. eexists true, _, _. split; [reflexivity|]. cbn.
      split; [reflexivity|]. repeat split; try done. cbn. lia. }
    cbn [ret]. cbv beta iota.
    destruct (Hrest (logCall {| call := CGetOrderStatus orderHash; returned := true |}
                       (setWorld w1 s))) as (s' & new & Hrun & Hc & Hs & Hr & Ha);
      [reflexivity|eexists; split; [reflexivity|split; reflexivity]|].
    exists false, s', new. repeat split; try done.
  - cbv beta iota. cbn [ret]. cbv beta iota.
    destruct (Hrest (logCall {| call := CGetOrderStatus orderHash; returned := false |}
                       (setWorld w1 s))) as (s' & new & Hrun & Hc & Hs & Hr & Ha);
      [reflexivity|eexists; split; [reflexivity|split; reflexivity]|].
    exists false, s', new. repeat split; try done.
Qed.

Lemma SolToEvm_monitorLoop_polls (fuel : nat) cfg orderHash secrets (s : St) :
  exists new,
    calls (snd (SolToEvm.monitorLoop fuel cfg orderHash secrets s))
      = (calls s ++ new)%list /\
    (countCalls isStatusPoll new <= Z.to_nat (SolToEvm.maxAttempts - attempts s))%nat /\
    (countCalls isReadyPoll new <= Z.to_nat (SolToEvm.maxAttempts - attempts s))%nat.
Proof.
  revert s. induction fuel as [|fuel IH]; intros s.
  { exists []. cbn. rewrite app_nil_r. repeat split; cbn; lia. }
  cbn [SolToEvm.monitorLoop]. unfold bind at 1, getAttempts. cbv beta iota.
  destruct (Z.ltb_spec (attempts s) SolToEvm.maxAttempts) as [Hlt|Hge].
  2:{ exists []. cbn. rewrite app_nil_r. repeat split; cbn; lia. }
  destruct (SolToEvm_monitorStep_polls cfg orderHash secrets s)
    as (finished & s1 & new1 & Hstep & Hc1 & Hs1 & Hr1 & Hatt).
  rewrite (bind_returns _ _ _ _ _ Hstep).
  unfold SolToEvm.maxAttempts in *.
  destruct finished.
  { exists new1. cbn. split; [exact Hc1|]. split; lia. }
  destruct (IH s1) as (new2 & Hc2 & Hs2 & Hr2).
  exists (new1 ++ new2)%list. rewrite Hc2, Hc1, <- app_assoc.
  split; [reflexivity|]. rewrite !countCalls_app, (Hatt eq_refl) in *.
  split; lia.
Qed.

(** X11. A run of the Solana -> EVM monitoring polls the order status at most
    120 times and the ready-fills endpoint at most 120 times, whatever the
    relayer answers. *)
Theorem SolToEvm_monitor_poll_bound (fuel : nat) (cfg : SolToEvm.Config)
    (orderHash : string) (secrets : list string) (s : St) :
  exists new,
    calls (snd (SolToEvm.monitorAndSubmitSecrets fuel cfg orderHash secrets s))
      = (calls s ++ new)%list /\
    (countCalls isStatusPoll new <= 120)%nat /\
    (countCalls isReadyPoll new <= 120)%nat.
Proof.
  unfold SolToEvm.monitorAndSubmitSecrets, bind, sleep, putShared, putAttempts.
  cbv beta iota.
  match goal with
  | |- context [SolToEvm.monitorLoop fuel cfg orderHash secrets ?s0] =>
      destruct (SolToEvm_monitorLoop_polls fuel cfg orderHash secrets s0)
        as (new & Hc & Hs & Hr)
  end.
  exists new. cbn in Hc, Hs, Hr. split; [exact Hc|].
  unfold SolToEvm.maxAttempts in *. split; lia.
Qed.

End PollBound.

(** ** What the monitoring of the service reports *)

Section MonitorResult.
Context `{HashLockApi} `{OrderApi} {W : Type} `{!Relayer W}.
Context `{!ClockLaws W}.
Local Abbreviation M := (@M _ _ W).
Local Abbreviation St := (@St _ _ W).

#[local] Instance both_preorder (I J : St -> St -> Prop)
    `{!StatePreorder I} `{!StatePreorder J} : StatePreorder (both I J).
Proof.
  split.
  - intros s. split; apply sp_refl.
  - intros s1 s2 s3 [H1 H2] [H3 H4]. split; eapply sp_trans; eauto.
Qed.

#[local] Existing Instance later_preorder.
#[local] Existing Instance noPolls_preorder.

Lemma submitFill_quiet orderHash secrets fill :
  steady (both later noPolls) (FusionService.submitFill orderHash secrets fill).
Proof.
  unfold FusionService.submitFill.
  apply (steady_bind (both later noPolls)).
  { intros s. exists (alreadyShared s), s. split; [reflexivity|apply sp_refl]. }
  intros shared. destruct (_ && _); [|apply (steady_ret (both later noPolls))].
  apply (steady_tryCatch (both later noPolls));
    [|intros e; apply (steady_ret (both later noPolls))].
  apply (safe_bind (both later noPolls)).
  - apply safe_callSdk. intros s b. split.
    + split; cbn; [apply clock_submitSecret|reflexivity].
    + split; [reflexivity|]. eexists. split; [reflexivity|]. split; reflexivity.
  - intros _. apply steady_safe. intros s. eexists tt, _. split; [reflexivity|].
    split.
    + split; cbn; [lia|reflexivity].
    + split; [reflexivity|]. exists []. cbn. by rewrite app_nil_r.
Qed.

(** One pass of the service loop: one status poll, at most one ready poll;
    it returns a result only for an order reported as executed, and
    otherwise ends at least five seconds later. *)
Lemma monitorStep_shape orderHash secrets (s : St) :
  exists r s' new,
    FusionService.monitorStep orderHash secrets s = (Ret r, s') /\
    later s s' /\
    calls s' = (calls s ++ new)%list /\
    countCalls isStatusPoll new = 1%nat /\
    (countCalls isReadyPoll new <= 1)%nat /\
    match r with
    | Some x =>
        exists st, x = FusionService.MonitorCompleted st /\ status st = "executed"
    | None => clock_now (world s) + 5000 <= clock_now (world s')
    end.
Proof.
  unfold FusionService.monitorStep, tryCatch, bind at 1, getOrderStatus, callSdk.
  pose proof (clock_getOrderStatus orderHash (world s)) as Hc1.
  destruct (sdk_getOrderStatus orderHash (world s)) as [[st|e] w1]; cbn in Hc1 |- *.
  2:{ eexists None, _, _. split; [reflexivity|].
      pose proof (clock_setTimeout 5000 w1). cbn.
      split; [split; cbn; [lia|reflexivity]|].
      split; [reflexivity|]. repeat split; cbn; lia. }
  destruct (String.eqb (status st) "executed") eqn:Hex.
  { cbn. eexists (Some _), _, _. split; [reflexivity|]. cbn.
    split; [split; cbn; [lia|reflexivity]|].
    split; [reflexivity|]. split; [reflexivity|]. split; [cbn; lia|].
    eexists. split; [reflexivity|]. by apply String.eqb_eq. }
  unfold bind at 1, getReadyToAcceptSecretFills, callSdk. cbn.
  pose proof (clock_getReady orderHash w1) as Hc2.
  destruct (sdk_getReadyToAcceptSecretFills orderHash w1) as [[rd|e] w2];
    cbn in Hc2 |- *.
  2:{ eexists None, _, _. split; [reflexivity|].
      pose proof (clock_setTimeout 5000 w2). cbn. rewrite <- app_assoc.
      split; [split; cbn; [lia|reflexivity]|].
      split; [reflexivity|]. repeat split; cbn; lia. }
  set (s2 := logCall _ (setWorld w2 _)).
  assert (Hloop : exists s3,
            (match fills rd with
             | Some (f :: fs) =>
                 forOf (f :: fs) (FusionService.submitFill orderHash secrets)
             | _ => ret tt
             end) s2 = (Ret tt, s3) /\ both later noPolls s2 s3).
  { destruct (fills rd) as [[|f fs]|]; try (exists s2; split; [reflexivity|apply sp_refl]).
    destruct (steady_forOf (both later noPolls) (f :: fs) _
                (submitFill_quiet orderHash secrets) s2) as ([] & s3 & Hrun & Hl).
    eauto. }
  destruct Hloop as (s3 & Hrun & [Hc3 He3] & _ & extra & Hcalls & Hst & Hrd).
  cbn [forOf] in Hrun. rewrite (bind_returns _ _ _ _ _ Hrun). cbn.
  eexists None, _, _. split; [reflexivity|].
  pose proof (clock_setTimeout 5000 (world s3)). cbn.
  rewrite Hcalls. subst s2. cbn in Hc3, He3 |- *. rewrite <- !app_assoc.
  split; [split; cbn; [lia|congruence]|].
  split; [reflexivity|]. rewrite !countCalls_app, Hst, Hrd.
  repeat split; cbn; lia.
Qed.

Lemma monitorLoop_shape (fuel : nat) orderHash secrets startTime (s : St) :
  match FusionService.monitorLoop fuel orderHash secrets startTime s with
  | (Ret r, s') =>
      exists new,
        calls s' = (calls s ++ new)%list /\
        (countCalls isStatusPoll new <= waitsLeft startTime s)%nat /\
        (countCalls isReadyPoll new <= waitsLeft startTime s)%nat /\
        match r with
        | Some x =>
            exists st, x = FusionService.MonitorCompleted st /\ status st = "executed"
        | None => FusionService.maxWaitTime <= clock_now (world s') - startTime
        end
  | (OutOfFuel, _) => True
  | _ => False
  end.
Proof.
  revert s. induction fuel as [|fuel IH]; intros s; [exact I|].
  cbn [FusionService.monitorLoop]. unfold bind at 1, dateNow.
  cbv beta iota.
  destruct (Z.ltb_spec (clock_now (world s) - startTime) FusionService.maxWaitTime)
    as [Hlt|Hge].
  2:{ exists []. rewrite app_nil_r. repeat split; cbn; try lia. }
  destruct (monitorStep_shape orderHash secrets s)
    as (r1 & s1 & new1 & Hstep & [Hl1 _] & Hc1 & Hs1 & Hr1 & Hres).
  rewrite (bind_returns _ _ _ _ _ Hstep).
  assert (Hone : (1 <= waitsLeft startTime s)%nat).
  { unfold waitsLeft, FusionService.maxWaitTime in *.
    assert (1 <= (startTime + 10 * 60 * 1000 - clock_now (world s) + 4999) / 5000)
      by (apply Z.div_le_lower_bound; lia).
    lia. }
  destruct r1 as [x|].
  { exists new1. split; [exact Hc1|]. repeat split; try lia. exact Hres. }
  specialize (IH s1).
  destruct (FusionService.monitorLoop fuel orderHash secrets startTime s1)
    as [[r|e|c|] s2]; try done.
  destruct IH as (new2 & Hc2 & Hs2 & Hr2 & Hres2).
  assert (Hdec : (waitsLeft startTime s1 + 1 <= waitsLeft startTime s)%nat).
  { unfold waitsLeft, FusionService.maxWaitTime in *.
    assert ((startTime + 10 * 60 * 1000 - clock_now (world s1) + 4999) / 5000
            <= (startTime + 10 * 60 * 1000 - clock_now (world s) + 4999) / 5000 - 1).
    { replace ((startTime + 10 * 60 * 1000 - clock_now (world s) + 4999) / 5000 - 1)
        with ((startTime + 10 * 60 * 1000 - clock_now (world s) + 4999 - 5000) / 5000).
      - apply Z.div_le_mono; lia.
      - replace (startTime + 10 * 60 * 1000 - clock_now (world s) + 4999 - 5000)
          with (startTime + 10 * 60 * 1000 - clock_now (world s) + 4999 + (-1) * 5000)
          by lia.
        rewrite Z.div_add by lia. lia. }
    assert (1 <= (startTime + 10 * 60 * 1000 - clock_now (world s) + 4999) / 5000)
      by (apply Z.div_le_lower_bound; lia).
    lia. }
  exists (new1 ++ new2)%list. rewrite Hc2, Hc1, <- app_assoc.
  split; [reflexivity|]. rewrite !countCalls_app.
  repeat split; try lia. exact Hres2.
Qed.

(** X12. What [monitorAndCompleteSwap] can report.  "completed" is reported only
    with an order status equal to "executed".  "failed" is reported either
    with the error of the signer set-up, before any poll, or with the
    time-out message -- and then at least ten minutes have passed since the
    signer was ready.  In every case the run polled the order status and
    the ready fills at most 120 times each. *)
Theorem monitor_result_sound (fuel : nat) (orderHash : string)
    (secrets : list string) (chainId : JsValue) (s s' : St)
    (r : FusionService.MonitorResult) :
  FusionService.monitorAndCompleteSwap fuel orderHash secrets chainId s = (Ret r, s') ->
  match r with
  | FusionService.MonitorCompleted st => status st = "executed"
  | FusionService.MonitorFailed msg =>
      (exists e, FusionService.getSDKWithSigner chainId s = (Throw e, s') /\
                 msg = messageOr "Unknown monitoring error" e) \/
      (exists s1, FusionService.getSDKWithSigner chainId s = (Ret tt, s1) /\
                  msg = "Monitoring timed out after 10 minutes" /\
                  clock_now (world s1) + FusionService.maxWaitTime
                    <= clock_now (world s'))
  end /\
  (countCalls isStatusPoll (drop (length (calls s)) (calls s')) <= 120)%nat /\
  (countCalls isReadyPoll (drop (length (calls s)) (calls s')) <= 120)%nat.
Proof.
  unfold FusionService.monitorAndCompleteSwap, tryCatch. unfold bind at 1.
  destruct (getSDKWithSigner_run chainId s) as [(e & Hsdk)|(r0 & b & s1 & Hsdk & Hc & _ & Hr0)].
  { rewrite Hsdk. intros [= <- <-]. rewrite drop_all.
    split; [left; eauto|]. split; cbn; lia. }
  rewrite Hsdk. destruct Hr0 as [->|(e & ->)].
  2:{ intros [= <- <-]. rewrite Hc, drop_app_length.
      split; [left; eauto|]. split; cbn; lia. }
  unfold bind at 1, dateNow. unfold bind at 1, putShared. cbv beta iota.
  unfold bind.
  pose proof (monitorLoop_shape fuel orderHash secrets (clock_now (world s1))
                (setShared ∅ s1)) as Hshape.
  destruct (FusionService.monitorLoop fuel orderHash secrets (clock_now (world s1))
              (setShared ∅ s1)) as [[[x|]|e|c|] s2]; try done.
  - intros [= <- <-].
    destruct Hshape as (new & Hc2 & Hs & Hr & st & -> & Hst).
    cbn [calls setShared] in Hc2. rewrite Hc2, Hc, <- app_assoc, drop_app_length.
    unfold waitsLeft, FusionService.maxWaitTime in Hs, Hr. cbn [world setShared] in Hs, Hr.
    replace (clock_now (world s1) + 10 * 60 * 1000 - clock_now (world s1) + 4999)
      with 604999 in * by lia.
    change (604999 / 5000) with 120 in *.
    split; [exact Hst|]. rewrite !countCalls_app. cbn. split; lia.
  - intros [= <- <-].
    destruct Hshape as (new & Hc2 & Hs & Hr & Hend).
    cbn [calls setShared] in Hc2. rewrite Hc2, Hc, <- app_assoc, drop_app_length.
    unfold waitsLeft, FusionService.maxWaitTime in Hs, Hr. cbn [world setShared] in Hs, Hr.
    replace (clock_now (world s1) + 10 * 60 * 1000 - clock_now (world s1) + 4999)
      with 604999 in * by lia.
    change (604999 / 5000) with 120 in *.
    split.
    + right. exists s1. split; [reflexivity|]. split; [reflexivity|].
      unfold FusionService.maxWaitTime in *. lia.
    + rewrite !countCalls_app. cbn. split; lia.
Qed.

End MonitorResult.

Lemma monitor_result_sound_witness :
  status {| status := "executed" |} = "executed" /\
  (countCalls isStatusPoll
     (drop (length (calls (Sim.start Sim.busyWorld Sim.serviceEnv)))
        (calls (snd (FusionService.monitorAndCompleteSwap 121 "0xorder"
                       ["0xaa"; "0xbb"; "0xcc"] (JsNumber 1)
                       (Sim.start Sim.busyWorld Sim.serviceEnv))))) <= 120)%nat /\
  (countCalls isReadyPoll
     (drop (length (calls (Sim.start Sim.busyWorld Sim.serviceEnv)))
        (calls (snd (FusionService.monitorAndCompleteSwap 121 "0xorder"
                       ["0xaa"; "0xbb"; "0xcc"] (JsNumber 1)
                       (Sim.start Sim.busyWorld Sim.serviceEnv))))) <= 120)%nat.
Proof.
  apply (monitor_result_sound 121 "0xorder" ["0xaa"; "0xbb"; "0xcc"] (JsNumber 1)
           (Sim.start Sim.busyWorld Sim.serviceEnv)
           (snd (FusionService.monitorAndCompleteSwap 121 "0xorder"
                   ["0xaa"; "0xbb"; "0xcc"] (JsNumber 1)
                   (Sim.start Sim.busyWorld Sim.serviceEnv)))
           (FusionService.MonitorCompleted {| status := "executed" |})).
  vm_compute. reflexivity.
Defined.

(** A monitoring that gives up: the order stays pending, the loop polls 120
    times, and the failure is reported ten minutes and a few calls after the
    start. *)
Example monitor_timeout_run :
  let run := FusionService.monitorAndCompleteSwap 121 "0xorder"
               ["0xaa"; "0xbb"; "0xcc"] (JsNumber 1)
               (Sim.start Sim.pendingWorld Sim.serviceEnv) in
  fst run = Ret (FusionService.MonitorFailed "Monitoring timed out after 10 minutes") /\
  countCalls isStatusPoll (calls (snd run)) = 120%nat /\
  countCalls isReadyPoll (calls (snd run)) = 120%nat /\
  600000 <= clock_now (world (snd run)).
Proof. vm_compute. repeat split; discriminate. Qed.

(** ** The signer keys of the service *)

Section SignerKeys.
Context `{HashLockApi} `{OrderApi} {W : Type} `{!Relayer W}.
Local Abbreviation M := (@M _ _ W).
Local Abbreviation St := (@St _ _ W).

Lemma getSDKWithSigner_missing chainId (s : St) :
  truthyStr (env s !! "TEST_PRIVATE_KEY") = false \/
  truthyStr (env s !! "INCH_API_KEY") = false ->
  FusionService.getSDKWithSigner chainId s
  = (Throw (newError "TEST_PRIVATE_KEY and INCH_API_KEY required for order submission"), s).
Proof.
  intros Hk. unfold FusionService.getSDKWithSigner, bind, getEnv. cbv beta iota.
  destruct Hk as [-> | ->]; cbn [negb orb]; [reflexivity|].
  rewrite orb_true_r. reflexivity.
Qed.

(** X13. Without [TEST_PRIVATE_KEY] or [INCH_API_KEY] (unset or empty) nothing
    is signed or submitted.  The monitoring reports "failed" with the
    message naming the two variables and leaves the state as it was.
    [executeSwap] makes the one quote call and answers [success: false]:
    no secret is drawn, no order is submitted; when the quote came back
    with presets the error is that same message. *)
Theorem signer_keys_required (fuel : nat) (params : FusionService.SwapRequest)
    (orderHash : string) (secrets : list string) (s : St) :
  truthyStr (env s !! "TEST_PRIVATE_KEY") = false \/
  truthyStr (env s !! "INCH_API_KEY") = false ->
  FusionService.monitorAndCompleteSwap fuel orderHash secrets
    (FusionService.srcChainId params) s
  = (Ret (FusionService.MonitorFailed
            "TEST_PRIVATE_KEY and INCH_API_KEY required for order submission"), s) /\
  exists msg b s',
    FusionService.executeSwap fuel params s = (Ret (FusionService.SwapFailed msg), s') /\
    calls s' = (calls s ++ [{| call := CGetQuote (FusionService.quoteParams params);
                               returned := b |}])%list /\
    rng s' = rng s /\
    (forall quote,
       fst (sdk_getQuote (FusionService.quoteParams params) (world s)) = Ok quote ->
       presets quote <> None ->
       msg = "TEST_PRIVATE_KEY and INCH_API_KEY required for order submission").
Proof.
  intros Hk. split.
  { unfold FusionService.monitorAndCompleteSwap, tryCatch.
    rewrite (bind_throws _ _ _ _ _ (getSDKWithSigner_missing _ s Hk)). reflexivity. }
  unfold FusionService.executeSwap, tryCatch.
  unfold bind at 1, sdkGetQuote, callSdk.
  destruct (sdk_getQuote (FusionService.quoteParams params) (world s)) as [[quote|e] w1].
  2:{ eexists _, false, _. split; [reflexivity|]. cbn.
      repeat split. intros q [=]. }
  cbv beta iota. unfold bind at 1, FusionService.presetKeys.
  destruct (presets quote) as [ks|] eqn:Hks.
  2:{ eexists _, true, _. split; [reflexivity|]. cbn.
      repeat split. intros q [= <-]. congruence. }
  cbv beta iota delta [ret].
  set (s1 := logCall _ (setWorld w1 s)).
  assert (Hk1 : truthyStr (env s1 !! "TEST_PRIVATE_KEY") = false \/
                truthyStr (env s1 !! "INCH_API_KEY") = false) by exact Hk.
  rewrite (bind_throws _ _ _ _ _ (getSDKWithSigner_missing _ s1 Hk1)).
  eexists _, true, _. split; [reflexivity|]. cbn. repeat split.
Qed.

End SignerKeys.

Lemma signer_keys_required_witness :
  truthyStr (env (Sim.start Sim.busyWorld ∅) !! "TEST_PRIVATE_KEY") = false /\
  exists msg b s',
    FusionService.executeSwap 121 sampleRequest (Sim.start Sim.busyWorld ∅)
    = (Ret (FusionService.SwapFailed msg), s') /\
    calls s' = (calls (Sim.start Sim.busyWorld ∅) ++
                [{| call := CGetQuote (FusionService.quoteParams sampleRequest);
                    returned := b |}])%list /\
    rng s' = rng (Sim.start Sim.busyWorld ∅) /\
    (forall quote,
       fst (sdk_getQuote (FusionService.quoteParams sampleRequest)
              (world (Sim.start Sim.busyWorld ∅))) = Ok quote ->
       presets quote <> None ->
       msg = "TEST_PRIVATE_KEY and INCH_API_KEY required for order submission").
Proof.
  split; [reflexivity|].
  apply (signer_keys_required 121 sampleRequest "0xorder" []
           (Sim.start Sim.busyWorld ∅)).
  left. reflexivity.
Defined.

(** ** Order submission of the Solana -> EVM script *)

Section AnnounceThenSend.
Context `{HashLockApi} `{OrderApi} {W : Type} `{!Relayer W}.
Local Abbreviation M := (@M _ _ W).
Local Abbreviation St := (@St _ _ W).

(** X14. [createAndSubmitOrder] of the Solana -> EVM script announces the order
    to the relayer before it sends the escrow transaction, and sends the
    transaction of that same order only after the announcement was accepted.
    It makes no other call.  When the transaction fails the function throws
    although the relayer has already accepted the order. *)
Theorem SolToEvm_announce_then_send (cfg : SolToEvm.Config) (quote : Quote) (s : St) :
  exists new,
    calls (snd (SolToEvm.createAndSubmitOrder cfg quote s)) = (calls s ++ new)%list /\
    announceThenSend new (fst (SolToEvm.createAndSubmitOrder cfg quote s)).
Proof.
  destruct (SolToEvm_order_cases cfg quote s)
    as [(secrets & g1 & order & Hprep)|[Hlog Hthrows]].
  2:{ exists []. rewrite app_nil_r. split; [exact Hlog|]. by left. }
  rewrite (SolToEvm_order_prepared _ _ _ _ _ _ Hprep).
  unfold bind, announceOrder, sendTransaction, callSdk. cbn [world setRng].
  destruct (sdk_announceOrder order (quoteId quote) _ (world s)) as [[orderHash|e] w1];
    cbn.
  2:{ eexists [_]. split; [reflexivity|]. right. left. eauto 10. }
  destruct (solana_sendTransaction order w1) as [[sig|e] w2]; cbn.
  - eexists [_; _]. rewrite <- app_assoc. split; [reflexivity|].
    right. right. eexists _, _, _, true. split; [reflexivity|]. eauto.
  - eexists [_; _]. rewrite <- app_assoc. split; [reflexivity|].
    right. right. eexists _, _, _, false. split; [reflexivity|]. eauto.
Qed.

End AnnounceThenSend.

(** ** Every ready fill is served *)

Section ReadyFills.
Context `{HashLockApi} `{OrderApi} {W : Type} `{!Relayer W}.
Local Abbreviation St := (@St _ _ W).

(** X15. In every monitoring run, each fill index that a
    [getReadyToAcceptSecretFills] poll of the run reported is served: a
    [submitSecret] call for it returned at some point of the run, or one was
    made after that poll and threw.  For the scripts this holds of every
    reported index; for the service's [monitorAndCompleteSwap] of every
    reported index whose secret exists and is not the empty string, the
    others being skipped.  Every such poll is for the order monitored. *)
Theorem ready_fills_all_served (fuel : nat) (orderHash : string)
    (secrets : list string) (chainId : JsValue) (cfgE : EvmToSol.Config)
    (cfgS : SolToEvm.Config) (s : St) :
  runAdds (servesAllReported orderHash secrets (hasSecret secrets)) s
    (snd (FusionService.monitorAndCompleteSwap fuel orderHash secrets chainId s)) /\
  runAdds (servesAllReported orderHash secrets (fun _ => True)) s
    (snd (EvmToSol.monitorAndSubmitSecrets fuel cfgE orderHash secrets s)) /\
  runAdds (servesAllReported orderHash secrets (fun _ => True)) s
    (snd (SolToEvm.monitorAndSubmitSecrets fuel cfgS orderHash secrets s)).
Proof.
  split; [|split].
  - destruct (FusionService_monitor_passes fuel orderHash secrets chainId s)
      as (new & shared' & Hlog & Hpasses).
    exists new. split; [exact Hlog|]. by eapply passes_servesAllReported.
  - destruct (EvmToSol_monitor_passes fuel cfgE orderHash secrets s)
      as (new & shared' & Hlog & Hpasses).
    exists new. split; [exact Hlog|]. by eapply passes_servesAllReported.
  - destruct (SolToEvm_monitor_passes fuel cfgS orderHash secrets s)
      as (new & shared' & Hlog & Hpasses).
    exists new. split; [exact Hlog|]. by eapply passes_servesAllReported.
Qed.

End ReadyFills.

(** A scripted run of the service's loop, polls and reveals only: fill 1 is
    tried again after its reveal threw, and fill 7, which has no secret, is
    passed over. *)
Example monitor_polls_and_reveals_run :
  List.filter (fun e => match submitted e with
                        | Some _ => true
                        | None => isReadyPoll (call e)
                        end)
    (calls (snd (FusionService.monitorAndCompleteSwap 10 "0xorder" ["s0"; "s1"; "s2"]
                   (JsNumber 1) (Sim.start Sim.busyWorld Sim.serviceEnv)))) =
  [ {| call := CGetReadyToAcceptSecretFills "0xorder" [1]; returned := true |};
    {| call := CSubmitSecret "0xorder" 1 (Some "s1"); returned := false |};
    {| call := CGetReadyToAcceptSecretFills "0xorder" [1; 0]; returned := true |};
    {| call := CSubmitSecret "0xorder" 1 (Some "s1"); returned := true |};
    {| call := CSubmitSecret "0xorder" 0 (Some "s0"); returned := true |};
    {| call := CGetReadyToAcceptSecretFills "0xorder" [2; 7; 1]; returned := true |};
    {| call := CSubmitSecret "0xorder" 2 (Some "s2"); returned := true |};
    {| call := CGetReadyToAcceptSecretFills "0xorder" []; returned := true |} ].
Proof. vm_compute. reflexivity. Qed.

(** ** What a normal end of the Solana -> EVM swap says *)

Section SwapOutcome.
Context `{HashLockApi} `{OrderApi} {W : Type} `{!Relayer W}.
Local Abbreviation M := (@M _ _ W).
Local Abbreviation St := (@St _ _ W).

(** X16. [performCrossChainSwap] of the Solana -> EVM script returns normally
    exactly when the quote was obtained and the order was announced and its
    transaction sent.  What happens to the order afterwards -- executed,
    expired, cancelled, or still open after 120 polls -- does not change
    how the function ends. *)
Theorem SolToEvm_success_means_order_placed (fuel : nat) (cfg : SolToEvm.Config)
    (s : St) :
  (121 <= fuel)%nat ->
  (exists s', SolToEvm.performCrossChainSwap fuel cfg s = (Ret tt, s')) <->
  (exists quote s1 r s2,
     SolToEvm.getQuote cfg s = (Ret quote, s1) /\
     SolToEvm.createAndSubmitOrder cfg quote s1 = (Ret r, s2)).
Proof.
  intros Hfuel. unfold SolToEvm.performCrossChainSwap, tryCatch. split.
  - intros (s' & Hrun). revert Hrun. unfold bind at 1.
    destruct (SolToEvm.getQuote cfg s) as [[quote|e|c|] s1]; try discriminate.
    unfold bind at 1.
    destruct (SolToEvm.createAndSubmitOrder cfg quote s1) as [[r|e|c|] s2] eqn:Horder;
      try discriminate.
    intros _. eauto 10.
  - intros (quote & s1 & r & s2 & Hquote & Horder).
    rewrite (bind_returns _ _ _ _ _ Hquote), (bind_returns _ _ _ _ _ Horder).
    destruct (SolToEvm_monitor_terminates fuel cfg (fst r) (snd r) s2 Hfuel)
      as (s' & ->).
    eauto.
Qed.

End SwapOutcome.

Lemma SolToEvm_success_means_order_placed_witness :
  (121 <= 121)%nat /\
  ((exists s', SolToEvm.performCrossChainSwap 121
                 sampleSolConfig
                 (Sim.start expiredWorld Sim.solEnv) = (Ret tt, s')) <->
   (exists quote s1 r s2,
      SolToEvm.getQuote sampleSolConfig
        (Sim.start expiredWorld Sim.solEnv) = (Ret quote, s1) /\
      SolToEvm.createAndSubmitOrder
        sampleSolConfig quote s1
      = (Ret r, s2))).
Proof.
  split; [lia|].
  apply (SolToEvm_success_means_order_placed 121
           sampleSolConfig
           (Sim.start expiredWorld Sim.solEnv)).
  lia.
Defined.

(** An expired order: the script ends normally all the same. *)
Example SolToEvm_expired_script_run :
  fst (SolToEvm.script 121 (Sim.start expiredWorld Sim.solEnv)) = Ret tt.
Proof. vm_compute. reflexivity. Qed.

(** ** The handlers on the scripted relayer *)

Lemma postSwapExecute_answers_witness :
  (121 <= 121)%nat /\
  exists response s',
    FusionRoutes.postSwapExecute 121 sampleRequest
      (Sim.start Sim.pendingWorld Sim.serviceEnv) = (Ret response, s') /\
    if swapBodyIncomplete sampleRequest then
      response = {| FusionRoutes.swapStatus := 400;
                    FusionRoutes.swapBody :=
                      FusionRoutes.SwapFailure "Missing required parameters" |} /\
      s' = Sim.start Sim.pendingWorld Sim.serviceEnv
    else
      exists result,
        FusionService.executeSwap 121
          (withPreset (FusionRoutes.jsOr (FusionService.preset sampleRequest)
                         (JsString "fast")) sampleRequest)
          (Sim.start Sim.pendingWorld Sim.serviceEnv)
        = (Ret result, s') /\
        response = {| FusionRoutes.swapStatus := 200;
                      FusionRoutes.swapBody := FusionRoutes.SwapJson result |} /\
        FusionRoutes.swap_success (FusionRoutes.swapBody response)
        = FusionService.success result.
Proof.
  split; [lia|].
  apply (postSwapExecute_answers 121 sampleRequest
           (Sim.start Sim.pendingWorld Sim.serviceEnv)).
  lia.
Defined.

(** A swap that fails for want of the signer keys is answered with status
    200; only the body says [success: false]. *)
Example postSwapExecute_failure_run :
  fst (FusionRoutes.postSwapExecute 121 sampleRequest (Sim.start Sim.pendingWorld ∅)) =
  Ret {| FusionRoutes.swapStatus := 200;
         FusionRoutes.swapBody :=
           FusionRoutes.SwapJson
             (FusionService.SwapFailed
                "TEST_PRIVATE_KEY and INCH_API_KEY required for order submission") |}.
Proof. vm_compute. reflexivity. Qed.

Lemma test_swaps_report_success_witness :
  (121 <= 121)%nat /\
  exists response s' result message,
    FusionRoutes.postTestBaseEthToPolygon 121 JsUndefined (Sim.start Sim.pendingWorld ∅)
    = (Ret response, s') /\
    FusionService.executeSwap 121
      (FusionRoutes.baseToPolygonRequest JsUndefined
         (env (Sim.start Sim.pendingWorld ∅) !! "TEST_MAKER_ADDRESS")
         (env (Sim.start Sim.pendingWorld ∅) !! "TEST_RECEIVER_ADDRESS"))
      (Sim.start Sim.pendingWorld ∅)
    = (Ret result, s') /\
    response = {| FusionRoutes.swapStatus := 200;
                  FusionRoutes.swapBody := FusionRoutes.SwapData result message |} /\
    FusionRoutes.swap_success (FusionRoutes.swapBody response) = true.
Proof.
  split; [lia|].
  apply (test_swaps_report_success 121
           {| FusionRoutes.ts_amount := JsUndefined;
              FusionRoutes.ts_solanaReceiver := JsString "receiver" |}
           JsUndefined (Sim.start Sim.pendingWorld ∅)).
  lia.
Defined.

(** The test endpoint says [success: true] around a swap that failed. *)
Example postTestBaseEthToPolygon_failure_run :
  fst (FusionRoutes.postTestBaseEthToPolygon 121 JsUndefined
         (Sim.start Sim.pendingWorld ∅)) =
  Ret {| FusionRoutes.swapStatus := 200;
         FusionRoutes.swapBody :=
           FusionRoutes.SwapData
             (FusionService.SwapFailed
                "TEST_PRIVATE_KEY and INCH_API_KEY required for order submission")
             "Base ETH to Polygon USDC swap executed" |}.
Proof. vm_compute. reflexivity. Qed.

Lemma scripts_end_cleanly_witness :
  (121 <= 121)%nat /\
  endsAs false true false (fst (SolToEvm.script 121 (Sim.start Sim.pendingWorld Sim.solEnv))).
Proof.
  split; [lia|].
  apply (scripts_end_cleanly 121 (Sim.start Sim.pendingWorld Sim.solEnv)).
  lia.
Defined.
